(** * Exam corrector: scoring engine, student matcher, orchestrator, batch scheduler

    A shallow embedding of the assessment core of the exam corrector:

    - [exam/assess/__init__.py]: [Feature], [enumerate_features],
      [Assessor.calculate_score], [Assessor.assess_single_answer],
      [Assessor.assess_student_exam];
    - [exam/__init__.py]: [QuestionsStore.question];
    - [exam/solution/__init__.py]: [Answer], [load_cache];
    - [exam/mcp/__init__.py]: [AssessmentContext] and the tools
      [load_checklist] and [assess_student_exam] with its student lookup;
    - [multiAgents_client.py]: [setup_node], [distribute_node],
      [create_worker_sends], [worker_node], [report_node] and the graph
      that joins them.

    Conventions.  Python [float] values are idealised as exact rationals
    ([Q]); [round(x, n)] is rounding to [n] decimals, ties to even.
    Python [str] is [string], a character being a code point below 256.
    Python [int] is [Z].  A [dict] is a [gmap]; a dictionary whose set of
    keys depends on the path taken is a record with optional fields.
    Exceptions are values of an error type. *)

From Stdlib Require Import Ascii String QArith Qround Lqa.
From stdpp Require Import gmap strings list.

Local Open Scope Z_scope.

(** ** Python built-ins on strings *)

Module PyStr.

(** [str.isspace] on one code point below 256. *)
Definition is_space (c : ascii) : bool :=
  let n := N_of_ascii c in
  ((9 <=? n) && (n <=? 13) || (28 <=? n) && (n <=? 32)
   || (n =? 133) || (n =? 160))%N.

Fixpoint lstrip_by (p : ascii -> bool) (s : string) : string :=
  match s with
  | EmptyString => EmptyString
  | String c s' => if p c then lstrip_by p s' else s
  end.

Fixpoint rstrip_by (p : ascii -> bool) (s : string) : string :=
  match s with
  | EmptyString => EmptyString
  | String c s' =>
      match rstrip_by p s' with
      | EmptyString => if p c then EmptyString else String c EmptyString
      | r => String c r
      end
  end.

(** [s.strip()] *)
Definition strip (s : string) : string :=
  rstrip_by is_space (lstrip_by is_space s).

(** [s.rstrip(".")] *)
Definition rstrip_dot (s : string) : string :=
  rstrip_by (fun c => Ascii.eqb c "."%char) s.

(** [str.lower] on one code point below 256: the letters A-Z and the
    Latin-1 capitals U+00C0..U+00DE (without the sign U+00D7). *)
Definition lower_char (c : ascii) : ascii :=
  let n := N_of_ascii c in
  if ((65 <=? n) && (n <=? 90)
      || (192 <=? n) && (n <=? 222) && negb (n =? 215))%N
  then ascii_of_N (n + 32) else c.

Fixpoint lower (s : string) : string :=
  match s with
  | EmptyString => EmptyString
  | String c s' => String (lower_char c) (lower s')
  end.

(** [s.startswith(p)] *)
Definition startswith (s p : string) : bool := String.prefix p s.

(** [len(s)] *)
Definition len (s : string) : Z := Z.of_nat (String.length s).

(** [s.replace(c, "")] for a one-character [c]. *)
Fixpoint remove_char (c : ascii) (s : string) : string :=
  match s with
  | EmptyString => EmptyString
  | String d s' =>
      if Ascii.eqb c d then remove_char c s' else String d (remove_char c s')
  end.

(** [s[:n]] for [n >= 0]. *)
Fixpoint take (n : nat) (s : string) : string :=
  match n, s with
  | S n', String c s' => String c (take n' s')
  | _, _ => EmptyString
  end.

End PyStr.

(** ** Python built-ins on numbers *)

Module PyNum.

(** Nearest integer, ties to the even one. *)
Definition round_half_even (x : Q) : Z :=
  let f := Qfloor x in
  match (x - inject_Z f ?= 1 # 2)%Q with
  | Lt => f
  | Gt => f + 1
  | Eq => if Z.even f then f else f + 1
  end.

(** [round(x, ndigits)] *)
Definition round (x : Q) (ndigits : nat) : Q :=
  let p := 10 ^ Z.of_nat ndigits in
  (inject_Z (round_half_even (x * inject_Z p)) / inject_Z p)%Q.

(** [sum(xs)] *)
Definition sum (xs : list Q) : Q := foldl Qplus 0%Q xs.

(** [max(xs)] and [min(xs)] of a non-empty list; [None] is the
    [ValueError] of the empty one. *)
Definition max (xs : list Q) : option Q :=
  match xs with
  | [] => None
  | x :: xs' => Some (foldl (fun m y => if Qlt_le_dec m y then y else m) x xs')
  end.

Definition min (xs : list Q) : option Q :=
  match xs with
  | [] => None
  | x :: xs' => Some (foldl (fun m y => if Qlt_le_dec y m then y else m) x xs')
  end.

End PyNum.

(** ** [exam/assess/__init__.py]: features and the scoring engine *)

Inductive FeatureType := CORE | DETAILS_IMPORTANT.

(** [FeatureType.value] *)
Definition FeatureType_value (t : FeatureType) : string :=
  match t with
  | CORE => "core"
  | DETAILS_IMPORTANT => "important detail"
  end.

(** [FeatureType.name] *)
Definition FeatureType_name (t : FeatureType) : string :=
  match t with
  | CORE => "CORE"
  | DETAILS_IMPORTANT => "DETAILS_IMPORTANT"
  end.

Record Feature := mkFeature { type : FeatureType; description : string }.

Global Instance FeatureType_eq_dec : EqDecision FeatureType.
Proof. solve_decision. Defined.

Global Instance Feature_eq_dec : EqDecision Feature.
Proof. solve_decision. Defined.

Global Instance Feature_countable : Countable Feature.
Proof.
  refine (inj_countable'
            (fun f => (bool_decide (type f = CORE), description f))
            (fun p => mkFeature (if p.1 then CORE else DETAILS_IMPORTANT) p.2) _).
  intros [[] d]; reflexivity.
Defined.

Definition verb_ideal (f : Feature) : string := "should be present".
Definition verb_actual (f : Feature) : string := "is actually present".
Definition is_core (f : Feature) : bool := bool_decide (type f = CORE).

(** [Feature.weight_percentage].  The enumeration has two members, so the
    source's last branch ([0.10]) is never taken. *)
Definition weight_percentage (f : Feature) : Q :=
  match type f with
  | CORE => 70 # 100
  | DETAILS_IMPORTANT => 20 # 100
  end.

Record FeatureAssessment := mkFeatureAssessment {
  satisfied : bool;
  motivation : string
}.

(** One group of the [stats] dictionary. *)
Record GroupStats := mkGroupStats {
  gs_total : Z;
  gs_satisfied : Z;
  gs_percentage : Q;
  gs_weight : Q
}.

(** The [stats] dictionary: [{}] or the three-key dictionary. *)
Inductive Stats :=
| EmptyStats
| FullStats (core : GroupStats) (details_important : GroupStats)
            (scoring_system : string).

(** [sum(1 for f in assessments if f.type == t)] *)
Definition count_type (t : FeatureType)
    (assessments : gmap Feature FeatureAssessment) : Z :=
  Z.of_nat (length (filter (fun fa => type fa.1 = t) (map_to_list assessments))).

(** [sum(1 for f, a in assessments.items() if f.type == t and a.satisfied)] *)
Definition count_satisfied (t : FeatureType)
    (assessments : gmap Feature FeatureAssessment) : Z :=
  Z.of_nat (length (filter (fun fa => type fa.1 = t /\ satisfied fa.2 = true)
                           (map_to_list assessments))).

(** The formatting of numbers inside the breakdown text ([{x:.0f}], the
    [str] of a float and of an int) is a parameter of the scoring engine.
    The arrow of the breakdown text stands in the string as its UTF-8
    bytes. *)
Record NumFormat := mkNumFormat {
  fmt_0f : Q -> string;
  fmt_float : Q -> string;
  fmt_int : Z -> string
}.

Definition join_plus (parts : list string) : string :=
  match parts with
  | [] => ""
  | p :: ps => foldl (fun acc x => acc +:+ " + " +:+ x) p ps
  end.

(** [Assessor.calculate_score] *)
Definition calculate_score (F : NumFormat)
    (assessments : gmap Feature FeatureAssessment) (max_score : Q)
    : Q * string * Stats :=
  if bool_decide (assessments = ∅) then (0%Q, "No features assessed", EmptyStats)
  else
    let core_total := count_type CORE assessments in
    let core_satisfied := count_satisfied CORE assessments in
    let important_total := count_type DETAILS_IMPORTANT assessments in
    let important_satisfied := count_satisfied DETAILS_IMPORTANT assessments in
    let weights :=
      if (0 <? core_total) && (0 <? important_total)
      then Some (70 # 100, 30 # 100, "70% Core + 30% Important")%Q
      else if 0 <? core_total
      then Some (1, 0, "100% Core (no Important details)")%Q
      else if 0 <? important_total
      then Some (0, 1, "100% Important (no Core - unusual)")%Q
      else None in
    match weights with
    | None => (0%Q, "No features assessed", EmptyStats)
    | Some (core_weight, important_weight, scoring_system) =>
        let core_percentage :=
          (if 0 <? core_total
           then inject_Z core_satisfied / inject_Z core_total * core_weight
           else 0)%Q in
        let important_percentage :=
          (if 0 <? important_total
           then inject_Z important_satisfied / inject_Z important_total
                * important_weight
           else 0)%Q in
        let final_percentage := (core_percentage + important_percentage)%Q in
        let score := PyNum.round (final_percentage * max_score) 2 in
        let core_part :=
          if 0 <? core_total
          then ["Core: " +:+ fmt_int F core_satisfied +:+ "/"
                +:+ fmt_int F core_total +:+ " ("
                +:+ fmt_0f F (inject_Z core_satisfied / inject_Z core_total
                              * 100)%Q
                +:+ "% → " +:+ fmt_0f F (core_percentage * 100)%Q +:+ "%)"]
          else [] in
        let important_part :=
          if 0 <? important_total
          then ["Important: " +:+ fmt_int F important_satisfied +:+ "/"
                +:+ fmt_int F important_total +:+ " ("
                +:+ fmt_0f F (inject_Z important_satisfied
                              / inject_Z important_total * 100)%Q
                +:+ "% → " +:+ fmt_0f F (important_percentage * 100)%Q
                +:+ "%)"]
          else [] in
        let breakdown :=
          join_plus (core_part ++ important_part)
          +:+ " = " +:+ fmt_0f F (final_percentage * 100)%Q +:+ "% of "
          +:+ fmt_float F max_score +:+ " = " +:+ fmt_float F score
          +:+ " [" +:+ scoring_system +:+ "]" in
        let stats :=
          FullStats
            (mkGroupStats core_total core_satisfied
               (PyNum.round (if 0 <? core_total
                             then inject_Z core_satisfied
                                  / inject_Z core_total * 100
                             else 0)%Q 1)
               core_weight)
            (mkGroupStats important_total important_satisfied
               (PyNum.round (if 0 <? important_total
                             then inject_Z important_satisfied
                                  / inject_Z important_total * 100
                             else 0)%Q 1)
               important_weight)
            scoring_system in
        (score, breakdown, stats)
    end.

(** ** [exam/solution/__init__.py] and [exam/__init__.py]: checklists and the question catalog *)

(** [Answer]: the checklist of one question. *)
Record Answer := mkAnswer {
  core : list string;
  details_important : list string
}.

Record Question := mkQuestion {
  q_category : string;
  q_text : string;
  q_type : string;
  q_weight : Q;
  q_max_lines : Z;
  q_id : string
}.

(** Exceptions that cross the functions embedded here. *)
Inductive Exn :=
| QuestionNotFound (id : string) (shown_ids : list string) (more : option Z)
    (* KeyError: the asked id, [available_ids[:10]] and, when there are more
       than 10 ids, the number of the others *)
| NoChecklistFound (question_id : string)                      (* ValueError *)
| InvalidLiteral (s : string)                                  (* ValueError of int() *)
| ZeroDivisionError
| RangeStepZero                                                (* ValueError of range() *)
| JudgeError (msg : string)                                    (* raised by the LLM client *)
| WriteError (path : string).                                  (* OSError of mkdir or open *)

(** [QuestionsStore]: the dictionary [__questions_by_id], its items in
    insertion order. *)
Definition QuestionsStore := list (string * Question).

Definition normalize_id (id : string) : string :=
  PyStr.lower (PyStr.remove_char "-" (PyStr.remove_char " " id)).

(** [QuestionsStore.question] *)
Definition question (store : QuestionsStore) (id : string) : Exn + Question :=
  match List.find (fun kv => String.eqb kv.1 id) store with
  | Some kv => inr kv.2
  | None =>
      match List.find (fun kv => String.eqb (PyStr.lower kv.1) (PyStr.lower id))
                      store with
      | Some kv => inr kv.2
      | None =>
          match List.find (fun kv => String.eqb (normalize_id kv.1)
                                                (normalize_id id)) store with
          | Some kv => inr kv.2
          | None =>
              let available_ids := map fst store in
              let n := Z.of_nat (length available_ids) in
              inl (QuestionNotFound id (take 10 available_ids)
                     (if 10 <? n then Some (n - 10) else None))
          end
      end
  end.

(** [enumerate_features] *)
Definition enumerate_features (answer : option Answer) : list (nat * Feature) :=
  match answer with
  | None => []
  | Some a =>
      let feats := map (mkFeature CORE) (core a)
                   ++ map (mkFeature DETAILS_IMPORTANT) (details_important a) in
      zip (seq 0 (length feats)) feats
  end.

(** ** [Assessor.assess_single_answer] *)

(** The arguments of [TEMPLATE.format]; the template text itself is a file
    outside the sources, so the judge is given the arguments. *)
Record Prompt := mkPrompt {
  p_question : string;
  p_feature_type : string;
  p_feature_verb_ideal : string;
  p_feature_verb_actual : string;
  p_feature : string;
  p_answer : string
}.

(** The judge: [llm_client_func(...)] followed by [llm.invoke(prompt)].
    Its answer may depend on the calls made before; it may raise. *)
Definition Judge := list Prompt -> Prompt -> Exn + FeatureAssessment.

Record FeatureAssessmentEntry := mkEntry {
  fa_feature : string;
  fa_feature_type : string;
  fa_satisfied : bool;
  fa_motivation : string
}.

Inductive Status := no_response | assessed | error.

(** The dictionary of one question's assessment.  The first seven keys are
    set by [assess_single_answer], the last four by [assess_student_exam];
    an absent key is [None].  [a_error] holds the exception whose [str] the
    source stores. *)
Record Assessment := mkAssessment {
  a_status : Status;
  a_score : Q;
  a_max_score : Q;
  a_statistics : option Stats;
  a_breakdown : option string;
  a_feature_assessments : option (list FeatureAssessmentEntry);
  a_error : option Exn;
  a_question_number : option Z;
  a_question_id : option string;
  a_question_text : option string;
  a_student_response : option string
}.

(** The [for index, feature in enumerate_features(checklist)] loop; [log] is
    the list of prompts the judge has been invoked with so far. *)
Fixpoint judge_features (judge : Judge) (question : Question)
    (student_response : string) (features : list (nat * Feature))
    (feature_assessments_list : list FeatureAssessmentEntry)
    (feature_assessments_dict : gmap Feature FeatureAssessment)
    (log : list Prompt)
    : (Exn + list FeatureAssessmentEntry * gmap Feature FeatureAssessment)
      * list Prompt :=
  match features with
  | [] => (inr (feature_assessments_list, feature_assessments_dict), log)
  | (index, feature) :: rest =>
      let prompt :=
        mkPrompt (q_text question) (FeatureType_value (type feature))
                 (verb_ideal feature) (verb_actual feature)
                 (description feature) student_response in
      match judge log prompt with
      | inl e => (inl e, log ++ [prompt])
      | inr result =>
          judge_features judge question student_response rest
            (feature_assessments_list
             ++ [mkEntry (description feature) (FeatureType_name (type feature))
                         (satisfied result) (motivation result)])
            (<[feature := result]> feature_assessments_dict)
            (log ++ [prompt])
      end
  end.

(** [not student_response or student_response.strip() == '-'] *)
Definition unanswered (student_response : option string) : bool :=
  match student_response with
  | None => true
  | Some s => String.eqb s "" || String.eqb (PyStr.strip s) "-"
  end.

(** [Assessor.assess_single_answer] *)
Definition assess_single_answer (F : NumFormat) (judge : Judge)
    (question : Question) (checklist : option Answer)
    (student_response : option string) (max_score : Q) (log : list Prompt)
    : Assessment * list Prompt :=
  if unanswered student_response
  then (mkAssessment no_response 0%Q max_score None None None None
                     None None None None, log)
  else
    match judge_features judge question (default "" student_response)
                         (enumerate_features checklist) [] ∅ log with
    | (inr (feature_assessments_list, feature_assessments_dict), log') =>
        let '(score, breakdown, stats) :=
          calculate_score F feature_assessments_dict max_score in
        (mkAssessment assessed score max_score (Some stats) (Some breakdown)
                      (Some feature_assessments_list) None
                      None None None None, log')
    | (inl e, log') =>
        (mkAssessment error 0%Q max_score None None None (Some e)
                      None None None None, log')
    end.

(** ** [Assessor.assess_student_exam] *)

Module PyInt.

Definition is_digit (c : ascii) : bool :=
  let n := N_of_ascii c in ((48 <=? n) && (n <=? 57))%N.

Definition digit_value (c : ascii) : Z := Z.of_N (N_of_ascii c) - 48.

(** Digits with single underscores between them. *)
Fixpoint digits (s : string) (acc : Z) (after_digit : bool) : option Z :=
  match s with
  | EmptyString => if after_digit then Some acc else None
  | String c s' =>
      if is_digit c then digits s' (acc * 10 + digit_value c) true
      else if Ascii.eqb c "_" && after_digit then digits s' acc false
      else None
  end.

(** [int(s)] for a string [s]; [None] is its [ValueError]. *)
Definition int (s : string) : option Z :=
  match PyStr.strip s with
  | String "+" r => digits r 0 false
  | String "-" r => Z.opp <$> digits r 0 false
  | r => digits r 0 false
  end.

(** [s.replace(sub, "")] for a non-empty [sub]; [skip] counts the
    characters of a match still to be dropped. *)
Fixpoint remove_sub (sub : string) (skip : nat) (s : string) : string :=
  match s with
  | EmptyString => EmptyString
  | String c s' =>
      match skip with
      | S k => remove_sub sub k s'
      | O =>
          if String.prefix sub s
          then remove_sub sub (String.length sub - 1) s'
          else String c (remove_sub sub 0 s')
      end
  end.

End PyInt.

(** One entry of [exam_questions]. *)
Record QuestionInfo := mkQuestionInfo {
  qi_number : string;
  qi_id : string;
  qi_text : string;
  qi_score : Q
}.

(** The reference grades of one student; the empty dictionary is [None]. *)
Record OriginalGrades := mkOriginalGrades {
  total_grade : Q;
  question_grades : gmap Z Q
}.

Record SavedFiles := mkSavedFiles {
  sf_assessment : string;
  sf_summary : string
}.

(** The dictionary returned for one student. *)
Record ExamResult := mkExamResult {
  r_student_email : string;
  r_calculated_score : Q;
  r_max_score : Q;
  r_percentage : Q;
  r_scoring_system : string;
  r_assessments : list Assessment;
  r_original_grades : option OriginalGrades;
  r_saved_files : option SavedFiles;
  r_moodle_grade : option Q
}.

(** What is written to a file: the JSON dump of a result or the summary
    text derived from it. *)
Inductive FileContent :=
| AssessmentJson (r : ExamResult)
| SummaryText (r : ExamResult).

(** The mutable state: the checklist cache of the shared context, the
    prompts sent to the judge, the files under the evaluations directory,
    and the ids [id] whose file [solutions/<id>.yaml] exists but cannot be
    loaded as a checklist (a file either loads or does not: these ids are
    not ids of [solutions] below). *)
Record World := mkWorld {
  loaded_checklists : gmap string Answer;
  llm_calls : list Prompt;
  files : gmap string FileContent;
  broken_solutions : gset string
}.

(** What a run reads but does not change. *)
Record Env := mkEnv {
  num_format : NumFormat;
  judge : Judge;
  questions_store : QuestionsStore;
  solutions : gmap string Answer;    (* the files [solutions/<id>.yaml] that
                                        load as a checklist; no embedded
                                        function writes or deletes them *)
  evaluations_dir : string;
  writable : string -> bool          (* whether a path can be created and written *)
}.

(** [load_cache] of [exam/solution/__init__.py]: the checklist of the file
    [solutions/<id>.yaml]; a file that exists and cannot be loaded is
    deleted ([unlink]) and gives [None], as a missing file does. *)
Definition load_cache (env : Env) (question : Question) (w : World)
    : option Answer * World :=
  match solutions env !! q_id question with
  | Some checklist => (Some checklist, w)
  | None =>
      (None, mkWorld (loaded_checklists w) (llm_calls w) (files w)
                     (broken_solutions w ∖ {[q_id question]}))
  end.

(** [context.get_checklist], then [load_answer_cache] and
    [context.store_checklist] when the context has none. *)
Definition resolve_checklist (env : Env) (question_id : string)
    (question : Question) (w : World) : option Answer * World :=
  match loaded_checklists w !! question_id with
  | Some checklist => (Some checklist, w)
  | None =>
      match load_cache env question w with
      | (Some checklist, w') =>
          (Some checklist,
           mkWorld (<[question_id := checklist]> (loaded_checklists w'))
                   (llm_calls w') (files w') (broken_solutions w'))
      | (None, w') => (None, w')
      end
  end.

(** The body of the [try] of one loop round. *)
Definition try_assess_question (env : Env) (question_info : QuestionInfo)
    (question_num : Z) (response_text : string) (w : World)
    : (Exn + Assessment) * World :=
  match question (questions_store env) (qi_id question_info) with
  | inl e => (inl e, w)
  | inr question =>
      match resolve_checklist env (qi_id question_info) question w with
      | (None, w1) => (inl (NoChecklistFound (qi_id question_info)), w1)
      | (Some checklist, w1) =>
          let '(assessment, log) :=
            assess_single_answer (num_format env) (judge env) question
              (Some checklist) (Some response_text) (qi_score question_info)
              (llm_calls w1) in
          (inr (mkAssessment (a_status assessment) (a_score assessment)
                  (a_max_score assessment) (a_statistics assessment)
                  (a_breakdown assessment) (a_feature_assessments assessment)
                  (a_error assessment)
                  (Some question_num) (Some (qi_id question_info))
                  (Some (q_text question)) (Some response_text)),
           mkWorld (loaded_checklists w1) log (files w1)
                   (broken_solutions w1))
      end
  end.

(** The accumulators of the loop over [exam_questions]. *)
Record Totals := mkTotals {
  assessments : list Assessment;
  total_score : Q;
  total_max_score : Q
}.

(** One round of [for question_info in exam_questions]. *)
Definition assess_question (env : Env) (student_responses : gmap Z string)
    (question_info : QuestionInfo) (t : Totals) (w : World)
    : (Exn + Totals) * World :=
  match PyInt.int (PyInt.remove_sub "Question " 0 (qi_number question_info)) with
  | None =>
      (inl (InvalidLiteral
              (PyInt.remove_sub "Question " 0 (qi_number question_info))), w)
  | Some question_num =>
      match student_responses !! question_num with
      | None =>
          (inr (mkTotals
                 (assessments t
                  ++ [mkAssessment no_response 0%Q (qi_score question_info)
                        None None None None
                        (Some question_num) (Some (qi_id question_info))
                        (Some (qi_text question_info)) None])
                 (total_score t)
                 (total_max_score t + qi_score question_info)%Q), w)
      | Some response_text =>
          match try_assess_question env question_info question_num
                                    response_text w with
          | (inr assessment, w') =>
              (inr (mkTotals (assessments t ++ [assessment])
                             (total_score t + a_score assessment)%Q
                             (total_max_score t + qi_score question_info)%Q), w')
          | (inl e, w') =>
              (inr (mkTotals
                     (assessments t
                      ++ [mkAssessment error 0%Q (qi_score question_info)
                            None None None (Some e)
                            (Some question_num) (Some (qi_id question_info))
                            (Some (qi_text question_info)) None])
                     (total_score t)
                     (total_max_score t + qi_score question_info)%Q), w')
          end
      end
  end.

Fixpoint assess_questions (env : Env) (student_responses : gmap Z string)
    (exam_questions : list QuestionInfo) (t : Totals) (w : World)
    : (Exn + Totals) * World :=
  match exam_questions with
  | [] => (inr t, w)
  | question_info :: rest =>
      match assess_question env student_responses question_info t w with
      | (inl e, w') => (inl e, w')
      | (inr t', w') => assess_questions env student_responses rest t' w'
      end
  end.

(** [Assessor._save_assessment_results]: the directory is made, then
    [assessment.json] is written, then [summary.txt]; a step that fails
    raises and leaves what the steps before it wrote.  Paths are joined
    with "/", as [pathlib] joins a plain relative name. *)
Definition save_assessment_results (env : Env) (student_email : string)
    (result : ExamResult) (w : World) : (Exn + SavedFiles) * World :=
  let student_dir := evaluations_dir env +:+ "/" +:+ student_email in
  let assessment_file := student_dir +:+ "/assessment.json" in
  let summary_file := student_dir +:+ "/summary.txt" in
  if negb (writable env student_dir) then (inl (WriteError student_dir), w)
  else if negb (writable env assessment_file)
  then (inl (WriteError assessment_file), w)
  else
    let w1 :=
      mkWorld (loaded_checklists w) (llm_calls w)
              (<[assessment_file := AssessmentJson result]> (files w))
              (broken_solutions w) in
    if negb (writable env summary_file)
    then (inl (WriteError summary_file), w1)
    else (inr (mkSavedFiles assessment_file summary_file),
          mkWorld (loaded_checklists w1) (llm_calls w1)
                  (<[summary_file := SummaryText result]> (files w1))
                  (broken_solutions w1)).

(** [Assessor.assess_student_exam] *)
Definition assess_student_exam (env : Env) (student_email : string)
    (exam_questions : list QuestionInfo) (student_responses : gmap Z string)
    (save_results : bool) (original_grades : option OriginalGrades) (w : World)
    : (Exn + ExamResult) * World :=
  match assess_questions env student_responses exam_questions
                         (mkTotals [] 0%Q 0%Q) w with
  | (inl e, w') => (inl e, w')
  | (inr t, w') =>
      let result :=
        mkExamResult student_email (total_score t) (total_max_score t)
          (PyNum.round (if Qlt_le_dec 0 (total_max_score t)
                        then total_score t / total_max_score t * 100
                        else 0)%Q 1)
          "70% Core + 30% Important_Details"
          (assessments t) original_grades None None in
      if save_results
      then match save_assessment_results env student_email result w' with
           | (inl e, w'') => (inl e, w'')
           | (inr saved_files, w'') =>
               (inr (mkExamResult (r_student_email result)
                       (r_calculated_score result) (r_max_score result)
                       (r_percentage result) (r_scoring_system result)
                       (r_assessments result) (r_original_grades result)
                       (Some saved_files) None), w'')
           end
      else (inr result, w')
  end.

(** ** [exam/mcp/__init__.py]: the [assess_student_exam] tool *)

(** One entry of [exam_data["students"]]. *)
Record Student := mkStudent {
  email : string;
  responses : gmap Z string;
  num_responses : Z;
  original_grades : option OriginalGrades;
  moodle_grade : option Q
}.

(** One value of [context.loaded_exams]. *)
Record ExamData := mkExamData {
  exam_id : string;
  questions : list QuestionInfo;
  students : list Student
}.

(** The condition of the lookup loop, on the cleaned query. *)
Definition student_matches (student_email_clean : string) (student : Student)
    : bool :=
  let full_email := email student in
  String.eqb (PyStr.lower full_email) (PyStr.lower student_email_clean)
  || (10 <=? PyStr.len student_email_clean)
     && PyStr.startswith (PyStr.lower full_email)
                         (PyStr.lower student_email_clean).

(** The two nested loops with their [break]s: the exams in the order of
    [loaded_exams.values()], the students of each in list order. *)
Fixpoint find_student (student_email_clean : string)
    (loaded_exams : list ExamData)
    : option (Student * list QuestionInfo * string) :=
  match loaded_exams with
  | [] => None
  | exam_data :: rest =>
      match List.find (student_matches student_email_clean)
                      (students exam_data) with
      | Some student => Some (student, questions exam_data, email student)
      | None => find_student student_email_clean rest
      end
  end.

(** The JSON text returned by the tool, by its top-level keys. *)
Inductive ToolOutput :=
| StudentNotFound (searched_for : string)
                  (available_students_sample : list string)
                  (num_loaded_students : Z)     (* has the key "error" *)
| ToolException (e : Exn)                       (* has the key "error" *)
| ToolResult (r : ExamResult).

(** ["error" in assessment_data] *)
Definition has_error (o : ToolOutput) : bool :=
  match o with
  | ToolResult _ => false
  | _ => true
  end.

Module ExamMCPServer.

(** The tool [assess_student_exam] made by [_create_tools]. *)
Definition assess_student_exam (env : Env) (loaded_exams : list ExamData)
    (student_email : string) (w : World) : ToolOutput * World :=
  let student_email_clean := PyStr.strip (PyStr.rstrip_dot student_email) in
  match find_student student_email_clean loaded_exams with
  | None =>
      (StudentNotFound student_email_clean
         (concat (map (fun e => map email (take 5 (students e))) loaded_exams))
         (foldl Z.add 0 (map (fun e => Z.of_nat (length (students e)))
                             loaded_exams)),
       w)
  | Some (student_data, questions, matched_email) =>
      match assess_student_exam env matched_email questions
              (responses student_data) true (original_grades student_data) w with
      | (inl e, w') => (ToolException e, w')
      | (inr result, w') =>
          (ToolResult
             (mkExamResult (r_student_email result) (r_calculated_score result)
                (r_max_score result) (r_percentage result)
                (r_scoring_system result) (r_assessments result)
                (r_original_grades result) (r_saved_files result)
                (moodle_grade student_data)), w')
      end
  end.

End ExamMCPServer.

(** ** [multiAgents_client.py]: the batch scheduler *)

Module PyList.

(** [len(range(start, stop, step))] for [step <> 0]. *)
Definition range_len (start stop step : Z) : Z :=
  if 0 <? step
  then if start <? stop then (stop - start - 1) / step + 1 else 0
  else if stop <? start then (start - stop - 1) / (- step) + 1 else 0.

(** [range(start, stop, step)] *)
Definition range (start stop step : Z) : Exn + list Z :=
  if step =? 0 then inl RangeStepZero
  else inr (map (fun k => start + Z.of_nat k * step)
                (seq 0 (Z.to_nat (range_len start stop step)))).

(** A slice bound brought into [0 .. len]. *)
Definition clamp (len i : Z) : Z :=
  if i <? 0 then Z.max (i + len) 0 else Z.min i len.

(** [l[i:j]] *)
Definition slice {A} (l : list A) (i j : Z) : list A :=
  let len := Z.of_nat (length l) in
  let a := clamp len i in
  let b := clamp len j in
  take (Z.to_nat (b - a)) (drop (Z.to_nat a) l).

(** [a // b] *)
Definition floordiv (a b : Z) : Exn + Z :=
  if b =? 0 then inl ZeroDivisionError else inr (a / b).

(** [sorted(l, key=...)] with [leb] the order of the keys: a stable
    insertion sort. *)
Fixpoint insert {A} (leb : A -> A -> bool) (x : A) (l : list A) : list A :=
  match l with
  | [] => [x]
  | y :: l' => if leb x y then x :: l else y :: insert leb x l'
  end.

Definition sorted {A} (leb : A -> A -> bool) (l : list A) : list A :=
  foldr (insert leb) [] l.

End PyList.

(** [TrueParallelExamAssessment.distribute_node]: the new values of
    [student_batches] and [num_workers]. *)
Definition distribute_node (exam_students : list Student) (num_workers : Z)
    : Exn + list (list string) * Z :=
  let students := map email exam_students in
  match PyList.floordiv (Z.of_nat (length students)) num_workers with
  | inl e => inl e
  | inr q =>
      let batch_size := q + 1 in
      match PyList.range 0 (Z.of_nat (length students)) batch_size with
      | inl e => inl e
      | inr starts =>
          let batches :=
            map (fun i => PyList.slice students i (i + batch_size)) starts in
          inr (batches, Z.of_nat (length batches))
      end
  end.

(** [WorkerState] *)
Record WorkerState := mkWorkerState {
  worker_id : Z;
  batch : list string
}.

(** [create_worker_sends]: one private state per batch, numbered from 0. *)
Definition create_worker_sends (student_batches : list (list string))
    : list WorkerState :=
  map (fun ib => mkWorkerState (Z.of_nat ib.1) ib.2)
      (zip (seq 0 (length student_batches)) student_batches).

(** One element of the [assessments] list of the graph state. *)
Record WorkerResult := mkWorkerResult {
  wr_worker_id : Z;
  wr_student : string;
  wr_score : Q;
  wr_max_score : Q;
  wr_percentage : Q
}.

(** The awaited call [mcp_server.tools["assess_student_exam"](email)]
    followed by [json.loads]; [inl] when either raises. *)
Definition Tool := string -> World -> (Exn + ToolOutput) * World.

Definition mcp_tool (env : Env) (loaded_exams : list ExamData) : Tool :=
  fun student_email w =>
    let '(o, w') :=
      ExamMCPServer.assess_student_exam env loaded_exams student_email w in
    (inr o, w').

(** The loop of [worker_node] over its batch. *)
Fixpoint worker_loop (tool : Tool) (worker_id : Z) (batch : list string)
    (results : list WorkerResult) (w : World) : list WorkerResult * World :=
  match batch with
  | [] => (results, w)
  | student_email :: rest =>
      match tool student_email w with
      | (inr (ToolResult assessment_data), w') =>
          worker_loop tool worker_id rest
            (results ++ [mkWorkerResult worker_id student_email
                           (r_calculated_score assessment_data)
                           (r_max_score assessment_data)
                           (r_percentage assessment_data)])
            w'
      | (_, w') => worker_loop tool worker_id rest results w'
      end
  end.

(** [TrueParallelExamAssessment.worker_node]: the list added to
    [assessments]. *)
Definition worker_node (tool : Tool) (state : WorkerState) (w : World)
    : list WorkerResult * World :=
  worker_loop tool (worker_id state + 1) (batch state) [] w.

(** The workers one after the other, their lists joined by [operator.add]
    in the order of the worker numbers. *)
Fixpoint run_workers (tool : Tool) (sends : list WorkerState) (w : World)
    : list WorkerResult * World :=
  match sends with
  | [] => ([], w)
  | state :: rest =>
      let '(results, w') := worker_node tool state w in
      let '(others, w'') := run_workers tool rest w' in
      (results ++ others, w'')
  end.

(** The report, by the values put into its text. *)
Record WorkerStat := mkWorkerStat {
  ws_worker_id : Z;
  ws_students : Z;
  ws_average : Q
}.

Record DetailLine := mkDetailLine {
  dl_index : Z;
  dl_email_preview : string;
  dl_score : Q;
  dl_max_score : Q;
  dl_percentage : Q;
  dl_worker_id : Z
}.

Record ReportData := mkReportData {
  rp_num_workers : Z;
  rp_total_students : Z;
  rp_average : Q;
  rp_maximum : Q;
  rp_minimum : Q;
  rp_worker_stats : list WorkerStat;
  rp_details : list DetailLine
}.

Inductive Report :=
| NoAssessments                 (* "Nessuna valutazione completata" *)
| FullReport (r : ReportData).

(** [worker_stats]: the scores of each worker, by worker number. *)
Definition collect_worker_stats (assessments : list WorkerResult)
    : gmap Z (list Q) :=
  foldl (fun worker_stats a =>
           <[wr_worker_id a :=
               default [] (worker_stats !! wr_worker_id a) ++ [wr_score a]]>
             worker_stats)
        ∅ assessments.

(** [TrueParallelExamAssessment.report_node].  The sums and the means are
    float arithmetic in the source and exact here; [max] and [min] only
    compare and pick one of the scores. *)
Definition report_node (assessments : list WorkerResult) (num_workers : Z)
    : Report :=
  match assessments with
  | [] => NoAssessments
  | _ =>
      let assessments :=
        PyList.sorted (fun a b => String.leb (wr_student a) (wr_student b))
                      assessments in
      let scores := map wr_score assessments in
      let avg_score := (PyNum.sum scores / inject_Z (Z.of_nat (length scores)))%Q in
      let worker_stats := collect_worker_stats assessments in
      FullReport
        (mkReportData num_workers (Z.of_nat (length assessments)) avg_score
           (default 0%Q (PyNum.max scores)) (default 0%Q (PyNum.min scores))
           (map (fun wid =>
                   let wscores := default [] (worker_stats !! wid) in
                   mkWorkerStat wid (Z.of_nat (length wscores))
                     (PyNum.sum wscores / inject_Z (Z.of_nat (length wscores)))%Q)
                (PyList.sorted Z.leb (map fst (map_to_list worker_stats))))
           (map (fun ia =>
                   mkDetailLine (Z.of_nat ia.1)
                     (PyStr.take 40 (wr_student ia.2) +:+ "...")
                     (wr_score ia.2) (wr_max_score ia.2) (wr_percentage ia.2)
                     (wr_worker_id ia.2))
                (zip (seq 1 (length assessments)) assessments)))
  end.

(** The graph after the set-up: distribute, one worker per batch, then the
    report, which is reached only from the workers.  With no batch no
    worker is sent, the run ends after the distribution and [result] keeps
    the empty string of the initial state: [None]. *)
Definition run_batches (tool : Tool) (exam_students : list Student)
    (num_workers : Z) (w : World) : Exn + option Report * World :=
  match distribute_node exam_students num_workers with
  | inl e => inl e
  | inr (student_batches, num_workers') =>
      match create_worker_sends student_batches with
      | [] => inr (None, w)
      | sends =>
          let '(assessments, w') := run_workers tool sends w in
          inr (Some (report_node assessments num_workers'), w')
      end
  end.

(** * Notions used to state the properties *)

(** The dictionary holds a verdict for a feature of type [t]. *)
Definition has_type (t : FeatureType)
    (assessments : gmap Feature FeatureAssessment) : Prop :=
  exists f a, assessments !! f = Some a /\ type f = t.

(** The pair [(core weight, important weight)] recorded in the statistics. *)
Definition weights_used (r : Q * string * Stats) : option (Q * Q) :=
  match r.2 with
  | EmptyStats => None
  | FullStats c i _ => Some (gs_weight c, gs_weight i)
  end.

(** The share of satisfied features of one type, [satisfied / total]. *)
Definition ratio (t : FeatureType)
    (assessments : gmap Feature FeatureAssessment) : Q :=
  (inject_Z (count_satisfied t assessments)
   / inject_Z (count_type t assessments))%Q.

(** ** Sample data *)

Definition plain_format : NumFormat :=
  mkNumFormat (fun _ => "") (fun _ => "") (fun _ => "").

Definition met := mkFeatureAssessment true "present".
Definition unmet := mkFeatureAssessment false "absent".

(** Four core features with three satisfied, two important ones with one
    satisfied. *)
Definition verdicts_mixed : gmap Feature FeatureAssessment :=
  <[mkFeature CORE "c1" := met]>
  (<[mkFeature CORE "c2" := met]>
  (<[mkFeature CORE "c3" := met]>
  (<[mkFeature CORE "c4" := unmet]>
  (<[mkFeature DETAILS_IMPORTANT "d1" := met]>
  (<[mkFeature DETAILS_IMPORTANT "d2" := unmet]> ∅))))).

Definition verdicts_core_only : gmap Feature FeatureAssessment :=
  <[mkFeature CORE "c1" := met]> (<[mkFeature CORE "c2" := met]> ∅).

Definition verdicts_important_only : gmap Feature FeatureAssessment :=
  <[mkFeature DETAILS_IMPORTANT "d1" := met]>
  (<[mkFeature DETAILS_IMPORTANT "d2" := unmet]> ∅).

(** ** Notions for the orchestrator *)

(** [int(question_info["number"].replace("Question ", ""))] *)
Definition question_number (question_info : QuestionInfo) : option Z :=
  PyInt.int (PyInt.remove_sub "Question " 0 (qi_number question_info)).

(** The prompt of one feature. *)
Definition prompt_for (question : Question) (student_response : string)
    (feature : Feature) : Prompt :=
  mkPrompt (q_text question) (FeatureType_value (type feature))
           (verb_ideal feature) (verb_actual feature)
           (description feature) student_response.

(** Some judgment call of the loop over the features raises [e]: the calls
    before it return, each one seeing the prompts sent so far. *)
Inductive judging_raises (judge : Judge) (question : Question)
    (student_response : string)
    : list (nat * Feature) -> list Prompt -> Exn -> Prop :=
| raises_here index feature rest log e :
    judge log (prompt_for question student_response feature) = inl e ->
    judging_raises judge question student_response
                   ((index, feature) :: rest) log e
| raises_later index feature rest log result e :
    judge log (prompt_for question student_response feature) = inr result ->
    judging_raises judge question student_response rest
                   (log ++ [prompt_for question student_response feature]) e ->
    judging_raises judge question student_response
                   ((index, feature) :: rest) log e.

(** The checklist a round finds for [question], asked for under
    [question_id]: the one the cache holds for that id, else the one of the
    file of the question. *)
Definition checklist_for (env : Env) (question_id : string)
    (question : Question) (w : World) : option Answer :=
  match loaded_checklists w !! question_id with
  | Some checklist => Some checklist
  | None => solutions env !! q_id question
  end.

(** Assessing the answered question [question_info] fails in the world [w]:
    the question is not in the catalog, or there is no checklist for it, or
    a judgment call raises. *)
Definition question_fails (env : Env) (question_info : QuestionInfo)
    (response_text : string) (w : World) : Prop :=
  (exists e, question (questions_store env) (qi_id question_info) = inl e)
  \/ (exists q, question (questions_store env) (qi_id question_info) = inr q
                /\ checklist_for env (qi_id question_info) q w = None)
  \/ (exists q checklist e,
        question (questions_store env) (qi_id question_info) = inr q
        /\ checklist_for env (qi_id question_info) q w = Some checklist
        /\ unanswered (Some response_text) = false
        /\ judging_raises (judge env) q response_text
             (enumerate_features (Some checklist)) (llm_calls w) e).

(** The entry [a] is the assessment of the answer [response_text] to
    [question] against [checklist]: it names the items of the checklist,
    core items first, and its score, breakdown and statistics are those of
    [calculate_score] for verdicts on exactly the features of the
    checklist. *)
Definition assessed_entry (F : NumFormat) (question : Question)
    (checklist : Answer) (response_text : string) (max_score : Q)
    (a : Assessment) : Prop :=
  a_status a = assessed
  /\ a_question_text a = Some (q_text question)
  /\ a_student_response a = Some response_text
  /\ (map fa_feature <$> a_feature_assessments a)
     = Some (core checklist ++ details_important checklist)
  /\ a_error a = None
  /\ exists verdicts breakdown stats,
       (forall f, is_Some (verdicts !! f)
                  <-> f ∈ (enumerate_features (Some checklist)).*2)
       /\ calculate_score F verdicts max_score = (a_score a, breakdown, stats)
       /\ a_breakdown a = Some breakdown
       /\ a_statistics a = Some stats.

(** The entry [a] of the assessment list belongs to [question_info]. *)
Definition entry_of (question_info : QuestionInfo) (a : Assessment) : Prop :=
  a_question_number a = question_number question_info
  /\ a_question_id a = Some (qi_id question_info)
  /\ a_max_score a = qi_score question_info
  /\ (a_status a = error -> a_score a = 0%Q /\ is_Some (a_error a))
  /\ (a_status a = no_response -> a_score a = 0%Q).

(** What the assessment list of an exam started in the world [w] holds for
    [question_info]: the entry belongs to the question; it is a missing
    response when the student gave none or only a dash; it is an error when
    the question is not in the catalog or has no checklist; and otherwise
    it is the assessment of the answer against the checklist, unless a
    judgment call raised. *)
Definition exam_entry (env : Env) (student_responses : gmap Z string)
    (w : World) (question_info : QuestionInfo) (a : Assessment) : Prop :=
  entry_of question_info a
  /\ forall n,
       question_number question_info = Some n ->
       match student_responses !! n with
       | None => a_status a = no_response
       | Some response_text =>
           match question (questions_store env) (qi_id question_info) with
           | inl e => a_status a = error /\ a_error a = Some e
           | inr q =>
               match checklist_for env (qi_id question_info) q w with
               | None =>
                   a_status a = error
                   /\ a_error a
                      = Some (NoChecklistFound (qi_id question_info))
               | Some checklist =>
                   if unanswered (Some response_text)
                   then a_status a = no_response
                   else assessed_entry (num_format env) q checklist
                          response_text (qi_score question_info) a
                        \/ (a_status a = error
                            /\ exists log prompt e,
                                 judge env log prompt = inl e
                                 /\ a_error a = Some e)
               end
           end
       end.

(** The directory and the two files [_save_assessment_results] writes for
    a student can be made. *)
Definition can_save (env : Env) (student_email : string) : Prop :=
  writable env (evaluations_dir env +:+ "/" +:+ student_email) = true
  /\ writable env ((evaluations_dir env +:+ "/" +:+ student_email)
                   +:+ "/assessment.json") = true
  /\ writable env ((evaluations_dir env +:+ "/" +:+ student_email)
                   +:+ "/summary.txt") = true.

(** ** Sample exam *)

Definition sample_store : QuestionsStore :=
  [("CI-1", mkQuestion "CI" "What is continuous integration?" "essay" 1 15 "CI-1");
   ("Git-1", mkQuestion "Git" "What is a commit?" "essay" 1 15 "Git-1")].

(** A checklist with core features only; [Git-1] has no checklist. *)
Definition sample_solutions : gmap string Answer :=
  {["CI-1" := mkAnswer ["frequent merges"; "automated builds"] []]}.

Definition always_yes : Judge := fun _ _ => inr met.

Definition sample_env : Env :=
  mkEnv plain_format always_yes sample_store sample_solutions "evaluations"
        (fun _ => true).

Definition sample_questions : list QuestionInfo :=
  [mkQuestionInfo "Question 1" "CI-1" "What is continuous integration?" 3;
   mkQuestionInfo "Question 2" "Git-1" "What is a commit?" 3;
   mkQuestionInfo "Question 3" "CI-1" "What is continuous integration?" 3].

(** Answers to the first two questions; the third is left out. *)
Definition sample_responses : gmap Z string :=
  {[1 := "Merging often and building on every push"; 2 := "A snapshot"]}.

Definition empty_world : World := mkWorld ∅ [] ∅ ∅.

(** ** Notions for the batch scheduler *)

(** [ceil(a / b)] for [b > 0]. *)
Definition ceil_div (a b : Z) : Z := - ((- a) / b).

(** The batch starting at position [k * batch_size] of the roster. *)
Definition chunk {A} (batch_size : nat) (l : list A) (k : nat) : list A :=
  take batch_size (drop (k * batch_size) l).

Definition student (e : string) : Student := mkStudent e ∅ 0 None None.

Definition six_students : list Student :=
  map student ["ada@unibo.it"; "bob@unibo.it"; "cleo@unibo.it";
               "dan@unibo.it"; "eve@unibo.it"; "fay@unibo.it"].

(** The batch sizes as the specification words them: every batch holds
    [ceil(R / W)] students, the last one possibly fewer. *)
Definition ceil_sized (R W : Z) (batches : list (list string)) : Prop :=
  forall k b,
    batches !! k = Some b ->
    Z.of_nat (length b) <= ceil_div R W
    /\ ((S k < length batches)%nat -> Z.of_nat (length b) = ceil_div R W).

(** ** Notions for the student matcher *)

(** The roster in iteration order: the students of the loaded exams, exam
    after exam. *)
Definition roster_of (loaded_exams : list ExamData) : list Student :=
  concat (map students loaded_exams).

(** The matching policy as the specification words it: an exact match,
    else a case-insensitive exact match, else, for a query of at least 10
    characters, the first case-insensitive prefix match. *)
Definition resolve_three_tier (query : string) (roster : list Student)
    : option Student :=
  match List.find (fun s => String.eqb (email s) query) roster with
  | Some s => Some s
  | None =>
      match List.find (fun s => String.eqb (PyStr.lower (email s))
                                           (PyStr.lower query)) roster with
      | Some s => Some s
      | None =>
          if 10 <=? PyStr.len query
          then List.find (fun s => PyStr.startswith (PyStr.lower (email s))
                                                    (PyStr.lower query)) roster
          else None
      end
  end.

(** Two rosters for the matcher: an identity that is a prefix of an
    earlier one, and two identities that differ by letter case only. *)
Definition roster_with_prefix : list Student :=
  [student "luca.verdi@studio.unibo.it.old";
   student "luca.verdi@studio.unibo.it"].

Definition roster_with_case : list Student :=
  [student "Luca.Verdi@studio.unibo.it";
   student "luca.verdi@studio.unibo.it"].

Definition exam_of (roster : list Student) : ExamData :=
  mkExamData "se-2025-06-05-questions_se-2025-06-05-responses"
             sample_questions roster.

(** ** Notions for the workers and the report *)

(** The outputs of the tool along a list of students, each call made in
    the world the call before it left. *)
Fixpoint tool_trace (tool : Tool) (emails : list string) (w : World)
    : list (string * (Exn + ToolOutput)) * World :=
  match emails with
  | [] => ([], w)
  | student_email :: rest =>
      let '(o, w') := tool student_email w in
      let '(trace, w'') := tool_trace tool rest w' in
      ((student_email, o) :: trace, w'')
  end.

(** The call returned an assessment without the key "error". *)
Definition succeeded (o : Exn + ToolOutput) : bool :=
  match o with
  | inr (ToolResult _) => true
  | _ => false
  end.

(** The students of a trace whose assessment succeeded. *)
Definition successful_students (trace : list (string * (Exn + ToolOutput)))
    : list string :=
  map fst (filter (fun p => succeeded p.2 = true) trace).

(** The students of a trace whose assessment failed. *)
Definition failed_students (trace : list (string * (Exn + ToolOutput)))
    : list string :=
  map fst (filter (fun p => succeeded p.2 = false) trace).

(** The text shown for a student in the report. *)
Definition email_preview (student_email : string) : string :=
  PyStr.take 40 student_email +:+ "...".

(** The students a report lists. *)
Definition reported_students (report : Report) : list string :=
  match report with
  | NoAssessments => []
  | FullReport r => map dl_email_preview (rp_details r)
  end.

(** A server on which nothing can be written for the second student. *)
Definition env_without_bob : Env :=
  mkEnv plain_format always_yes sample_store sample_solutions "evaluations"
        (fun path => negb (String.prefix "evaluations/bob@unibo.it" path)).

Definition three_students : list Student :=
  [mkStudent "cleo@unibo.it" sample_responses 2 None None;
   mkStudent "bob@unibo.it" sample_responses 2 None None;
   mkStudent "ada@unibo.it" sample_responses 2 None None].

(** ** Further notions *)

(** The features of a checklist in the order they are judged. *)
Definition checklist_features (answer : option Answer) : list Feature :=
  (enumerate_features answer).*2.

(** The entry recorded for a feature and its verdict. *)
Definition entry_for (feature : Feature) (result : FeatureAssessment)
    : FeatureAssessmentEntry :=
  mkEntry (description feature) (FeatureType_name (type feature))
          (satisfied result) (motivation result).

(** ** Further sample data *)

Definition ci_question : Question :=
  mkQuestion "CI" "What is continuous integration?" "essay" 1 15 "CI-1".

(** A checklist that names one core item twice. *)
Definition repeated_checklist : Answer :=
  mkAnswer ["frequent merges"; "frequent merges"; "automated builds"]
           ["build server"].

(** ** Notions for the state left by an assessment *)

(** From [w] to [w'] the checklist cache keeps its entries and gains only
    checklists read from the solutions, the judge's log is extended, and of
    the solutions files only files that cannot be loaded are deleted, each
    the file of a question of the catalog. *)
Definition world_grows (env : Env) (w w' : World) : Prop :=
  (forall id c, loaded_checklists w !! id = Some c ->
                loaded_checklists w' !! id = Some c)
  /\ (forall id c,
        loaded_checklists w' !! id = Some c ->
        loaded_checklists w !! id = Some c
        \/ exists q, question (questions_store env) id = inr q
                     /\ solutions env !! q_id q = Some c)
  /\ (exists sent, llm_calls w' = llm_calls w ++ sent)
  /\ broken_solutions w' ⊆ broken_solutions w
  /\ (forall id, id ∈ broken_solutions w -> id ∉ broken_solutions w' ->
                 solutions env !! id = None
                 /\ exists qid q,
                      question (questions_store env) qid = inr q
                      /\ q_id q = id).

(** ** Notions for the tool *)

(** The directory and the two files of a student's results. *)
Definition student_dir (env : Env) (student_email : string) : string :=
  evaluations_dir env +:+ "/" +:+ student_email.

Definition assessment_path (env : Env) (student_email : string) : string :=
  student_dir env student_email +:+ "/assessment.json".

Definition summary_path (env : Env) (student_email : string) : string :=
  student_dir env student_email +:+ "/summary.txt".

(** A string of [n] dots. *)
Fixpoint dots (n : nat) : string :=
  match n with
  | O => EmptyString
  | S n' => String "." (dots n')
  end.

(** The query as the tool cleans it. *)
Definition clean_query (student_email : string) : string :=
  PyStr.strip (PyStr.rstrip_dot student_email).

(** ** Notions for the workers and the report *)

(** [r] is what the worker numbered [wid] records for a student whose
    assessment the tool returned. *)
Definition records (tool : Tool) (wid : Z) (r : WorkerResult) : Prop :=
  wr_worker_id r = wid
  /\ exists w0 a w1,
       tool (wr_student r) w0 = (inr (ToolResult a), w1)
       /\ wr_score r = r_calculated_score a
       /\ wr_max_score r = r_max_score a
       /\ wr_percentage r = r_percentage a.

(** The order of the report: by student identity. *)
Definition by_student (a b : WorkerResult) : bool :=
  String.leb (wr_student a) (wr_student b).

(** The detail line of the report for the entry [a] numbered [i]. *)
Definition detail_line (i : nat) (a : WorkerResult) : DetailLine :=
  mkDetailLine (Z.of_nat i) (email_preview (wr_student a)) (wr_score a)
               (wr_max_score a) (wr_percentage a) (wr_worker_id a).

(** The scores recorded under the worker number [wid], in list order. *)
Definition scores_of (wid : Z) (assessments : list WorkerResult) : list Q :=
  map wr_score (filter (fun a => wr_worker_id a = wid) assessments).

(** [sum(xs) / len(xs)] *)
Definition mean (xs : list Q) : Q :=
  (PyNum.sum xs / inject_Z (Z.of_nat (length xs)))%Q.

(** No entry of [l] comes before an entry that is below it. *)
Fixpoint ordered_by {A} (leb : A -> A -> bool) (l : list A) : Prop :=
  match l with
  | [] => True
  | x :: l' => Forall (fun y => leb x y = true) l' /\ ordered_by leb l'
  end.

(** The entries of [l] for the student [s], in list order. *)
Definition entries_of (s : string) (l : list WorkerResult)
    : list WorkerResult :=
  filter (fun a => wr_student a = s) l.

(** The results of two workers, out of order. *)
Definition sample_results : list WorkerResult :=
  [mkWorkerResult 1 "cleo@unibo.it" 3 6 50;
   mkWorkerResult 1 "bob@unibo.it" 6 6 100;
   mkWorkerResult 2 "ada@unibo.it" 1.5 6 25].
(** ** [exam/mcp/__init__.py]: the shared context *)

Module AssessmentContext.

(** [AssessmentContext]: its three dictionaries; [A] is the type of the
    elements of an assessment list. *)
Record t (A : Type) := mk {
  loaded_answers : gmap string string;
  loaded_checklists : gmap string Answer;
  feature_assessments : gmap string (list A)
}.
Arguments mk {A}.
Arguments loaded_answers {A}.
Arguments loaded_checklists {A}.
Arguments feature_assessments {A}.

(** [get_session_id] *)
Definition get_session_id (question_id student_code : string) : string :=
  question_id +:+ "_" +:+ student_code.

(** [store_answer]: the key and the context it leaves. *)
Definition store_answer {A} (ctx : t A) (question_id student_code : string)
    (answer : string) : string * t A :=
  let key := question_id +:+ "_" +:+ student_code in
  (key, mk (<[key := answer]> (loaded_answers ctx))
           (loaded_checklists ctx) (feature_assessments ctx)).

(** [get_answer] *)
Definition get_answer {A} (ctx : t A) (question_id student_code : string)
    : option string :=
  let key := question_id +:+ "_" +:+ student_code in
  loaded_answers ctx !! key.

(** [store_checklist] *)
Definition store_checklist {A} (ctx : t A) (question_id : string)
    (checklist : Answer) : t A :=
  mk (loaded_answers ctx) (<[question_id := checklist]> (loaded_checklists ctx))
     (feature_assessments ctx).

(** [get_checklist] *)
Definition get_checklist {A} (ctx : t A) (question_id : string)
    : option Answer :=
  loaded_checklists ctx !! question_id.

(** [store_assessments] *)
Definition store_assessments {A} (ctx : t A)
    (question_id student_code : string) (assessments : list A) : t A :=
  let session_id := get_session_id question_id student_code in
  mk (loaded_answers ctx) (loaded_checklists ctx)
     (<[session_id := assessments]> (feature_assessments ctx)).

(** [get_assessments] *)
Definition get_assessments {A} (ctx : t A)
    (question_id student_code : string) : option (list A) :=
  let session_id := get_session_id question_id student_code in
  feature_assessments ctx !! session_id.

End AssessmentContext.

(** ** [exam/mcp/__init__.py]: the [load_checklist] tool *)

(** The JSON object the tool returns, by its keys; [ChecklistError e] is
    the object with the only key "error", [e] standing for its text: the
    message of the exception caught, or "No checklist found for question
    ..." when there is no checklist on disk. *)
Inductive ChecklistOutput :=
| AlreadyLoaded (question_id : string) (core_count important_count : Z)
| ChecklistLoaded (question_id question_text : string)
                  (features_core features_important : Z)
                  (core_items important_items : list string)
| ChecklistError (e : Exn).

(** The tool [load_checklist] made by [_create_tools]; the cache of the
    context is the one of the state. *)
Definition load_checklist (env : Env) (question_id : string) (w : World)
    : ChecklistOutput * World :=
  match loaded_checklists w !! question_id with
  | Some cached =>
      (AlreadyLoaded question_id (Z.of_nat (length (core cached)))
                     (Z.of_nat (length (details_important cached))), w)
  | None =>
      match question (questions_store env) question_id with
      | inl e => (ChecklistError e, w)
      | inr question =>
          match load_cache env question w with
          | (None, w') => (ChecklistError (NoChecklistFound question_id), w')
          | (Some checklist, w') =>
              (ChecklistLoaded question_id (q_text question)
                 (Z.of_nat (length (core checklist)))
                 (Z.of_nat (length (details_important checklist)))
                 (core checklist) (details_important checklist),
               mkWorld (<[question_id := checklist]> (loaded_checklists w'))
                       (llm_calls w') (files w') (broken_solutions w'))
          end
      end
  end.

(** ** [multiAgents_client.py]: the set-up of a run *)

(** [asyncio.gather] over the [load_checklist] calls: none of them awaits,
    so they run one after the other in list order. *)
Fixpoint load_checklists (env : Env) (question_ids : list string) (w : World)
    : list ChecklistOutput * World :=
  match question_ids with
  | [] => ([], w)
  | question_id :: rest =>
      let '(o, w') := load_checklist env question_id w in
      let '(others, w'') := load_checklists env rest w' in
      (o :: others, w'')
  end.

(** The update [setup_node] returns. *)
Inductive SetupUpdate :=
| SetupFailed                                 (* {"exam_loaded": False} *)
| SetupDone (exam_questions : list QuestionInfo)
            (exam_students : list Student)
            (loaded_checklists : gmap string bool).

(** [TrueParallelExamAssessment.setup_node], after the call of the tool
    [load_exam_from_yaml]: [loaded] is the exam that call left in the
    context, [None] when it answered with an error. *)
Definition setup_node (env : Env) (loaded : option ExamData) (w : World)
    : SetupUpdate * World :=
  match loaded with
  | None => (SetupFailed, w)
  | Some exam_data =>
      let '(_, w') :=
        load_checklists env (map qi_id (questions exam_data)) w in
      let loaded_checklists :=
        foldl (fun d q => <[qi_id q := true]> d) ∅ (questions exam_data) in
      (SetupDone (questions exam_data) (students exam_data)
                 loaded_checklists, w')
  end.

(** ** Notions for the checklist cache *)

(** What [load_answer_cache] gives for the question stored under [id]. *)
Definition checklist_on_disk (env : Env) (id : string) : option Answer :=
  match question (questions_store env) id with
  | inl _ => None
  | inr q => solutions env !! q_id q
  end.

(** Every checklist of the cache is the one on disk for its id. *)
Definition cache_coherent (env : Env) (w : World) : Prop :=
  forall id c, loaded_checklists w !! id = Some c ->
               checklist_on_disk env id = Some c.

(** Two states an assessment cannot tell apart: both caches are coherent
    and the judge has been sent the same prompts. *)
Definition same_view (env : Env) (w1 w2 : World) : Prop :=
  cache_coherent env w1 /\ cache_coherent env w2
  /\ llm_calls w1 = llm_calls w2.

(** The outcome of a run without the state it leaves: the error, or the
    report when one is made. *)
Definition report_of (out : Exn + option Report * World)
    : Exn + option Report :=
  match out with
  | inl e => inl e
  | inr (report, _) => inr report
  end.

(** * Properties

    ** Rounding *)

Section Rounding.
Local Open Scope Q_scope.

Lemma round_half_even_proper x y : x == y -> PyNum.round_half_even x = PyNum.round_half_even y.
Proof.
  intros H. unfold PyNum.round_half_even.
  rewrite (Qfloor_comp _ _ H).
  assert (E : x - inject_Z (Qfloor y) == y - inject_Z (Qfloor y)) by (rewrite H; reflexivity).
  rewrite (Qcompare_comp _ _ E _ _ (Qeq_refl _)). reflexivity.
Qed.

Lemma round_half_even_Z (n : Z) : PyNum.round_half_even (inject_Z n) = n.
Proof.
  unfold PyNum.round_half_even. rewrite Qfloor_Z.
  assert (E : (inject_Z n - inject_Z n ?= 1 # 2) = Lt).
  { rewrite <- Qlt_alt. generalize (inject_Z n); intros q; lra. }
  rewrite E. reflexivity.
Qed.

Lemma round_half_even_bounds x :
  (Qfloor x <= PyNum.round_half_even x <= Qfloor x + 1)%Z.
Proof.
  unfold PyNum.round_half_even.
  destruct (x - inject_Z (Qfloor x) ?= 1 # 2); [destruct (Z.even _)|..]; lia.
Qed.

Lemma round_half_even_mono x y :
  x <= y -> (PyNum.round_half_even x <= PyNum.round_half_even y)%Z.
Proof.
  intros Hxy.
  pose proof (Qfloor_resp_le _ _ Hxy) as Hf.
  destruct (Z.eq_dec (Qfloor x) (Qfloor y)) as [E|NE].
  - unfold PyNum.round_half_even. rewrite <- E.
    destruct (x - inject_Z (Qfloor x) ?= 1 # 2) eqn:Cx;
      destruct (y - inject_Z (Qfloor x) ?= 1 # 2) eqn:Cy;
      try (destruct (Z.even (Qfloor x))); try lia; exfalso.
    all: rewrite <- ?Qeq_alt, <- ?Qlt_alt, <- ?Qgt_alt in Cx;
      rewrite <- ?Qeq_alt, <- ?Qlt_alt, <- ?Qgt_alt in Cy; lra.
  - pose proof (round_half_even_bounds x). pose proof (round_half_even_bounds y). lia.
Qed.

Lemma pow10_pos (n : nat) : 0 < inject_Z (10 ^ Z.of_nat n).
Proof.
  change 0 with (inject_Z 0). rewrite <- Zlt_Qlt. apply Z.pow_pos_nonneg; lia.
Qed.

Lemma round_mono x y n : x <= y -> PyNum.round x n <= PyNum.round y n.
Proof.
  intros Hxy. unfold PyNum.round. pose proof (pow10_pos n) as Hp.
  apply Qmult_le_compat_r.
  - rewrite <- Zle_Qle. apply round_half_even_mono.
    apply Qmult_le_compat_r; [exact Hxy | lra].
  - apply Qlt_le_weak, Qinv_lt_0_compat, Hp.
Qed.

Lemma round_proper x y n : x == y -> PyNum.round x n == PyNum.round y n.
Proof.
  intros H. unfold PyNum.round.
  rewrite (round_half_even_proper (x * inject_Z (10 ^ Z.of_nat n))
                                  (y * inject_Z (10 ^ Z.of_nat n)));
    [reflexivity|].
  rewrite H; reflexivity.
Qed.

Lemma round_0 n : PyNum.round 0 n == 0.
Proof.
  unfold PyNum.round.
  rewrite (round_half_even_proper _ (inject_Z 0)) by ring.
  rewrite round_half_even_Z. unfold Qdiv. ring.
Qed.

Lemma round_nonneg x n : 0 <= x -> 0 <= PyNum.round x n.
Proof. intros H. rewrite <- (round_0 n). apply round_mono, H. Qed.

Lemma round_idempotent x n : PyNum.round (PyNum.round x n) n == PyNum.round x n.
Proof.
  unfold PyNum.round at 1. pose proof (pow10_pos n) as Hp.
  rewrite (round_half_even_proper _ (inject_Z (PyNum.round_half_even (x * inject_Z (10 ^ Z.of_nat n))))).
  - rewrite round_half_even_Z. reflexivity.
  - unfold PyNum.round. field. lra.
Qed.
End Rounding.

(** ** The scoring engine *)

Lemma length_filter_impl {A} (P Q : A -> Prop)
    `{!forall x, Decision (P x)} `{!forall x, Decision (Q x)} (l : list A) :
  (forall x, P x -> Q x) -> (length (filter P l) <= length (filter Q l))%nat.
Proof.
  intros HPQ. induction l as [|x l IH]; [done|].
  rewrite !filter_cons.
  destruct (decide (P x)) as [HP|HP], (decide (Q x)) as [HQ|HQ]; simpl; try lia.
  exfalso. by apply HQ, HPQ.
Qed.

Section Counting.
Implicit Types (m : gmap Feature FeatureAssessment) (t : FeatureType).

Lemma count_type_nonneg t m : 0 <= count_type t m.
Proof. unfold count_type. lia. Qed.

Lemma count_satisfied_bounds t m :
  0 <= count_satisfied t m <= count_type t m.
Proof.
  unfold count_satisfied, count_type. split; [lia|].
  apply inj_le, length_filter_impl. tauto.
Qed.

Lemma count_type_pos t m : 0 < count_type t m <-> has_type t m.
Proof.
  unfold count_type, has_type. split.
  - intros H.
    destruct (filter (fun fa => type fa.1 = t) (map_to_list m))
      as [|[f a] l] eqn:E; [simpl in H; lia|].
    assert (Hin : (f, a) ∈ filter (fun fa => type fa.1 = t) (map_to_list m))
      by (rewrite E; left).
    apply list_elem_of_filter in Hin as [Ht Hin].
    exists f, a. split; [by apply elem_of_map_to_list | exact Ht].
  - intros (f & a & Hm & Ht).
    assert (Hin : (f, a) ∈ filter (fun fa => type fa.1 = t) (map_to_list m)).
    { apply list_elem_of_filter. split; [exact Ht | by apply elem_of_map_to_list]. }
    destruct (filter _ _); [by apply elem_of_nil in Hin | simpl; lia].
Qed.

Lemma count_type_zero t m : count_type t m = 0 <-> ~ has_type t m.
Proof.
  rewrite <- count_type_pos. pose proof (count_type_nonneg t m). lia.
Qed.

Lemma nonempty_has_type m :
  m <> ∅ -> has_type CORE m \/ has_type DETAILS_IMPORTANT m.
Proof.
  intros Hne. destruct (map_choose m Hne) as (f & a & Hfa).
  destruct (type f) eqn:Ht; [left | right]; by exists f, a.
Qed.

Lemma has_type_nonempty t m : has_type t m -> m <> ∅.
Proof. intros (f & a & Hfa & _) ->. by rewrite lookup_empty in Hfa. Qed.

Lemma ratio_bounds t m : 0 < count_type t m -> (0 <= ratio t m <= 1)%Q.
Proof.
  intros Hpos. destruct (count_satisfied_bounds t m) as [H0 H1].
  unfold ratio.
  assert (Hq : (0 < inject_Z (count_type t m))%Q)
    by (change 0%Q with (inject_Z 0); by rewrite <- Zlt_Qlt).
  split.
  - apply Qle_shift_div_l; [exact Hq|].
    rewrite Qmult_0_l. change 0%Q with (inject_Z 0). by rewrite <- Zle_Qle.
  - apply Qle_shift_div_r; [exact Hq|].
    rewrite Qmult_1_l. by rewrite <- Zle_Qle.
Qed.
End Counting.

Section ScoringEngine.
Variable F : NumFormat.
Implicit Types (m : gmap Feature FeatureAssessment) (max_score : Q).

(** The three branches of the weight selection, by the two totals. *)
Lemma calculate_score_both m max_score :
  0 < count_type CORE m -> 0 < count_type DETAILS_IMPORTANT m ->
  exists breakdown c i,
    calculate_score F m max_score
    = (PyNum.round ((ratio CORE m * (70 # 100)
                     + ratio DETAILS_IMPORTANT m * (30 # 100)) * max_score) 2,
       breakdown,
       FullStats c i "70% Core + 30% Important")
    /\ gs_weight c = (70 # 100)%Q /\ gs_weight i = (30 # 100)%Q.
Proof.
  intros Hc Hi. unfold calculate_score.
  assert (Hne : m <> ∅) by (eapply has_type_nonempty, count_type_pos, Hc).
  rewrite bool_decide_eq_false_2 by exact Hne.
  apply Z.ltb_lt in Hc, Hi. rewrite Hc, Hi. simpl.
  eexists _, _, _. split; [reflexivity|]. split; reflexivity.
Qed.

Lemma calculate_score_core_only m max_score :
  0 < count_type CORE m -> count_type DETAILS_IMPORTANT m = 0 ->
  exists breakdown c i,
    calculate_score F m max_score
    = (PyNum.round ((ratio CORE m * 1 + 0) * max_score) 2, breakdown,
       FullStats c i "100% Core (no Important details)")
    /\ gs_weight c = 1%Q /\ gs_weight i = 0%Q.
Proof.
  intros Hc Hi. unfold calculate_score.
  assert (Hne : m <> ∅) by (eapply has_type_nonempty, count_type_pos, Hc).
  rewrite bool_decide_eq_false_2 by exact Hne.
  apply Z.ltb_lt in Hc. rewrite Hc, Hi. simpl.
  eexists _, _, _. split; [reflexivity|]. split; reflexivity.
Qed.

Lemma calculate_score_important_only m max_score :
  count_type CORE m = 0 -> 0 < count_type DETAILS_IMPORTANT m ->
  exists breakdown c i,
    calculate_score F m max_score
    = (PyNum.round ((0 + ratio DETAILS_IMPORTANT m * 1) * max_score) 2,
       breakdown,
       FullStats c i "100% Important (no Core - unusual)")
    /\ gs_weight c = 0%Q /\ gs_weight i = 1%Q.
Proof.
  intros Hc Hi. unfold calculate_score.
  assert (Hne : m <> ∅) by (eapply has_type_nonempty, count_type_pos, Hi).
  rewrite bool_decide_eq_false_2 by exact Hne.
  apply Z.ltb_lt in Hi. rewrite Hc, Hi. simpl.
  eexists _, _, _. split; [reflexivity|]. split; reflexivity.
Qed.

Lemma calculate_score_empty max_score :
  calculate_score F ∅ max_score = (0%Q, "No features assessed", EmptyStats).
Proof. reflexivity. Qed.

(** The totals of a non-empty dictionary fall in one of the three
    weighted branches. *)
Lemma totals_cases m :
  m <> ∅ ->
  (0 < count_type CORE m /\ 0 < count_type DETAILS_IMPORTANT m)
  \/ (0 < count_type CORE m /\ count_type DETAILS_IMPORTANT m = 0)
  \/ (count_type CORE m = 0 /\ 0 < count_type DETAILS_IMPORTANT m).
Proof.
  intros Hne.
  pose proof (count_type_nonneg CORE m).
  pose proof (count_type_nonneg DETAILS_IMPORTANT m).
  destruct (nonempty_has_type m Hne) as [H1|H1];
    apply count_type_pos in H1; lia.
Qed.

(** C1.  [calculate_score] selects the weights by what the dictionary
    holds: verdicts of both types give 0.70 for core and 0.30 for
    important, core verdicts alone give 1.00 and 0.00, important verdicts
    alone give 0.00 and 1.00, each used in the score and recorded in the
    statistics; the empty dictionary gives the score 0.0, the breakdown
    "No features assessed" and empty statistics. *)
Theorem calculate_score_weight_selection m max_score :
  (has_type CORE m -> has_type DETAILS_IMPORTANT m ->
     weights_used (calculate_score F m max_score)
     = Some (70 # 100, 30 # 100)%Q
     /\ (calculate_score F m max_score).1.1
        = PyNum.round ((ratio CORE m * (70 # 100)
                        + ratio DETAILS_IMPORTANT m * (30 # 100))
                       * max_score) 2)
  /\ (has_type CORE m -> ~ has_type DETAILS_IMPORTANT m ->
        weights_used (calculate_score F m max_score) = Some (1, 0)%Q
        /\ (calculate_score F m max_score).1.1
           = PyNum.round ((ratio CORE m * 1 + 0) * max_score) 2)
  /\ (~ has_type CORE m -> has_type DETAILS_IMPORTANT m ->
        weights_used (calculate_score F m max_score) = Some (0, 1)%Q
        /\ (calculate_score F m max_score).1.1
           = PyNum.round ((0 + ratio DETAILS_IMPORTANT m * 1) * max_score) 2)
  /\ (m = ∅ ->
        calculate_score F m max_score
        = (0%Q, "No features assessed", EmptyStats)).
Proof.
  repeat split.
  - apply count_type_pos in H, H0.
    destruct (calculate_score_both m max_score H H0)
      as (b & c & i & -> & Wc & Wi).
    unfold weights_used; simpl. by rewrite Wc, Wi.
  - apply count_type_pos in H, H0.
    by destruct (calculate_score_both m max_score H H0)
      as (b & c & i & -> & _).
  - apply count_type_pos in H. apply count_type_zero in H0.
    destruct (calculate_score_core_only m max_score H H0)
      as (b & c & i & -> & Wc & Wi).
    unfold weights_used; simpl. by rewrite Wc, Wi.
  - apply count_type_pos in H. apply count_type_zero in H0.
    by destruct (calculate_score_core_only m max_score H H0)
      as (b & c & i & -> & _).
  - apply count_type_zero in H. apply count_type_pos in H0.
    destruct (calculate_score_important_only m max_score H H0)
      as (b & c & i & -> & Wc & Wi).
    unfold weights_used; simpl. by rewrite Wc, Wi.
  - apply count_type_zero in H. apply count_type_pos in H0.
    by destruct (calculate_score_important_only m max_score H H0)
      as (b & c & i & -> & _).
  - intros ->. apply calculate_score_empty.
Qed.

End ScoringEngine.

Lemma calculate_score_weight_selection_witness :
  (weights_used (calculate_score plain_format verdicts_mixed 10)
   = Some (70 # 100, 30 # 100)%Q
   /\ (calculate_score plain_format verdicts_mixed 10).1.1
      = PyNum.round ((ratio CORE verdicts_mixed * (70 # 100)
                      + ratio DETAILS_IMPORTANT verdicts_mixed * (30 # 100))
                     * 10) 2)
  /\ (weights_used (calculate_score plain_format verdicts_core_only 5)
      = Some (1, 0)%Q
      /\ (calculate_score plain_format verdicts_core_only 5).1.1
         = PyNum.round ((ratio CORE verdicts_core_only * 1 + 0) * 5) 2)
  /\ (weights_used (calculate_score plain_format verdicts_important_only 3)
      = Some (0, 1)%Q
      /\ (calculate_score plain_format verdicts_important_only 3).1.1
         = PyNum.round ((0 + ratio DETAILS_IMPORTANT verdicts_important_only * 1)
                        * 3) 2)
  /\ calculate_score plain_format ∅ 10 = (0%Q, "No features assessed", EmptyStats).
Proof.
  split; [|split; [|split]].
  - apply (calculate_score_weight_selection plain_format verdicts_mixed 10).
    + exists (mkFeature CORE "c1"), met. split; reflexivity.
    + exists (mkFeature DETAILS_IMPORTANT "d1"), met. split; reflexivity.
  - apply (calculate_score_weight_selection plain_format verdicts_core_only 5).
    + exists (mkFeature CORE "c1"), met. split; reflexivity.
    + apply count_type_zero. reflexivity.
  - apply (calculate_score_weight_selection plain_format
             verdicts_important_only 3).
    + apply count_type_zero. reflexivity.
    + exists (mkFeature DETAILS_IMPORTANT "d1"), met. split; reflexivity.
  - apply (calculate_score_weight_selection plain_format ∅ 10). reflexivity.
Defined.

(** Scenarios A, B and D of the specification. *)
Example scenario_A :
  ((calculate_score plain_format verdicts_mixed 10).1.1 == 675 # 100)%Q.
Proof. reflexivity. Qed.

Example scenario_B :
  ((calculate_score plain_format verdicts_core_only 5).1.1 == 5)%Q.
Proof. reflexivity. Qed.

Section ScoreBounds.
Variable F : NumFormat.
Local Open Scope Q_scope.

Lemma weighted_score_bounds (p max_score : Q) :
  0 <= p <= 1 -> 0 <= max_score ->
  0 <= PyNum.round (p * max_score) 2 <= PyNum.round max_score 2.
Proof.
  intros [Hp0 Hp1] Hmax. split.
  - apply round_nonneg, Qmult_le_0_compat; assumption.
  - apply round_mono.
    apply Qle_trans with (1 * max_score); [|lra].
    apply Qmult_le_compat_r; assumption.
Qed.

(** The score of a non-empty dictionary is the rounding of a share
    between 0 and 1 of the maximum score. *)
Lemma calculate_score_share (m : gmap Feature FeatureAssessment) max_score :
  m <> ∅ ->
  exists p, 0 <= p <= 1
            /\ (calculate_score F m max_score).1.1
               = PyNum.round (p * max_score) 2.
Proof.
  intros Hne.
  destruct (totals_cases m Hne) as [[Hc Hi]|[[Hc Hi]|[Hc Hi]]].
  - destruct (calculate_score_both F m max_score Hc Hi) as (b & c & i & -> & _).
    pose proof (ratio_bounds CORE m Hc).
    pose proof (ratio_bounds DETAILS_IMPORTANT m Hi).
    eexists. split; [|reflexivity]. lra.
  - destruct (calculate_score_core_only F m max_score Hc Hi)
      as (b & c & i & -> & _).
    pose proof (ratio_bounds CORE m Hc).
    eexists. split; [|reflexivity]. lra.
  - destruct (calculate_score_important_only F m max_score Hc Hi)
      as (b & c & i & -> & _).
    pose proof (ratio_bounds DETAILS_IMPORTANT m Hi).
    eexists. split; [|reflexivity]. lra.
Qed.

(** C2, as the code has it.  For a non-empty dictionary and a
    non-negative maximum score, the score lies between 0 and the maximum
    score rounded to two decimals, and is its own rounding to two decimals;
    it is at most the maximum score whenever the maximum score has no more
    than two decimals. *)
Theorem score_within_rounded_max_score
    (m : gmap Feature FeatureAssessment) (max_score : Q) :
  m <> ∅ -> 0 <= max_score ->
  let score := (calculate_score F m max_score).1.1 in
  0 <= score <= PyNum.round max_score 2
  /\ PyNum.round score 2 == score
  /\ (PyNum.round max_score 2 == max_score -> score <= max_score).
Proof.
  intros Hne Hmax score.
  destruct (calculate_score_share m max_score Hne) as (p & Hp & E).
  subst score. rewrite E.
  pose proof (weighted_score_bounds p max_score Hp Hmax) as [H0 H1].
  split; [split; assumption|]. split.
  - apply round_idempotent.
  - intros Hr. eapply Qle_trans; [exact H1|].
    apply Qle_lteq. right. exact Hr.
Qed.

End ScoreBounds.

Lemma score_within_rounded_max_score_witness :
  let score := (calculate_score plain_format verdicts_mixed 10).1.1 in
  (0 <= score <= 10)%Q /\ (PyNum.round score 2 == score)%Q.
Proof.
  destruct (score_within_rounded_max_score plain_format verdicts_mixed 10)
    as ([H0 _] & Hround & Hmax).
  - eapply has_type_nonempty.
    exists (mkFeature CORE "c1"), met. split; reflexivity.
  - discriminate.
  - split; [split; [exact H0 | apply Hmax; reflexivity] | exact Hround].
Defined.

(** C2, as stated, fails: with both core features satisfied and the maximum
    score 2.999, the score is 3.0. *)
Lemma score_can_exceed_max_score :
  verdicts_core_only <> ∅
  /\ (0 <= 2999 # 1000)%Q
  /\ ((calculate_score plain_format verdicts_core_only (2999 # 1000)).1.1
      == 3)%Q
  /\ ~ ((calculate_score plain_format verdicts_core_only (2999 # 1000)).1.1
        <= 2999 # 1000)%Q.
Proof.
  split; [|split; [|split]].
  - eapply has_type_nonempty.
    exists (mkFeature CORE "c1"), met. split; reflexivity.
  - discriminate.
  - reflexivity.
  - intros H. apply H. reflexivity.
Qed.

Section PerFeatureWeight.
Variable F : NumFormat.
Implicit Types (m : gmap Feature FeatureAssessment) (max_score : Q).

(** The weights recorded by [calculate_score] come from its own table. *)
Lemma weights_used_cases m max_score :
  weights_used (calculate_score F m max_score) = None
  \/ weights_used (calculate_score F m max_score) = Some (70 # 100, 30 # 100)%Q
  \/ weights_used (calculate_score F m max_score) = Some (1, 0)%Q
  \/ weights_used (calculate_score F m max_score) = Some (0, 1)%Q.
Proof.
  destruct (decide (m = ∅)) as [->|Hne]; [by left|]. right.
  destruct (totals_cases m Hne) as [[Hc Hi]|[[Hc Hi]|[Hc Hi]]].
  - left.
    destruct (calculate_score_both F m max_score Hc Hi)
      as (b & c & i & -> & Wc & Wi).
    unfold weights_used; simpl. by rewrite Wc, Wi.
  - right; left.
    destruct (calculate_score_core_only F m max_score Hc Hi)
      as (b & c & i & -> & Wc & Wi).
    unfold weights_used; simpl. by rewrite Wc, Wi.
  - right; right.
    destruct (calculate_score_important_only F m max_score Hc Hi)
      as (b & c & i & -> & Wc & Wi).
    unfold weights_used; simpl. by rewrite Wc, Wi.
Qed.

(** The result is a function of the four counts and the maximum score. *)
Lemma calculate_score_by_counts m m' max_score :
  (forall t, count_type t m = count_type t m') ->
  (forall t, count_satisfied t m = count_satisfied t m') ->
  calculate_score F m max_score = calculate_score F m' max_score.
Proof.
  intros Ht Hs.
  assert (Hiff : m = ∅ <-> m' = ∅).
  { split; intros ->.
    - destruct (decide (m' = ∅)) as [|Hne]; [done|].
      destruct (nonempty_has_type m' Hne) as [H|H];
        apply count_type_pos in H; rewrite <- Ht in H; by vm_compute in H.
    - destruct (decide (m = ∅)) as [|Hne]; [done|].
      destruct (nonempty_has_type m Hne) as [H|H];
        apply count_type_pos in H; rewrite Ht in H; by vm_compute in H. }
  unfold calculate_score.
  rewrite (bool_decide_ext _ _ Hiff), !Ht, !Hs. reflexivity.
Qed.

(** C9.  [weight_percentage] is 0.70 for a core feature and 0.20 for an
    important one; the weight [calculate_score] gives the important group
    is 0.30 when both groups are present and never the 0.20 of
    [weight_percentage], and the result of [calculate_score] is fixed by
    the counts of features and the maximum score alone. *)
Theorem weight_percentage_not_consulted :
  (forall f, type f = CORE -> weight_percentage f = (70 # 100)%Q)
  /\ (forall f, type f = DETAILS_IMPORTANT ->
                weight_percentage f = (20 # 100)%Q)
  /\ (forall m max_score,
        has_type CORE m -> has_type DETAILS_IMPORTANT m ->
        weights_used (calculate_score F m max_score)
        = Some (70 # 100, 30 # 100)%Q)
  /\ (forall m max_score wc wi f,
        weights_used (calculate_score F m max_score) = Some (wc, wi) ->
        type f = DETAILS_IMPORTANT ->
        ~ (wi == weight_percentage f)%Q)
  /\ (forall m m' max_score,
        (forall t, count_type t m = count_type t m') ->
        (forall t, count_satisfied t m = count_satisfied t m') ->
        calculate_score F m max_score = calculate_score F m' max_score).
Proof.
  split; [|split; [|split; [|split]]].
  - intros f Hf. unfold weight_percentage. by rewrite Hf.
  - intros f Hf. unfold weight_percentage. by rewrite Hf.
  - intros m max_score Hc Hi. apply count_type_pos in Hc, Hi.
    destruct (calculate_score_both F m max_score Hc Hi)
      as (b & c & i & -> & Wc & Wi).
    unfold weights_used; simpl. by rewrite Wc, Wi.
  - intros m max_score wc wi f Hw Hf.
    unfold weight_percentage. rewrite Hf.
    destruct (weights_used_cases m max_score) as [E|[E|[E|E]]];
      rewrite E in Hw; inversion Hw; subst; discriminate.
  - apply calculate_score_by_counts.
Qed.

End PerFeatureWeight.

Lemma weight_percentage_not_consulted_witness :
  weight_percentage (mkFeature CORE "c1") = (70 # 100)%Q
  /\ weight_percentage (mkFeature DETAILS_IMPORTANT "d1") = (20 # 100)%Q
  /\ weights_used (calculate_score plain_format verdicts_mixed 10)
     = Some (70 # 100, 30 # 100)%Q
  /\ ~ (30 # 100 == weight_percentage (mkFeature DETAILS_IMPORTANT "d1"))%Q.
Proof.
  destruct (weight_percentage_not_consulted plain_format)
    as (Hc & Hi & Hboth & Hne & _).
  split; [|split; [|split]].
  - apply Hc. reflexivity.
  - apply Hi. reflexivity.
  - apply Hboth.
    + exists (mkFeature CORE "c1"), met. split; reflexivity.
    + exists (mkFeature DETAILS_IMPORTANT "d1"), met. split; reflexivity.
  - apply (Hne verdicts_mixed 10%Q (70 # 100)%Q); reflexivity.
Defined.

(** ** The orchestrator *)

Section SingleAnswer.
Variables (F : NumFormat) (judge : Judge).

Lemma judge_features_inl question txt feats lst dct log e log' :
  judge_features judge question txt feats lst dct log = (inl e, log') ->
  judging_raises judge question txt feats log e.
Proof.
  revert lst dct log. induction feats as [|[index feature] rest IH];
    intros lst dct log; simpl; [discriminate|].
  fold (prompt_for question txt feature).
  destruct (judge log (prompt_for question txt feature)) as [e0|result] eqn:J.
  - intros [= <- <-]. by apply raises_here.
  - intros H. eapply raises_later; [exact J|]. eapply IH, H.
Qed.

Lemma judging_raises_inl question txt feats lst dct log e :
  judging_raises judge question txt feats log e ->
  exists log', judge_features judge question txt feats lst dct log
               = (inl e, log').
Proof.
  intros H. revert lst dct.
  induction H as [index feature rest log e J
                 |index feature rest log result e J _ IH];
    intros lst dct; simpl; fold (prompt_for question txt feature);
    rewrite J; [by eexists | apply IH].
Qed.

(** The judge is invoked once per feature until a call raises. *)
Lemma judge_features_log question txt feats lst dct log :
  exists sent,
    (judge_features judge question txt feats lst dct log).2 = log ++ sent
    /\ (length sent <= length feats)%nat.
Proof.
  revert lst dct log. induction feats as [|[index feature] rest IH];
    intros lst dct log; simpl.
  - exists []. by rewrite app_nil_r.
  - destruct (judge log _) as [e0|result].
    + eexists [_]. split; [reflexivity | simpl; lia].
    + edestruct IH as (sent & -> & Hlen).
      eexists (_ :: sent). split; [by rewrite <- app_assoc | simpl; lia].
Qed.

Lemma unanswered_cases student_response :
  unanswered student_response = true <->
  student_response = None \/ student_response = Some ""
  \/ exists s, student_response = Some s /\ PyStr.strip s = "-".
Proof.
  unfold unanswered. destruct student_response as [s|]; [|by intuition].
  rewrite orb_true_iff, !String.eqb_eq. split.
  - intros [->| H]; [by right; left | right; right; by exists s].
  - intros [?|[[= ->]|(s' & [= ->] & H)]]; [done|by left|by right].
Qed.

(** A missing, empty or dash answer is classified without the judge. *)
Lemma assess_single_answer_unanswered question checklist student_response
    max_score log :
  unanswered student_response = true ->
  assess_single_answer F judge question checklist student_response
                       max_score log
  = (mkAssessment no_response 0%Q max_score None None None None
                  None None None None, log).
Proof. intros H. unfold assess_single_answer. by rewrite H. Qed.

(** What every result of [assess_single_answer] satisfies. *)
Lemma assess_single_answer_shape question checklist student_response
    max_score log :
  let a := (assess_single_answer F judge question checklist student_response
                                 max_score log).1 in
  a_max_score a = max_score
  /\ (a_status a = error -> a_score a = 0%Q /\ is_Some (a_error a))
  /\ (a_status a = no_response -> a_score a = 0%Q).
Proof.
  unfold assess_single_answer.
  destruct (unanswered student_response); [by simpl; intuition|].
  destruct (judge_features _ _ _ _ _ _ _) as [[e|[lst dct]] log'].
  - simpl. by intuition eauto.
  - destruct (calculate_score F dct max_score) as [[score breakdown] stats].
    simpl. by intuition.
Qed.

(** A raising judgment call turns the answer into an error result. *)
Lemma assess_single_answer_raises question checklist txt max_score log e :
  unanswered (Some txt) = false ->
  judging_raises judge question txt (enumerate_features checklist) log e ->
  let a := (assess_single_answer F judge question checklist (Some txt)
                                 max_score log).1 in
  a_status a = error /\ a_score a = 0%Q /\ a_error a = Some e
  /\ a_max_score a = max_score.
Proof.
  intros Hu Hr. unfold assess_single_answer. rewrite Hu. simpl default.
  destruct (judging_raises_inl question txt _ [] ∅ log e Hr) as [log' ->].
  by simpl.
Qed.

End SingleAnswer.

Section StudentExam.
Variable env : Env.
Implicit Types (w : World) (t : Totals) (qi : QuestionInfo).

(** The judge's log only grows while a checklist is resolved. *)
Lemma resolve_checklist_log id q w :
  llm_calls (resolve_checklist env id q w).2 = llm_calls w.
Proof.
  unfold resolve_checklist, load_cache.
  destruct (loaded_checklists w !! id); [done|].
  by destruct (solutions env !! q_id q).
Qed.

(** The checklist a round resolves is the one of the cache, else the one
    of the file. *)
Lemma resolve_checklist_found id q w :
  (resolve_checklist env id q w).1 = checklist_for env id q w.
Proof.
  unfold resolve_checklist, load_cache, checklist_for.
  destruct (loaded_checklists w !! id); [done|].
  by destruct (solutions env !! q_id q).
Qed.

(** The entry and the world the [try] of one round leaves. *)
Lemma try_assess_question_entry qi n txt w :
  question_number qi = Some n ->
  exists a w',
    try_assess_question env qi n txt w = (a, w')
    /\ match a with
       | inr a => entry_of qi a
       | inl e => True
       end.
Proof.
  intros Hn. unfold try_assess_question.
  destruct (question _ _) as [e|q]; [by eexists _, _|].
  destruct (resolve_checklist env (qi_id qi) q w) as [[checklist|] w1];
    [|by eexists _, _].
  pose proof (assess_single_answer_shape (num_format env) (judge env) q
                (Some checklist) (Some txt) (qi_score qi) (llm_calls w1))
    as (Hmax & Herr & Hno).
  destruct (assess_single_answer _ _ _ _ _ _ _) as [a log].
  eexists _, _. split; [reflexivity|].
  unfold entry_of; simpl in *. by rewrite Hn.
Qed.

(** A failing question gives an exception or an error result. *)
Lemma try_assess_question_fails qi n txt w :
  question_fails env qi txt w ->
  match (try_assess_question env qi n txt w).1 with
  | inl e => True
  | inr a => a_status a = error /\ a_score a = 0%Q /\ is_Some (a_error a)
  end.
Proof.
  unfold try_assess_question.
  intros [[e He]|[(q & Hq & Hc)|(q & c & e & Hq & Hc & Hu & Hr)]].
  - by rewrite He.
  - rewrite Hq. rewrite <- resolve_checklist_found in Hc.
    destruct (resolve_checklist env (qi_id qi) q w) as [[c|] w1];
      [discriminate | done].
  - rewrite Hq. rewrite <- resolve_checklist_found in Hc.
    pose proof (resolve_checklist_log (qi_id qi) q w) as Hlog.
    destruct (resolve_checklist env (qi_id qi) q w) as [o w1].
    simpl in Hc, Hlog. subst o. rewrite <- Hlog in Hr.
    pose proof (assess_single_answer_raises (num_format env) (judge env) q
                  (Some c) txt (qi_score qi) (llm_calls w1) e Hu Hr)
      as (Hs & Hz & He & _).
    destruct (assess_single_answer _ _ _ _ _ _ _) as [a log].
    simpl in *. by rewrite He.
Qed.

Section OneStudent.
Variable student_responses : gmap Z string.

(** One round appends exactly one entry, whatever happens inside. *)
Lemma assess_question_step qi n t w :
  question_number qi = Some n ->
  exists a s w',
    assess_question env student_responses qi t w
    = (inr (mkTotals (assessments t ++ [a]) s
                     (total_max_score t + qi_score qi)%Q), w')
    /\ (s == total_score t + a_score a)%Q
    /\ entry_of qi a
    /\ (forall txt, student_responses !! n = Some txt ->
                    question_fails env qi txt w ->
                    a_status a = error).
Proof.
  intros Hn. unfold assess_question. fold (question_number qi). rewrite Hn.
  destruct (student_responses !! n) as [txt|] eqn:Hr.
  - destruct (try_assess_question_entry qi n txt w Hn)
      as (r & w' & E & Hentry).
    pose proof (try_assess_question_fails qi n txt w) as Hfail.
    rewrite E in *. destruct r as [e|a]; simpl in *.
    + eexists _, _, _. split; [reflexivity|]. simpl.
      split; [ring|]. split; [|done].
      unfold entry_of; simpl. by rewrite Hn; intuition eauto.
    + eexists _, _, _. split; [reflexivity|].
      split; [reflexivity|]. split; [done|].
      intros txt' [= <-] Hf. by apply Hfail.
  - eexists _, _, _. split; [reflexivity|]. simpl.
    split; [ring|]. split; [|done].
    unfold entry_of; simpl. by rewrite Hn; intuition.
Qed.

(** The loop returns one entry per question, in the order of the
    questions. *)
Lemma assess_questions_cover qs t w :
  Forall (fun qi => is_Some (question_number qi)) qs ->
  exists entries s mx w',
    assess_questions env student_responses qs t w
    = (inr (mkTotals (assessments t ++ entries) s mx), w')
    /\ Forall2 entry_of qs entries.
Proof.
  intros Hqs. revert t w.
  induction Hqs as [|qi qs [n Hn] _ IH]; intros t w; simpl.
  - destruct t as [l s mx]. exists [], s, mx, w.
    by rewrite app_nil_r.
  - destruct (assess_question_step qi n t w Hn)
      as (a & s & w' & -> & _ & Ha & _).
    destruct (IH (mkTotals (assessments t ++ [a]) s
                           (total_max_score t + qi_score qi)%Q) w')
      as (entries & s' & mx' & w'' & -> & Hentries).
    exists (a :: entries), s', mx', w''. simpl.
    split; [by rewrite <- app_assoc | by constructor].
Qed.

(** The exam of a student whose question labels are numbers is assessed
    to the end. *)
Lemma assess_student_exam_returns student_email qs save_results og w :
  Forall (fun qi => is_Some (question_number qi)) qs ->
  (save_results = true -> can_save env student_email) ->
  exists r w',
    assess_student_exam env student_email qs student_responses
                        save_results og w = (inr r, w')
    /\ r_student_email r = student_email
    /\ r_scoring_system r = "70% Core + 30% Important_Details"
    /\ Forall2 entry_of qs (r_assessments r).
Proof.
  intros Hqs Hsave. unfold assess_student_exam.
  destruct (assess_questions_cover qs (mkTotals [] 0%Q 0%Q) w Hqs)
    as (entries & s & mx & w' & -> & Hentries).
  simpl in *. destruct save_results.
  - destruct (Hsave eq_refl) as (H0 & H1 & H2).
    unfold save_assessment_results. rewrite H0, H1, H2. simpl.
    by eexists _, _.
  - by eexists _, _.
Qed.

(** Whatever the questions, the loop ends with one entry per question or
    with the [ValueError] of a label that is not a number. *)
Lemma assess_questions_outcome qs t w :
  match (assess_questions env student_responses qs t w).1 with
  | inr t' =>
      exists entries,
        assessments t' = assessments t ++ entries
        /\ Forall2 entry_of qs entries
  | inl e =>
      exists qi, qi ∈ qs /\ question_number qi = None
                 /\ e = InvalidLiteral
                          (PyInt.remove_sub "Question " 0 (qi_number qi))
  end.
Proof.
  revert t w. induction qs as [|qi qs IH]; intros t w; simpl.
  - exists []. by rewrite app_nil_r.
  - destruct (question_number qi) as [n|] eqn:Hn.
    + destruct (assess_question_step qi n t w Hn)
        as (a & s & w' & -> & _ & Ha & _).
      specialize (IH (mkTotals (assessments t ++ [a]) s
                               (total_max_score t + qi_score qi)%Q) w').
      destruct (assess_questions _ _ _ _ _) as [[e|t'] w'']; simpl in *.
      * destruct IH as (qi' & Hin & Hnone & ->).
        exists qi'. split; [by right | done].
      * destruct IH as (entries & -> & Hentries).
        exists (a :: entries). split; [by rewrite <- app_assoc|].
        by constructor.
    + unfold assess_question. fold (question_number qi). rewrite Hn. simpl.
      exists qi. split; [by left | done].
Qed.

Lemma assess_student_exam_outcome student_email qs save_results og w :
  match (assess_student_exam env student_email qs student_responses
                             save_results og w).1 with
  | inr r => Forall2 entry_of qs (r_assessments r)
  | inl e =>
      (exists qi, qi ∈ qs /\ question_number qi = None
                  /\ e = InvalidLiteral
                           (PyInt.remove_sub "Question " 0 (qi_number qi)))
      \/ (save_results = true /\ ~ can_save env student_email
          /\ exists path,
               e = WriteError path /\ writable env path = false
               /\ (path = evaluations_dir env +:+ "/" +:+ student_email
                   \/ path = (evaluations_dir env +:+ "/" +:+ student_email)
                             +:+ "/assessment.json"
                   \/ path = (evaluations_dir env +:+ "/" +:+ student_email)
                             +:+ "/summary.txt"))
  end.
Proof.
  unfold assess_student_exam.
  pose proof (assess_questions_outcome qs (mkTotals [] 0%Q 0%Q) w) as H.
  destruct (assess_questions _ _ _ _ _) as [[e|t] w']; simpl in *.
  - by left.
  - destruct H as (entries & -> & Hentries).
    destruct save_results; [|done].
    unfold save_assessment_results, can_save.
    destruct (writable env (evaluations_dir env +:+ "/" +:+ student_email))
      eqn:H0; simpl.
    2:{ right. split; [done|]. split; [by intros (? & _)|].
        eexists. split; [reflexivity|]. split; [exact H0 | by left]. }
    destruct (writable env ((evaluations_dir env +:+ "/" +:+ student_email)
                            +:+ "/assessment.json")) eqn:H1; simpl.
    2:{ right. split; [done|]. split; [intros (_ & ? & _); congruence|].
        eexists. split; [reflexivity|].
        split; [exact H1 | by right; left]. }
    destruct (writable env ((evaluations_dir env +:+ "/" +:+ student_email)
                            +:+ "/summary.txt")) eqn:H2; simpl; [done|].
    right. split; [done|]. split; [intros (_ & _ & ?); congruence|].
    eexists. split; [reflexivity|]. split; [exact H2 | by right; right].
Qed.

End OneStudent.

End StudentExam.

(** An unanswered text that is present in the responses never reaches the
    judge, whatever the catalog and the checklists hold. *)
Lemma assess_question_unanswered_log env student_responses qi n txt t w :
  question_number qi = Some n ->
  student_responses !! n = Some txt ->
  unanswered (Some txt) = true ->
  llm_calls (assess_question env student_responses qi t w).2 = llm_calls w.
Proof.
  intros Hn Hr Hu. unfold assess_question. fold (question_number qi).
  rewrite Hn, Hr. unfold try_assess_question.
  destruct (question _ _) as [e|q]; [done|].
  pose proof (resolve_checklist_log env (qi_id qi) q w) as Hlog.
  destruct (resolve_checklist env (qi_id qi) q w) as [[checklist|] w1];
    [|done].
  by rewrite assess_single_answer_unanswered.
Qed.

(** C3.  A student answer that is missing, empty or strips to "-" makes
    [assess_single_answer] return the status no_response with the score 0.0
    and the question's maximum score, the judge's log being left as it was;
    a question missing from the student's responses gets such an entry in
    [assess_student_exam] without any call of the judge, and an answer
    present as an empty or dash text does not reach the judge either. *)
Theorem unanswered_question_is_not_judged :
  (forall F judge question checklist student_response max_score log,
     (student_response = None \/ student_response = Some ""
      \/ exists s, student_response = Some s /\ PyStr.strip s = "-") ->
     exists a,
       assess_single_answer F judge question checklist student_response
                            max_score log = (a, log)
       /\ a_status a = no_response /\ a_score a = 0%Q
       /\ a_max_score a = max_score)
  /\ (forall env student_responses qi n t w,
        question_number qi = Some n -> student_responses !! n = None ->
        exists a t',
          assess_question env student_responses qi t w = (inr t', w)
          /\ assessments t' = assessments t ++ [a]
          /\ a_status a = no_response /\ a_score a = 0%Q
          /\ a_max_score a = qi_score qi)
  /\ (forall env student_responses qi n txt t w,
        question_number qi = Some n -> student_responses !! n = Some txt ->
        (txt = "" \/ PyStr.strip txt = "-") ->
        llm_calls (assess_question env student_responses qi t w).2
        = llm_calls w).
Proof.
  split; [|split].
  - intros F judge question checklist student_response max_score log H.
    apply unanswered_cases in H.
    rewrite (assess_single_answer_unanswered F judge _ _ _ _ _ H).
    by eexists.
  - intros env student_responses qi n t w Hn Hr.
    unfold assess_question. fold (question_number qi). rewrite Hn, Hr.
    by eexists _, _.
  - intros env student_responses qi n txt t w Hn Hr Hu.
    eapply assess_question_unanswered_log; [exact Hn | exact Hr |].
    apply unanswered_cases. destruct Hu as [->|Hu]; [by right; left|].
    right; right. by exists txt.
Qed.

(** Scenario C of the specification: the raw answer "-". *)
Lemma unanswered_question_is_not_judged_witness :
  exists a,
    assess_single_answer plain_format always_yes
      (mkQuestion "CI" "What is continuous integration?" "essay" 1 15 "CI-1")
      (Some (mkAnswer ["frequent merges"] ["build server"]))
      (Some " - ") 3 []
    = (a, [])
    /\ a_status a = no_response /\ a_score a = 0%Q /\ a_max_score a = 3%Q.
Proof.
  apply unanswered_question_is_not_judged.
  right; right. exists " - ". split; reflexivity.
Defined.

(** C10.  The result of a completed student assessment carries the
    scoring-system label "70% Core + 30% Important_Details", whatever the
    questions, the answers and the weights applied to each question. *)
Theorem scoring_system_label_is_constant env student_email qs
    student_responses save_results og w r w' :
  assess_student_exam env student_email qs student_responses
                      save_results og w = (inr r, w') ->
  r_scoring_system r = "70% Core + 30% Important_Details".
Proof.
  unfold assess_student_exam.
  destruct (assess_questions _ _ _ _ _) as [[e|t] w1]; [discriminate|].
  destruct save_results.
  - destruct (save_assessment_results _ _ _ _) as [[e|sf] w2];
      [discriminate|]. by intros [= <- <-].
  - by intros [= <- <-].
Qed.

(** In the sample exam the first question is scored as 100% core while the
    label of the result stays the same. *)
Lemma scoring_system_label_is_constant_witness :
  exists r w',
    assess_student_exam sample_env "ada@unibo.it" sample_questions
                        sample_responses true None empty_world = (inr r, w')
    /\ r_scoring_system r = "70% Core + 30% Important_Details"
    /\ exists a c i,
         r_assessments r !! 0%nat = Some a
         /\ a_statistics a
            = Some (FullStats c i "100% Core (no Important details)").
Proof.
  eexists _, _. split; [vm_compute; reflexivity|]. split.
  - eapply (scoring_system_label_is_constant sample_env "ada@unibo.it"
              sample_questions sample_responses true None empty_world).
    vm_compute. reflexivity.
  - eexists _, _, _. split; reflexivity.
Defined.

(** ** The batch scheduler: partition *)

Section Chunks.
Context {A : Type}.
Implicit Types (l : list A) (bs cnt k : nat).

Lemma chunk_succ bs l k : chunk bs l (S k) = chunk bs (drop bs l) k.
Proof.
  unfold chunk. rewrite drop_drop. reflexivity.
Qed.

Lemma chunks_succ bs l cnt :
  map (chunk bs l) (seq 0 (S cnt))
  = take bs l :: map (chunk bs (drop bs l)) (seq 0 cnt).
Proof.
  simpl. f_equal. rewrite <- seq_shift, map_map.
  apply map_ext. intros k. apply chunk_succ.
Qed.

(** Enough chunks, put end to end, give the list back. *)
Lemma concat_chunks bs cnt l :
  (length l <= cnt * bs)%nat ->
  concat (map (chunk bs l) (seq 0 cnt)) = l.
Proof.
  revert l. induction cnt as [|cnt IH]; intros l Hlen.
  - simpl in *. destruct l; [done | simpl in Hlen; lia].
  - rewrite chunks_succ. simpl. rewrite IH, take_drop; [done|].
    rewrite length_drop. lia.
Qed.

Lemma length_chunk bs l k :
  length (chunk bs l k) = (bs `min` (length l - k * bs))%nat.
Proof. unfold chunk. by rewrite length_take, length_drop. Qed.

Lemma elem_of_chunk bs l k x :
  x ∈ chunk bs l k ->
  exists i, l !! i = Some x /\ (k * bs <= i < k * bs + bs)%nat.
Proof.
  unfold chunk. intros H. apply list_elem_of_lookup in H as [i Hi].
  apply lookup_take_Some in Hi as [Hi Hlt].
  rewrite lookup_drop in Hi. exists (k * bs + i)%nat. split; [done | lia].
Qed.

(** Chunks of a list without repetitions share no element. *)
Lemma chunks_disjoint bs l i j x :
  NoDup l -> i <> j -> x ∈ chunk bs l i -> x ∉ chunk bs l j.
Proof.
  intros Hnd Hij Hi Hj.
  apply elem_of_chunk in Hi as (a & Ha & Hra).
  apply elem_of_chunk in Hj as (b & Hb & Hrb).
  pose proof (NoDup_lookup l a b x Hnd Ha Hb). nia.
Qed.

(** [l[i:j]] for bounds inside the list or past its end. *)
Lemma slice_take_drop l (i j : Z) :
  0 <= i <= Z.of_nat (length l) -> i <= j ->
  PyList.slice l i j = take (Z.to_nat (j - i)) (drop (Z.to_nat i) l).
Proof.
  intros Hi Hj. unfold PyList.slice, PyList.clamp.
  destruct (Z.ltb_spec i 0); [lia|].
  destruct (Z.ltb_spec j 0); [lia|].
  rewrite (Z.min_l i) by lia.
  destruct (Z.le_ge_cases j (Z.of_nat (length l))).
  - by rewrite Z.min_l by lia.
  - rewrite Z.min_r by lia.
    rewrite !take_ge; [done|rewrite length_drop; lia..].
Qed.

End Chunks.

Section Partition.
Implicit Types (n W : Z).

(** The arithmetic of the batch size [n // W + 1] and of the number of
    batches [len(range(0, n, batch_size))]. *)
Lemma partition_arith n W :
  0 <= n -> 0 < W ->
  let batch_size := n / W + 1 in
  let cnt := PyList.range_len 0 n batch_size in
  0 < batch_size /\ 0 <= cnt <= W /\ n <= cnt * batch_size
  /\ (0 < cnt -> (cnt - 1) * batch_size < n)
  /\ (0 < n -> 0 < cnt).
Proof.
  intros Hn HW batch_size cnt.
  assert (Hq : 0 <= n / W) by (apply Z.div_pos; lia).
  assert (Hbs : 0 < batch_size) by (unfold batch_size; lia).
  pose proof (Z.div_mod n W ltac:(lia)) as E1.
  pose proof (Z.mod_pos_bound n W HW) as B1.
  unfold cnt, PyList.range_len.
  destruct (Z.ltb_spec 0 batch_size); [|lia].
  destruct (Z.ltb_spec 0 n) as [Hpos|Hzero].
  - replace (n - 0 - 1) with (n - 1) by lia.
    pose proof (Z.div_mod (n - 1) batch_size ltac:(lia)) as E2.
    pose proof (Z.mod_pos_bound (n - 1) batch_size Hbs) as B2.
    assert (0 <= (n - 1) / batch_size) by (apply Z.div_pos; lia).
    assert ((n - 1) / batch_size < W).
    { apply Z.div_lt_upper_bound; [lia|]. unfold batch_size. nia. }
    repeat split; try lia; nia.
  - repeat split; lia.
Qed.

(** For a positive worker count the batches are the chunks of the roster
    of size [n // W + 1], as many as the range has starts. *)
Lemma distribute_node_chunks (exam_students : list Student) W :
  0 < W ->
  let students := map email exam_students in
  let n := Z.of_nat (length students) in
  let batch_size := Z.to_nat (n / W + 1) in
  let cnt := Z.to_nat (PyList.range_len 0 n (n / W + 1)) in
  distribute_node exam_students W
  = inr (map (chunk batch_size students) (seq 0 cnt), Z.of_nat cnt).
Proof.
  intros HW students n batch_size cnt.
  destruct (partition_arith n W ltac:(lia) HW)
    as (Hbs & Hcnt & Hcover & Hlast & _).
  unfold distribute_node, PyList.floordiv, PyList.range.
  fold students. fold n.
  destruct (Z.eqb_spec W 0); [lia|].
  destruct (Z.eqb_spec (n / W + 1) 0); [lia|].
  fold cnt. rewrite map_map, length_map, length_seq. do 2 f_equal.
  apply map_ext_in. intros k Hk. apply in_seq in Hk.
  assert (Hk' : Z.of_nat k <= PyList.range_len 0 n (n / W + 1) - 1) by lia.
  rewrite slice_take_drop; [|fold n; nia|lia].
  unfold chunk, batch_size. do 2 f_equal; lia.
Qed.

End Partition.

Section PartitionProperties.
Variables (roster : list string) (W : Z).
Hypothesis positive_workers : 0 < W.

Lemma batches_lookup bs cnt k b :
  map (chunk bs roster) (seq 0 cnt) !! k = Some b ->
  (k < cnt)%nat /\ b = chunk bs roster k.
Proof.
  intros H. rewrite list_lookup_fmap in H.
  destruct (seq 0 cnt !! k) as [k'|] eqn:E; [|discriminate].
  apply lookup_seq in E as [-> Hk]. simpl in H. by inversion H.
Qed.

Lemma batch_length k :
  let R := Z.of_nat (length roster) in
  let bs := Z.to_nat (R / W + 1) in
  let cnt := Z.to_nat (PyList.range_len 0 R (R / W + 1)) in
  (k < cnt)%nat ->
  (1 <= length (chunk bs roster k) <= bs)%nat
  /\ ((S k < cnt)%nat -> length (chunk bs roster k) = bs).
Proof.
  intros R bs cnt Hk.
  destruct (partition_arith R W ltac:(lia) positive_workers)
    as (Hbs & Hcnt & Hcover & Hlast & _).
  rewrite length_chunk.
  assert (Ebs : Z.of_nat bs = R / W + 1) by (unfold bs; lia).
  assert (Ecnt : Z.of_nat cnt = PyList.range_len 0 R (R / W + 1))
    by (unfold cnt; lia).
  rewrite <- Ebs, <- Ecnt in *.
  assert (ER : Z.of_nat (length roster) = R) by reflexivity.
  clearbody R bs cnt.
  split; [|intros Hk']; nia.
Qed.

End PartitionProperties.

(** C6, as the code has it.  For every roster and every worker count of at
    least 1, the batches put end to end in batch order are the roster (no
    student lost, none duplicated, order preserved), no batch is empty,
    there are at most as many batches as workers, the batches take up
    disjoint stretches of the roster (batch k starts at position k times
    the batch size and is no longer than the batch size), and when the
    roster has no repeated identity two different batches share no
    student. *)
Theorem batches_partition_the_roster (exam_students : list Student)
    (num_workers : Z) :
  0 < num_workers ->
  exists batches,
    distribute_node exam_students num_workers
    = inr (batches, Z.of_nat (length batches))
    /\ concat batches = map email exam_students
    /\ Forall (fun b => b <> []) batches
    /\ Z.of_nat (length batches) <= num_workers
    /\ (exists batch_size,
          (0 < batch_size)%nat
          /\ forall k b,
               batches !! k = Some b ->
               b = take batch_size
                        (drop (k * batch_size) (map email exam_students)))
    /\ (NoDup (map email exam_students) ->
        forall i j bi bj x,
          i <> j -> batches !! i = Some bi -> batches !! j = Some bj ->
          x ∈ bi -> x ∉ bj).
Proof.
  intros HW. rewrite (distribute_node_chunks exam_students num_workers HW).
  set (roster := map email exam_students).
  set (R := Z.of_nat (length roster)).
  set (bs := Z.to_nat (R / num_workers + 1)).
  set (cnt := Z.to_nat (PyList.range_len 0 R (R / num_workers + 1))).
  destruct (partition_arith R num_workers ltac:(lia) HW)
    as (Hbs & Hcnt & Hcover & Hlast & _).
  eexists. split; [by rewrite length_map, length_seq|].
  split; [|split; [|split; [|split]]].
  - apply concat_chunks. unfold bs, cnt, R in *. nia.
  - apply Forall_forall. intros b Hb.
    apply list_elem_of_lookup in Hb as [k Hk].
    apply batches_lookup in Hk as [Hk ->].
    destruct (batch_length roster num_workers HW k Hk) as [Hlen _].
    intros E. fold R bs in Hlen. rewrite E in Hlen. simpl in Hlen. lia.
  - rewrite length_map, length_seq. lia.
  - exists bs. split; [unfold bs; lia|].
    intros k b Hk. by apply batches_lookup in Hk as [_ ->].
  - intros Hnd i j bi bj x Hij Hi Hj.
    apply batches_lookup in Hi as [_ ->].
    apply batches_lookup in Hj as [_ ->].
    by apply chunks_disjoint.
Qed.

Lemma batches_partition_the_roster_witness :
  exists batches,
    distribute_node six_students 4 = inr (batches, Z.of_nat (length batches))
    /\ concat batches = map email six_students
    /\ Z.of_nat (length batches) <= 4
    /\ (forall bi bj x,
          batches !! 0%nat = Some bi -> batches !! 1%nat = Some bj ->
          x ∈ bi -> x ∉ bj).
Proof.
  destruct (batches_partition_the_roster six_students 4 ltac:(lia))
    as (batches & E & Hconcat & _ & Hlen & _ & Hdisjoint).
  exists batches. split; [exact E|]. split; [exact Hconcat|].
  split; [exact Hlen|].
  intros bi bj x. apply Hdisjoint; [|done].
  apply (bool_decide_unpack _). vm_compute. reflexivity.
Defined.

(** C6, as stated for every roster, fails for a roster that names an
    identity twice: three entries and three workers give the batches
    [a; b] and [a], which share the identity a. *)
Lemma repeated_identity_is_in_two_batches :
  let roster := [student "a@unibo.it"; student "b@unibo.it";
                 student "a@unibo.it"] in
  exists bi bj,
    distribute_node roster 3 = inr ([bi; bj], 2)
    /\ bi = ["a@unibo.it"; "b@unibo.it"] /\ bj = ["a@unibo.it"]
    /\ "a@unibo.it" ∈ bi /\ "a@unibo.it" ∈ bj.
Proof.
  eexists _, _. split; [reflexivity|]. split; [reflexivity|].
  split; [reflexivity|]. split; [left | left].
Qed.

(** The number of starts of [range(0, n, batch_size)] is [ceil(n /
    batch_size)]. *)
Lemma range_len_ceil_div (n batch_size : Z) :
  0 <= n -> 0 < batch_size ->
  PyList.range_len 0 n batch_size = ceil_div n batch_size.
Proof.
  intros Hn Hbs. unfold PyList.range_len, ceil_div.
  destruct (Z.ltb_spec 0 batch_size); [|lia].
  destruct (Z.ltb_spec 0 n) as [Hpos|Hzero].
  - replace (n - 0 - 1) with (n - 1) by lia.
    pose proof (Z.div_mod (n - 1) batch_size ltac:(lia)) as E.
    pose proof (Z.mod_pos_bound (n - 1) batch_size Hbs) as B.
    rewrite <- (Z.div_unique (- n) batch_size (- ((n - 1) / batch_size + 1))
                  (batch_size - (n - 1) mod batch_size - 1)); [lia | lia | nia].
  - assert (n = 0) as -> by lia. reflexivity.
Qed.

(** C5, as the code has it.  For every roster of size R and every worker
    count W of at least 1, the batches are the consecutive slices of the
    roster of size R // W + 1: there are ceil(R / (R // W + 1)) of them, at
    most W, put end to end they are the roster, each one is full but the
    last, which holds between 1 and R // W + 1 students; that size is
    ceil(R / W) when W does not divide R and ceil(R / W) + 1 when it
    does. *)
Theorem batches_are_contiguous_slices (exam_students : list Student)
    (num_workers : Z) :
  0 < num_workers ->
  let roster := map email exam_students in
  let R := Z.of_nat (length roster) in
  let batch_size := R / num_workers + 1 in
  exists batches,
    distribute_node exam_students num_workers
    = inr (batches, Z.of_nat (length batches))
    /\ Z.of_nat (length batches) = ceil_div R batch_size
    /\ Z.of_nat (length batches) <= num_workers
    /\ concat batches = roster
    /\ (forall k b,
          batches !! k = Some b ->
          b = take (Z.to_nat batch_size)
                   (drop (k * Z.to_nat batch_size) roster)
          /\ 1 <= Z.of_nat (length b) <= batch_size
          /\ ((S k < length batches)%nat -> Z.of_nat (length b) = batch_size))
    /\ (R mod num_workers <> 0 -> batch_size = ceil_div R num_workers)
    /\ (R mod num_workers = 0 -> batch_size = ceil_div R num_workers + 1).
Proof.
  intros HW roster R batch_size.
  rewrite (distribute_node_chunks exam_students num_workers HW).
  fold roster. fold R. fold batch_size.
  destruct (partition_arith R num_workers ltac:(unfold R; lia) HW)
    as (Hbs & Hcnt & Hcover & _).
  fold batch_size in Hbs, Hcnt, Hcover.
  eexists. split; [by rewrite length_map, length_seq|].
  rewrite length_map, length_seq.
  split; [|split; [|split; [|split; [|split]]]].
  - rewrite <- range_len_ceil_div by (unfold R; lia). lia.
  - lia.
  - apply concat_chunks. unfold R in *. nia.
  - intros k b Hk.
    apply batches_lookup in Hk as [Hk ->].
    destruct (batch_length roster num_workers HW k Hk) as [Hlen Hfull].
    fold R batch_size in Hlen, Hfull.
    assert (0 <= R / num_workers) by (apply Z.div_pos; lia).
    split; [reflexivity|]. split; [unfold batch_size in *; lia|].
    intros Hk'. rewrite (Hfull Hk'). unfold batch_size. lia.
  - intros Hmod. unfold batch_size, ceil_div.
    rewrite Z_div_nz_opp_full by (lia || exact Hmod). lia.
  - intros Hmod. unfold batch_size, ceil_div.
    rewrite Z_div_zero_opp_full by (lia || exact Hmod). lia.
Qed.

Lemma batches_are_contiguous_slices_witness :
  exists batches,
    distribute_node six_students 4 = inr (batches, Z.of_nat (length batches))
    /\ Z.of_nat (length batches) = ceil_div 6 2
    /\ Z.of_nat (length batches) <= 4
    /\ concat batches = map email six_students
    /\ (forall k b,
          batches !! k = Some b ->
          b = take 2 (drop (k * 2) (map email six_students))
          /\ 1 <= Z.of_nat (length b) <= 2
          /\ ((S k < length batches)%nat -> Z.of_nat (length b) = 2))
    /\ (6 mod 4 <> 0 -> 2 = ceil_div 6 4)
    /\ (6 mod 4 = 0 -> 2 = ceil_div 6 4 + 1).
Proof. apply (batches_are_contiguous_slices six_students 4). lia. Defined.

(** C5, as stated, fails when the worker count divides the roster size:
    six students and three workers give two batches of three students, not
    batches of ceil(6 / 3) = 2. *)
Lemma batch_size_is_not_the_ceiling :
  exists batches,
    distribute_node six_students 3 = inr (batches, 2)
    /\ map length batches = [3; 3]%nat
    /\ ceil_div 6 3 = 2
    /\ ~ ceil_sized 6 3 batches.
Proof.
  eexists. split; [reflexivity|]. split; [reflexivity|].
  split; [reflexivity|].
  intros H. destruct (H 0%nat _ eq_refl) as [Hle _].
  vm_compute in Hle. by apply Hle.
Qed.

(** For a positive worker count the partition is made and covers the
    roster. *)
Lemma distribute_node_concat (exam_students : list Student) (num_workers : Z) :
  0 < num_workers ->
  exists batches,
    distribute_node exam_students num_workers
    = inr (batches, Z.of_nat (length batches))
    /\ concat batches = map email exam_students.
Proof.
  intros HW. rewrite (distribute_node_chunks exam_students num_workers HW).
  set (roster := map email exam_students).
  set (R := Z.of_nat (length roster)).
  set (bs := Z.to_nat (R / num_workers + 1)).
  set (cnt := Z.to_nat (PyList.range_len 0 R (R / num_workers + 1))).
  destruct (partition_arith R num_workers ltac:(lia) HW)
    as (Hbs & Hcnt & Hcover & _).
  eexists. split; [by rewrite length_map, length_seq|].
  apply concat_chunks. unfold bs, cnt, R in *. nia.
Qed.

(** ** The student matcher *)

Lemma find_app {A} (f : A -> bool) (l1 l2 : list A) :
  List.find f (l1 ++ l2)
  = match List.find f l1 with
    | Some x => Some x
    | None => List.find f l2
    end.
Proof.
  induction l1 as [|x l1 IH]; [done|]. simpl. by destruct (f x).
Qed.

Lemma find_ext {A} (f g : A -> bool) (l : list A) :
  (forall x, f x = g x) -> List.find f l = List.find g l.
Proof.
  intros H. induction l as [|x l IH]; [done|]. simpl. by rewrite H, IH.
Qed.

Lemma find_is_Some {A} (f : A -> bool) (l : list A) :
  is_Some (List.find f l) <-> exists x, x ∈ l /\ f x = true.
Proof.
  split.
  - intros [x Hx]. apply find_some in Hx as [Hin Hf].
    exists x. by rewrite list_elem_of_In.
  - intros (x & Hin & Hf). destruct (List.find f l) eqn:E; [by eexists|].
    apply list_elem_of_In in Hin.
    pose proof (find_none f l E x Hin). congruence.
Qed.

Lemma lower_length s : String.length (PyStr.lower s) = String.length s.
Proof. induction s as [|c s IH]; simpl; congruence. Qed.

Section Matcher.
Variable query : string.

(** The condition of the loop, spelled out. *)
Lemma student_matches_spec s :
  student_matches query s = true <->
  PyStr.lower (email s) = PyStr.lower query
  \/ (10 <= PyStr.len query
      /\ PyStr.startswith (PyStr.lower (email s)) (PyStr.lower query) = true).
Proof.
  unfold student_matches.
  rewrite orb_true_iff, andb_true_iff, String.eqb_eq, Z.leb_le. tauto.
Qed.

(** The two loops find the first match of the roster. *)
Lemma find_student_find loaded_exams :
  (fun x => x.1.1) <$> find_student query loaded_exams
  = List.find (student_matches query) (roster_of loaded_exams).
Proof.
  induction loaded_exams as [|exam_data rest IH]; [done|].
  unfold roster_of. simpl. rewrite find_app.
  destruct (List.find _ (students exam_data)) as [s|]; [done | exact IH].
Qed.

Lemma find_student_email loaded_exams s qs e :
  find_student query loaded_exams = Some (s, qs, e) ->
  e = email s
  /\ exists exam_data,
       exam_data ∈ loaded_exams /\ s ∈ students exam_data
       /\ qs = questions exam_data.
Proof.
  induction loaded_exams as [|exam_data rest IH]; [done|]. simpl.
  destruct (List.find _ (students exam_data)) as [s'|] eqn:E.
  - intros [= <- <- <-]. split; [done|].
    exists exam_data. apply find_some in E as [Hin _].
    split; [left | split; [by apply list_elem_of_In | done]].
  - intros H. destruct (IH H) as (-> & exam' & Hin & Hs & ->).
    split; [done|]. exists exam'. split; [by right | done].
Qed.

End Matcher.

(** The match does not depend on the letter case of the query. *)
Lemma student_matches_case q q' s :
  PyStr.lower q' = PyStr.lower q ->
  student_matches q' s = student_matches q s.
Proof.
  intros H. unfold student_matches, PyStr.len. rewrite H.
  by rewrite <- (lower_length q'), H, lower_length.
Qed.

Lemma find_student_case q q' loaded_exams :
  PyStr.lower q' = PyStr.lower q ->
  find_student q' loaded_exams = find_student q loaded_exams.
Proof.
  intros H. induction loaded_exams as [|exam_data rest IH]; [done|].
  simpl. rewrite IH.
  by rewrite (find_ext _ _ _ (fun s => student_matches_case q q' s H)).
Qed.

(** The code and the three-tier policy resolve the same queries. *)
Lemma three_tier_resolves_iff query roster :
  is_Some (resolve_three_tier query roster)
  <-> is_Some (List.find (student_matches query) roster).
Proof.
  rewrite find_is_Some. unfold resolve_three_tier.
  destruct (List.find (fun s => String.eqb (email s) query) roster)
    as [s1|] eqn:E1.
  { apply find_some in E1 as [Hin Heq]. apply String.eqb_eq in Heq.
    split; [intros _|by eexists]. exists s1.
    split; [by apply list_elem_of_In|].
    apply student_matches_spec. left. by rewrite Heq. }
  destruct (List.find (fun s => String.eqb (PyStr.lower (email s))
                                           (PyStr.lower query)) roster)
    as [s2|] eqn:E2.
  { apply find_some in E2 as [Hin Heq]. apply String.eqb_eq in Heq.
    split; [intros _|by eexists]. exists s2.
    split; [by apply list_elem_of_In|].
    apply student_matches_spec. by left. }
  assert (Hno : forall s, s ∈ roster ->
                          PyStr.lower (email s) <> PyStr.lower query).
  { intros s Hin. apply list_elem_of_In in Hin.
    pose proof (find_none _ _ E2 s Hin) as Hn. by apply String.eqb_neq in Hn. }
  destruct (Z.leb_spec 10 (PyStr.len query)) as [Hlen|Hlen].
  - rewrite find_is_Some. split.
    + intros (s & Hin & Hp). exists s. split; [done|].
      apply student_matches_spec. by right.
    + intros (s & Hin & Hm). exists s. split; [done|].
      apply student_matches_spec in Hm as [Heq|[_ Hp]]; [|done].
      by destruct (Hno s Hin).
  - split; [by intros [? ?]|].
    intros (s & Hin & Hm).
    apply student_matches_spec in Hm as [Heq|[Hlen' _]]; [|lia].
    by destruct (Hno s Hin).
Qed.

(** C4, as the code has it.  The student resolved for a query is the first
    entry of the roster, in iteration order, whose identity equals the query
    without regard to letter case or, when the query has at least 10
    characters, starts with it without regard to letter case; the matched
    identity is that entry's own, the result does not depend on the letter
    case of the query, and a query is resolved exactly when the three-tier
    policy resolves it. *)
Theorem student_resolution_is_first_match (query : string)
    (loaded_exams : list ExamData) :
  (fun x => x.1.1) <$> find_student query loaded_exams
  = List.find (student_matches query) (roster_of loaded_exams)
  /\ (forall s,
        student_matches query s = true <->
        PyStr.lower (email s) = PyStr.lower query
        \/ (10 <= PyStr.len query
            /\ PyStr.startswith (PyStr.lower (email s)) (PyStr.lower query)
               = true))
  /\ (forall s qs e,
        find_student query loaded_exams = Some (s, qs, e) -> e = email s)
  /\ (forall query',
        PyStr.lower query' = PyStr.lower query ->
        find_student query' loaded_exams = find_student query loaded_exams)
  /\ (is_Some (find_student query loaded_exams)
      <-> is_Some (resolve_three_tier query (roster_of loaded_exams))).
Proof.
  split; [apply find_student_find|].
  split; [apply student_matches_spec|].
  split; [intros s qs e H; by apply (find_student_email _ _ _ _ _ H)|].
  split; [intros query'; apply find_student_case|].
  rewrite three_tier_resolves_iff, <- find_student_find.
  by rewrite fmap_is_Some.
Qed.

Lemma student_resolution_is_first_match_witness :
  find_student "LUCA.VERDI@studio.unibo.it" [exam_of roster_with_case]
  = find_student "luca.verdi@studio.unibo.it" [exam_of roster_with_case].
Proof.
  apply (student_resolution_is_first_match "luca.verdi@studio.unibo.it"
           [exam_of roster_with_case]).
  reflexivity.
Defined.

(** C4, as stated, fails.  An exact match does not win over the prefix
    match of an earlier entry, and an identity that differs from the query
    by letter case wins over a later exact match. *)
Lemma exact_match_does_not_win :
  (find_student "luca.verdi@studio.unibo.it" [exam_of roster_with_prefix]
   = Some (student "luca.verdi@studio.unibo.it.old", sample_questions,
           "luca.verdi@studio.unibo.it.old")
   /\ resolve_three_tier "luca.verdi@studio.unibo.it" roster_with_prefix
      = Some (student "luca.verdi@studio.unibo.it"))
  /\ (find_student "luca.verdi@studio.unibo.it" [exam_of roster_with_case]
      = Some (student "Luca.Verdi@studio.unibo.it", sample_questions,
              "Luca.Verdi@studio.unibo.it")
      /\ resolve_three_tier "luca.verdi@studio.unibo.it" roster_with_case
         = Some (student "luca.verdi@studio.unibo.it")).
Proof. repeat split; reflexivity. Qed.

(** ** The batch scheduler: workers and report *)

Section Sorting.
Context {A : Type} (leb : A -> A -> bool).

Lemma insert_Permutation x l : PyList.insert leb x l ≡ₚ x :: l.
Proof.
  induction l as [|y l IH]; [done|]. simpl.
  destruct (leb x y); [done|]. rewrite IH. apply Permutation_swap.
Qed.

Lemma sorted_Permutation l : PyList.sorted leb l ≡ₚ l.
Proof.
  induction l as [|x l IH]; [done|].
  unfold PyList.sorted in *. simpl. by rewrite insert_Permutation, IH.
Qed.

Lemma sorted_nil_inv l : PyList.sorted leb l = [] -> l = [].
Proof.
  intros H. apply Permutation_nil_r. rewrite <- H.
  symmetry. apply sorted_Permutation.
Qed.

End Sorting.

Section Workers.
Variable tool : Tool.

Lemma tool_trace_app l1 l2 w :
  tool_trace tool (l1 ++ l2) w
  = let '(t1, w1) := tool_trace tool l1 w in
    let '(t2, w2) := tool_trace tool l2 w1 in
    (t1 ++ t2, w2).
Proof.
  revert w. induction l1 as [|e l1 IH]; intros w; simpl.
  - by destruct (tool_trace tool l2 w).
  - destruct (tool e w) as [o w']. rewrite IH.
    destruct (tool_trace tool l1 w') as [t1 w1].
    by destruct (tool_trace tool l2 w1).
Qed.

(** The worker keeps a student exactly when the call succeeded. *)
Lemma worker_loop_students worker_id batch results w :
  let '(trace, w') := tool_trace tool batch w in
  exists added,
    worker_loop tool worker_id batch results w = (results ++ added, w')
    /\ map wr_student added = successful_students trace.
Proof.
  revert results w. induction batch as [|e batch IH]; intros results w; simpl.
  - exists []. by rewrite app_nil_r.
  - destruct (tool e w) as [o w'].
    assert (Hcases :
      (exists r, o = inr (ToolResult r)) \/ succeeded o = false).
    { destruct o as [|[]]; eauto. }
    destruct Hcases as [[r ->]|Hfail].
    + specialize (IH (results ++ [mkWorkerResult worker_id e
                                    (r_calculated_score r) (r_max_score r)
                                    (r_percentage r)]) w').
      destruct (tool_trace tool batch w') as [trace w''].
      destruct IH as (added & -> & Hadded).
      eexists (_ :: added). split; [by rewrite <- app_assoc|].
      unfold successful_students in *. rewrite filter_cons_True by done.
      simpl. by rewrite Hadded.
    + specialize (IH results w').
      destruct (tool_trace tool batch w') as [trace w''].
      destruct IH as (added & E & Hadded).
      exists added. split.
      * destruct o as [|[]]; try done.
      * unfold successful_students in *.
        rewrite filter_cons_False; [done|]. simpl. by rewrite Hfail.
Qed.

Lemma create_worker_sends_batches student_batches :
  map batch (create_worker_sends student_batches) = student_batches.
Proof.
  unfold create_worker_sends. rewrite map_map. simpl.
  change (map (fun x : nat * list string => x.2)
              (zip (seq 0 (length student_batches)) student_batches)
          = student_batches).
  apply snd_zip. by rewrite length_seq.
Qed.

(** The workers together keep the students of all batches whose call
    succeeded, in the order of the batches. *)
Lemma run_workers_students sends w :
  let '(trace, w') := tool_trace tool (concat (map batch sends)) w in
  exists assessments,
    run_workers tool sends w = (assessments, w')
    /\ map wr_student assessments = successful_students trace.
Proof.
  revert w. induction sends as [|state sends IH]; intros w; simpl.
  - by exists [].
  - rewrite tool_trace_app. unfold worker_node.
    pose proof (worker_loop_students (worker_id state + 1) (batch state) [] w)
      as Hw.
    destruct (tool_trace tool (batch state) w) as [t1 w1].
    destruct Hw as (added & -> & Hadded). simpl.
    specialize (IH w1).
    destruct (tool_trace tool (concat (map batch sends)) w1) as [t2 w2].
    destruct IH as (assessments & -> & Hrest).
    eexists. split; [reflexivity|].
    unfold successful_students in *.
    by rewrite map_app, filter_app, fmap_app, Hadded, Hrest.
Qed.

End Workers.

(** The report lists the entries it is given, whatever their order. *)
Lemma report_node_students assessments num_workers :
  reported_students (report_node assessments num_workers)
  ≡ₚ map email_preview (map wr_student assessments).
Proof.
  destruct assessments as [|a assessments]; [done|].
  unfold report_node.
  set (l := a :: assessments).
  set (sorted := PyList.sorted _ l).
  simpl. rewrite map_map. simpl.
  change (map (fun ia : nat * WorkerResult => email_preview (wr_student ia.2))
              (zip (seq 1 (length sorted)) sorted)
          ≡ₚ map email_preview (map wr_student l)).
  rewrite <- (map_map snd (fun a => email_preview (wr_student a))).
  change (map snd (zip (seq 1 (length sorted)) sorted))
    with ((zip (seq 1 (length sorted)) sorted).*2).
  rewrite snd_zip by (by rewrite length_seq).
  rewrite <- map_map. unfold sorted.
  by rewrite sorted_Permutation.
Qed.

Lemma report_node_nil num_workers :
  report_node [] num_workers = NoAssessments.
Proof. reflexivity. Qed.

(** Without students there is no batch, for a worker count other than 0. *)
Lemma distribute_node_nil (num_workers : Z) :
  num_workers <> 0 -> distribute_node [] num_workers = inr ([], 0).
Proof.
  intros HW. unfold distribute_node, PyList.floordiv, PyList.range. simpl.
  destruct (Z.eqb_spec num_workers 0); [done|].
  rewrite Z.div_0_l by done. reflexivity.
Qed.

Lemma create_worker_sends_nil student_batches :
  create_worker_sends student_batches = [] <-> student_batches = [].
Proof.
  split; [|by intros ->].
  intros H. rewrite <- (create_worker_sends_batches student_batches).
  by rewrite H.
Qed.

(** C8, as the code has it.  In a batch run with at least one worker over
    a roster that is not empty, the report lists the students whose
    assessment returned without error, and only them: a student whose
    assessment fails is left out, and when every assessment fails the
    report is the text "Nessuna valutazione completata".  Over an empty
    roster no worker is sent and no report is made at all. *)
Theorem report_lists_the_successful_students (tool : Tool)
    (exam_students : list Student) (num_workers : Z) (w : World) :
  0 < num_workers ->
  (exam_students = [] ->
   run_batches tool exam_students num_workers w = inr (None, w))
  /\ (exam_students <> [] ->
      exists report w',
        run_batches tool exam_students num_workers w
        = inr (Some report, w')
        /\ reported_students report
           ≡ₚ map email_preview
                (successful_students
                   (tool_trace tool (map email exam_students) w).1)
        /\ (successful_students
              (tool_trace tool (map email exam_students) w).1 = [] ->
            report = NoAssessments)).
Proof.
  intros HW. split.
  - intros ->. unfold run_batches.
    by rewrite distribute_node_nil by lia.
  - intros Hne. unfold run_batches.
    destruct (distribute_node_concat exam_students num_workers HW)
      as (batches & -> & Hconcat).
    pose proof (run_workers_students tool (create_worker_sends batches) w)
      as H.
    rewrite create_worker_sends_batches, Hconcat in H.
    destruct (create_worker_sends batches) as [|state sends] eqn:Hsends.
    { apply create_worker_sends_nil in Hsends. subst batches.
      simpl in Hconcat. symmetry in Hconcat.
      by apply map_eq_nil in Hconcat. }
    destruct (tool_trace tool (map email exam_students) w) as [trace w'].
    destruct H as (assessments & -> & Hstudents). simpl.
    eexists _, _. split; [reflexivity|]. split.
    + by rewrite report_node_students, Hstudents.
    + intros Hnone. rewrite Hnone in Hstudents.
      apply map_eq_nil in Hstudents. by rewrite Hstudents.
Qed.

Lemma report_lists_the_successful_students_witness :
  exists report w',
    run_batches (mcp_tool env_without_bob [exam_of three_students])
                three_students 2 empty_world = inr (Some report, w')
    /\ reported_students report
       ≡ₚ map email_preview
            (successful_students
               (tool_trace (mcp_tool env_without_bob [exam_of three_students])
                           (map email three_students) empty_world).1)
    /\ (successful_students
          (tool_trace (mcp_tool env_without_bob [exam_of three_students])
                      (map email three_students) empty_world).1 = [] ->
        report = NoAssessments).
Proof.
  apply (report_lists_the_successful_students
           (mcp_tool env_without_bob [exam_of three_students])
           three_students 2 empty_world); [lia | discriminate].
Defined.

(** C8, as stated, fails: the assessment of the second student returns an
    error, and the report of the run lists the other two students only,
    with no line and no mark for the second. *)
Lemma failed_student_is_left_out_of_the_report :
  (ExamMCPServer.assess_student_exam env_without_bob [exam_of three_students]
                            "bob@unibo.it" empty_world).1
  = ToolException (WriteError "evaluations/bob@unibo.it")
  /\ exists r w',
       run_batches (mcp_tool env_without_bob [exam_of three_students])
                   three_students 2 empty_world
       = inr (Some (FullReport r), w')
       /\ map dl_email_preview (rp_details r)
          = ["ada@unibo.it..."; "cleo@unibo.it..."]
       /\ rp_total_students r = 2.
Proof.
  split; [vm_compute; reflexivity|].
  eexists _, _. split; [vm_compute; reflexivity|]. split; reflexivity.
Qed.

(** ** The question catalog *)

Section LowerFacts.

(** Lower-casing neither makes nor removes a space or a dash. *)
Lemma eqb_lower_char_space d :
  Ascii.eqb " " (PyStr.lower_char d) = Ascii.eqb " " d.
Proof.
  destruct d as [[] [] [] [] [] [] [] []]; vm_compute; reflexivity.
Qed.

Lemma eqb_lower_char_dash d :
  Ascii.eqb "-" (PyStr.lower_char d) = Ascii.eqb "-" d.
Proof.
  destruct d as [[] [] [] [] [] [] [] []]; vm_compute; reflexivity.
Qed.

Lemma lower_remove_char c s :
  (forall d, Ascii.eqb c (PyStr.lower_char d) = Ascii.eqb c d) ->
  PyStr.lower (PyStr.remove_char c s) = PyStr.remove_char c (PyStr.lower s).
Proof.
  intros Hc. induction s as [|d s IH]; [done|]. simpl.
  rewrite Hc. destruct (Ascii.eqb c d); simpl; by rewrite IH.
Qed.

Lemma normalize_id_lower id :
  normalize_id id
  = PyStr.remove_char "-" (PyStr.remove_char " " (PyStr.lower id)).
Proof.
  unfold normalize_id.
  rewrite (lower_remove_char "-") by apply eqb_lower_char_dash.
  by rewrite (lower_remove_char " ") by apply eqb_lower_char_space.
Qed.

Lemma lower_eq_normalize_id a b :
  PyStr.lower a = PyStr.lower b -> normalize_id a = normalize_id b.
Proof. intros H. by rewrite !normalize_id_lower, H. Qed.

End LowerFacts.

Section Catalog.
Variable store : QuestionsStore.

Lemma find_key_elem (f : string * Question -> bool) kv :
  List.find f store = Some kv -> (kv.1, kv.2) ∈ store /\ f kv = true.
Proof.
  intros H. apply find_some in H as [Hin Hf].
  split; [|done]. destruct kv. by apply list_elem_of_In.
Qed.

(** X1.  [QuestionsStore.question] finds a question exactly when some
    stored id equals the asked id up to letter case, spaces and dashes; the
    question it returns is stored under such an id, and the [KeyError]
    carries the asked id, the first ten stored ids and, when more than ten
    ids are stored, the number of the others. *)
Theorem question_found_up_to_normalization (id : string) :
  (forall q, question store id = inr q ->
             exists qid, (qid, q) ∈ store
                         /\ normalize_id qid = normalize_id id)
  /\ (forall e, question store id = inl e ->
                e = QuestionNotFound id (take 10 (map fst store))
                      (if 10 <? Z.of_nat (length store)
                       then Some (Z.of_nat (length store) - 10) else None)
                /\ forall qid q, (qid, q) ∈ store ->
                                 normalize_id qid <> normalize_id id)
  /\ ((exists qid q, (qid, q) ∈ store /\ normalize_id qid = normalize_id id)
      -> exists q, question store id = inr q).
Proof.
  unfold question.
  destruct (List.find (fun kv => String.eqb kv.1 id) store)
    as [kv1|] eqn:E1.
  { apply find_key_elem in E1 as [Hin Heq]. apply String.eqb_eq in Heq.
    split; [|split]; [|intros e; discriminate|intros _; by eexists].
    intros q [= <-]. exists kv1.1. split; [done | by rewrite Heq]. }
  destruct (List.find (fun kv => String.eqb (PyStr.lower kv.1)
                                            (PyStr.lower id)) store)
    as [kv2|] eqn:E2.
  { apply find_key_elem in E2 as [Hin Heq]. apply String.eqb_eq in Heq.
    split; [|split]; [|intros e; discriminate|intros _; by eexists].
    intros q [= <-]. exists kv2.1. split; [done|].
    by apply lower_eq_normalize_id. }
  destruct (List.find (fun kv => String.eqb (normalize_id kv.1)
                                            (normalize_id id)) store)
    as [kv3|] eqn:E3.
  { apply find_key_elem in E3 as [Hin Heq]. apply String.eqb_eq in Heq.
    split; [|split]; [|intros e; discriminate|intros _; by eexists].
    intros q [= <-]. by exists kv3.1. }
  assert (Hnone : forall qid q, (qid, q) ∈ store ->
                                normalize_id qid <> normalize_id id).
  { intros qid q Hin. apply list_elem_of_In in Hin.
    pose proof (find_none _ _ E3 _ Hin) as Hn. simpl in Hn.
    by apply String.eqb_neq in Hn. }
  split; [done|]. split.
  - intros e [= <-]. by rewrite length_map.
  - intros (qid & q & Hin & Heq). by destruct (Hnone qid q Hin).
Qed.

(** X2.  In a store whose ids are distinct, as the keys of a dictionary
    are, an id that is stored resolves to its own question, whatever other
    ids equal it up to case, spaces or dashes. *)
Theorem question_exact_id_wins (id : string) (q : Question) :
  NoDup (map fst store) -> (id, q) ∈ store -> question store id = inr q.
Proof.
  intros Hnd Hin. unfold question.
  destruct (List.find (fun kv => String.eqb kv.1 id) store)
    as [[qid q']|] eqn:E1.
  - apply find_key_elem in E1 as [Hin' Heq]. apply String.eqb_eq in Heq.
    simpl in *. subst qid. f_equal.
    apply list_elem_of_lookup in Hin as [i Hi].
    apply list_elem_of_lookup in Hin' as [j Hj].
    assert (i = j).
    { eapply (NoDup_lookup (map fst store) i j id Hnd);
        rewrite list_lookup_fmap; [by rewrite Hi | by rewrite Hj]. }
    subst j. congruence.
  - apply list_elem_of_In in Hin.
    pose proof (find_none _ _ E1 _ Hin) as Hn. simpl in Hn.
    by rewrite String.eqb_refl in Hn.
Qed.

End Catalog.

Lemma question_exact_id_wins_witness :
  question sample_store "CI-1" = inr ci_question.
Proof.
  apply question_exact_id_wins.
  - apply (bool_decide_unpack _). vm_compute. reflexivity.
  - left.
Defined.

(** ** The loop over the features *)

Lemma map_const_replicate {A B} (b : B) (l : list A) :
  map (fun _ => b) l = replicate (length l) b.
Proof. induction l; simpl; congruence. Qed.

Section Judging.
Variables (F : NumFormat) (judge : Judge) (question : Question).

Lemma checklist_features_Some a :
  checklist_features (Some a)
  = map (mkFeature CORE) (core a)
    ++ map (mkFeature DETAILS_IMPORTANT) (details_important a).
Proof.
  unfold checklist_features, enumerate_features.
  apply snd_zip. by rewrite length_seq.
Qed.

(** The prompts sent are the prompts of the first [k] features, in order;
    a verdict is kept for each of them when the loop ends without a
    raise. *)
Lemma judge_features_prefix txt feats lst dct log :
  exists k,
    (k <= length feats)%nat
    /\ (judge_features judge question txt feats lst dct log).2
       = log ++ take k (map (prompt_for question txt) feats.*2)
    /\ match (judge_features judge question txt feats lst dct log).1 with
       | inr (lst', dct') =>
           k = length feats
           /\ map fa_feature lst'
              = map fa_feature lst ++ map description feats.*2
           /\ map fa_feature_type lst'
              = map fa_feature_type lst
                ++ map (fun f => FeatureType_name (type f)) feats.*2
           /\ (forall f, is_Some (dct' !! f)
                         <-> is_Some (dct !! f) \/ f ∈ feats.*2)
       | inl e => (0 < k)%nat
       end.
Proof.
  revert lst dct log. induction feats as [|[index feature] rest IH];
    intros lst dct log; simpl.
  - exists 0%nat. rewrite !app_nil_r. repeat split; try done.
    + by left.
    + intros [?|H]; [done | by apply elem_of_nil in H].
  - fold (prompt_for question txt feature).
    destruct (judge log (prompt_for question txt feature)) as [e|result].
    + exists 1%nat. simpl. split; [lia|]. split; [by rewrite take_0 | lia].
    + destruct (IH (lst ++ [mkEntry (description feature)
                                    (FeatureType_name (type feature))
                                    (satisfied result) (motivation result)])
                   (<[feature:=result]> dct)
                   (log ++ [prompt_for question txt feature]))
        as (k & Hk & -> & Hres).
      exists (S k). split; [lia|]. split; [by rewrite <- app_assoc|].
      destruct (judge_features _ _ _ _ _ _ _).1 as [e|[lst' dct']]; [lia|].
      destruct Hres as (-> & Hf & Ht & Hd).
      split; [done|]. rewrite Hf, Ht, !map_app, <- !app_assoc. simpl.
      split; [done|]. split; [done|].
      intros f. rewrite Hd, lookup_insert_is_Some, elem_of_cons.
      destruct (decide (feature = f)) as [->|Hne]; [by intuition|].
      intuition congruence.
Qed.

(** X3.  Whatever the judge answers, [assess_single_answer] sends it the
    prompts of an initial stretch of the checklist, one per feature and in
    checklist order (core items first): all of them when the result is
    assessed, at least one when it is an error, none when there is no
    response. *)
Theorem judge_is_asked_once_per_feature_in_order checklist student_response
    max_score log :
  exists k,
    (k <= length (checklist_features checklist))%nat
    /\ (assess_single_answer F judge question checklist student_response
                             max_score log).2
       = log ++ take k (map (prompt_for question (default "" student_response))
                            (checklist_features checklist))
    /\ match a_status (assess_single_answer F judge question checklist
                         student_response max_score log).1 with
       | assessed => k = length (checklist_features checklist)
       | error => (0 < k)%nat
       | no_response => k = 0%nat
       end.
Proof.
  unfold assess_single_answer, checklist_features.
  destruct (unanswered student_response).
  { exists 0%nat. simpl. rewrite take_0, app_nil_r.
    split; [lia | done]. }
  destruct (judge_features_prefix (default "" student_response)
              (enumerate_features checklist) [] ∅ log)
    as (k & Hk & Hlog & Hres).
  rewrite length_fmap. exists k. split; [done|].
  destruct (judge_features _ _ _ _ _ _ _) as [[e|[lst dct]] log'];
    simpl in *.
  - done.
  - destruct (calculate_score F dct max_score) as [[score breakdown] stats].
    simpl. split; [done | by destruct Hres].
Qed.

(** X4.  When no judgment raises, an answered question is assessed: the
    judge receives one prompt per checklist item, and the list of feature
    assessments names the core items and then the important items, in the
    order of the checklist. *)
Theorem answered_question_is_assessed a txt max_score log :
  (forall l p, exists r, judge l p = inr r) ->
  unanswered (Some txt) = false ->
  let r := assess_single_answer F judge question (Some a) (Some txt)
                                max_score log in
  a_status r.1 = assessed
  /\ a_max_score r.1 = max_score
  /\ r.2 = log ++ map (prompt_for question txt) (checklist_features (Some a))
  /\ (map fa_feature <$> a_feature_assessments r.1)
     = Some (core a ++ details_important a)
  /\ (map fa_feature_type <$> a_feature_assessments r.1)
     = Some (replicate (length (core a)) "CORE"
             ++ replicate (length (details_important a)) "DETAILS_IMPORTANT").
Proof.
  intros Hjudge Hu. unfold assess_single_answer. rewrite Hu. simpl default.
  assert (Hfeats : (enumerate_features (Some a)).*2
                   = checklist_features (Some a)) by reflexivity.
  destruct (judge_features_prefix txt (enumerate_features (Some a)) [] ∅ log)
    as (k & Hk & Hlog & Hres).
  rewrite Hfeats in Hlog, Hres.
  assert (Hlen : length (enumerate_features (Some a))
                 = length (checklist_features (Some a)))
    by (by rewrite <- Hfeats, length_fmap).
  generalize dependent (enumerate_features (Some a)).
  intros feats Hfeats Hk Hlog Hres Hlen.
  destruct (judge_features _ _ _ _ _ _ _) as [[e|[lst dct]] log'] eqn:E;
    simpl in Hlog, Hres.
  - apply judge_features_inl in E. exfalso.
    clear -E Hjudge.
    induction E as [index feature rest l e J
                   |index feature rest l result e J _ IH]; [|exact IH].
    destruct (Hjudge l (prompt_for question txt feature)) as [r Hr].
    congruence.
  - destruct Hres as (-> & Hf & Ht & _).
    destruct (calculate_score F dct max_score) as [[score breakdown] stats].
    simpl. rewrite Hlog, Hf, Ht.
    rewrite take_ge by (rewrite length_map; lia).
    rewrite checklist_features_Some, !map_app, !map_map. simpl.
    rewrite !map_id, !map_const_replicate. done.
Qed.

End Judging.

Lemma answered_question_is_assessed_witness :
  let r := assess_single_answer plain_format always_yes ci_question
             (Some repeated_checklist) (Some "Merging often") 3 [] in
  a_status r.1 = assessed
  /\ a_max_score r.1 = 3%Q
  /\ r.2 = [] ++ map (prompt_for ci_question "Merging often")
                     (checklist_features (Some repeated_checklist))
  /\ (map fa_feature <$> a_feature_assessments r.1)
     = Some (core repeated_checklist ++ details_important repeated_checklist)
  /\ (map fa_feature_type <$> a_feature_assessments r.1)
     = Some (replicate (length (core repeated_checklist)) "CORE"
             ++ replicate (length (details_important repeated_checklist))
                          "DETAILS_IMPORTANT").
Proof.
  apply (answered_question_is_assessed plain_format always_yes ci_question
           repeated_checklist "Merging often" 3 []).
  - intros l p. by eexists.
  - reflexivity.
Defined.

(** ** More on the scoring engine *)

Lemma filter_ext_in {A} (P Q : A -> Prop)
    `{!forall x, Decision (P x)} `{!forall x, Decision (Q x)} (l : list A) :
  (forall x, x ∈ l -> (P x <-> Q x)) -> filter P l = filter Q l.
Proof.
  induction l as [|x l IH]; intros Hl; [done|].
  rewrite !filter_cons.
  assert (Hx : P x <-> Q x) by (apply Hl; left).
  rewrite IH by (intros y Hy; apply Hl; by right).
  destruct (decide (P x)), (decide (Q x)); tauto.
Qed.

Lemma filter_none {A} (P : A -> Prop) `{!forall x, Decision (P x)}
    (l : list A) :
  (forall x, x ∈ l -> ~ P x) -> filter P l = [].
Proof.
  induction l as [|x l IH]; intros Hl; [done|].
  rewrite filter_cons, IH by (intros y Hy; apply Hl; by right).
  destruct (decide (P x)) as [HP|]; [|done].
  exfalso. apply (Hl x); [left | done].
Qed.

Lemma length_filter_split {A} (P Q : A -> Prop)
    `{!forall x, Decision (P x)} `{!forall x, Decision (Q x)} (l : list A) :
  (forall x, x ∈ l -> (P x /\ ~ Q x) \/ (Q x /\ ~ P x)) ->
  (length (filter P l) + length (filter Q l))%nat = length l.
Proof.
  induction l as [|x l IH]; intros Hl; [done|].
  rewrite !filter_cons.
  assert (IH' := IH (fun y Hy => Hl y (list_elem_of_further _ _ _ Hy))).
  destruct (Hl x ltac:(left)) as [[HP HQ]|[HQ HP]];
    destruct (decide (P x)), (decide (Q x)); simpl; try tauto; lia.
Qed.

Section ScoringMore.
Variable F : NumFormat.
Implicit Types (m : gmap Feature FeatureAssessment) (max_score : Q).

Lemma count_satisfied_all t m :
  (forall f a, m !! f = Some a -> satisfied a = true) ->
  count_satisfied t m = count_type t m.
Proof.
  intros Hall. unfold count_satisfied, count_type. do 2 f_equal.
  apply filter_ext_in. intros [f a] Hin. simpl.
  apply elem_of_map_to_list in Hin. specialize (Hall f a Hin). tauto.
Qed.

Lemma count_satisfied_none t m :
  (forall f a, m !! f = Some a -> satisfied a = false) ->
  count_satisfied t m = 0.
Proof.
  intros Hnone. unfold count_satisfied. rewrite filter_none; [done|].
  intros [f a] Hin [_ Hs]. simpl in *.
  apply elem_of_map_to_list in Hin. specialize (Hnone f a Hin). congruence.
Qed.

Lemma count_type_total m :
  count_type CORE m + count_type DETAILS_IMPORTANT m = Z.of_nat (size m).
Proof.
  unfold count_type. rewrite <- Nat2Z.inj_add, length_filter_split.
  - by rewrite length_map_to_list.
  - intros [[[] d] a] _; simpl; [left | right]; split; congruence.
Qed.

Lemma ratio_all t m :
  0 < count_type t m ->
  (forall f a, m !! f = Some a -> satisfied a = true) ->
  (ratio t m == 1)%Q.
Proof.
  intros Hpos Hall. unfold ratio. rewrite (count_satisfied_all t m Hall).
  apply Qmult_inv_r. intros H.
  assert (inject_Z 0 < inject_Z (count_type t m))%Q by (by rewrite <- Zlt_Qlt).
  rewrite H in H0. by apply Qlt_irrefl in H0.
Qed.

Lemma ratio_none t m :
  (forall f a, m !! f = Some a -> satisfied a = false) ->
  (ratio t m == 0)%Q.
Proof.
  intros Hnone. unfold ratio. rewrite (count_satisfied_none t m Hnone).
  unfold Qdiv. by rewrite Qmult_0_l.
Qed.

(** X5.  A non-empty dictionary whose verdicts are all satisfied scores the
    maximum score rounded to two decimals, and one whose verdicts are all
    unsatisfied scores 0, whichever of the three weightings applies. *)
Theorem all_or_nothing_score m max_score :
  m <> ∅ ->
  ((forall f a, m !! f = Some a -> satisfied a = true) ->
   ((calculate_score F m max_score).1.1 == PyNum.round max_score 2)%Q)
  /\ ((forall f a, m !! f = Some a -> satisfied a = false) ->
      ((calculate_score F m max_score).1.1 == 0)%Q).
Proof.
  intros Hne. split; intros H.
  - destruct (totals_cases m Hne) as [[Hc Hi]|[[Hc Hi]|[Hc Hi]]].
    + destruct (calculate_score_both F m max_score Hc Hi)
        as (b & c & i & -> & _). simpl.
      apply round_proper.
      rewrite (ratio_all CORE m Hc H), (ratio_all DETAILS_IMPORTANT m Hi H).
      ring.
    + destruct (calculate_score_core_only F m max_score Hc Hi)
        as (b & c & i & -> & _). simpl.
      apply round_proper. rewrite (ratio_all CORE m Hc H). ring.
    + destruct (calculate_score_important_only F m max_score Hc Hi)
        as (b & c & i & -> & _). simpl.
      apply round_proper. rewrite (ratio_all DETAILS_IMPORTANT m Hi H). ring.
  - assert (Hz : forall p, (p == 0)%Q ->
                           (PyNum.round (p * max_score) 2 == 0)%Q).
    { intros p Hp. rewrite <- (round_0 2). apply round_proper.
      rewrite Hp. ring. }
    destruct (totals_cases m Hne) as [[Hc Hi]|[[Hc Hi]|[Hc Hi]]].
    + destruct (calculate_score_both F m max_score Hc Hi)
        as (b & c & i & -> & _). simpl. apply Hz.
      rewrite (ratio_none CORE m H), (ratio_none DETAILS_IMPORTANT m H). ring.
    + destruct (calculate_score_core_only F m max_score Hc Hi)
        as (b & c & i & -> & _). simpl. apply Hz.
      rewrite (ratio_none CORE m H). ring.
    + destruct (calculate_score_important_only F m max_score Hc Hi)
        as (b & c & i & -> & _). simpl. apply Hz.
      rewrite (ratio_none DETAILS_IMPORTANT m H). ring.
Qed.

Lemma percentage_bounds t m :
  (0 <= PyNum.round (if 0 <? count_type t m
                     then inject_Z (count_satisfied t m)
                          / inject_Z (count_type t m) * 100
                     else 0) 1 <= 100)%Q.
Proof.
  assert (H100 : (PyNum.round 100 1 == 100)%Q) by reflexivity.
  destruct (Z.ltb_spec 0 (count_type t m)) as [Hpos|_].
  - pose proof (ratio_bounds t m Hpos) as [H0 H1]. unfold ratio in *.
    split; [apply round_nonneg; lra|].
    eapply Qle_trans; [apply (round_mono _ 100); lra|].
    apply Qle_lteq. by right.
  - split; [apply round_nonneg; lra|].
    eapply Qle_trans; [apply (round_mono _ 100); lra|].
    apply Qle_lteq. by right.
Qed.

(** X6.  The statistics returned for a non-empty dictionary are
    consistent: the two totals add up to the number of verdicts, the
    satisfied counts lie between 0 and their totals, the two weights add up
    to 1 and the two percentages lie between 0 and 100. *)
Theorem statistics_are_consistent m max_score :
  m <> ∅ ->
  exists c i s,
    (calculate_score F m max_score).2 = FullStats c i s
    /\ gs_total c + gs_total i = Z.of_nat (size m)
    /\ 0 <= gs_satisfied c <= gs_total c
    /\ 0 <= gs_satisfied i <= gs_total i
    /\ (gs_weight c + gs_weight i == 1)%Q
    /\ (0 <= gs_percentage c <= 100)%Q
    /\ (0 <= gs_percentage i <= 100)%Q.
Proof.
  intros Hne.
  pose proof (count_type_total m) as Htotal.
  pose proof (count_satisfied_bounds CORE m) as Hc.
  pose proof (count_satisfied_bounds DETAILS_IMPORTANT m) as Hi.
  pose proof (percentage_bounds CORE m) as Pc.
  pose proof (percentage_bounds DETAILS_IMPORTANT m) as Pi.
  unfold calculate_score. rewrite bool_decide_eq_false_2 by exact Hne.
  destruct (totals_cases m Hne) as [[H1 H2]|[[H1 H2]|[H1 H2]]].
  - apply Z.ltb_lt in H1 as H1', H2 as H2'. rewrite H1', H2' in *. simpl.
    eexists _, _, _. split; [reflexivity|]. simpl.
    repeat split;
      first [lia | reflexivity | apply Pc | apply Pi | discriminate].
  - apply Z.ltb_lt in H1 as H1'. rewrite H1', H2 in *. simpl.
    eexists _, _, _. split; [reflexivity|]. simpl.
    repeat split;
      first [lia | reflexivity | apply Pc | apply Pi | discriminate].
  - apply Z.ltb_lt in H2 as H2'. rewrite H1, H2' in *. simpl.
    eexists _, _, _. split; [reflexivity|]. simpl.
    repeat split;
      first [lia | reflexivity | apply Pc | apply Pi | discriminate].
Qed.

End ScoringMore.

Lemma all_or_nothing_score_witness :
  ((calculate_score plain_format verdicts_core_only 5).1.1
   == PyNum.round 5 2)%Q.
Proof.
  apply (all_or_nothing_score plain_format verdicts_core_only 5).
  - eapply has_type_nonempty.
    exists (mkFeature CORE "c1"), met. split; reflexivity.
  - intros f a Hfa.
    apply elem_of_map_to_list in Hfa.
    assert (Hall : Forall (fun fa => satisfied fa.2 = true)
                          (map_to_list verdicts_core_only))
      by (vm_compute; repeat constructor).
    rewrite Forall_forall in Hall. exact (Hall (f, a) Hfa).
Defined.

Lemma statistics_are_consistent_witness :
  exists c i s,
    (calculate_score plain_format verdicts_mixed 10).2 = FullStats c i s
    /\ gs_total c + gs_total i = 6
    /\ 0 <= gs_satisfied c <= gs_total c
    /\ 0 <= gs_satisfied i <= gs_total i
    /\ (gs_weight c + gs_weight i == 1)%Q
    /\ (0 <= gs_percentage c <= 100)%Q
    /\ (0 <= gs_percentage i <= 100)%Q.
Proof.
  apply (statistics_are_consistent plain_format verdicts_mixed 10).
  eapply has_type_nonempty.
  exists (mkFeature CORE "c1"), met. split; reflexivity.
Defined.

(** ** Repeated checklist items *)

Section Duplicates.
Variables (F : NumFormat) (judge : Judge) (question : Question).

Lemma length_remove_dups_fmap {A B} `{EqDecision A} `{EqDecision B}
    (g : A -> B) `{!Inj (=) (=) g} (l : list A) :
  length (remove_dups (g <$> l)) = length (remove_dups l).
Proof.
  rewrite <- (length_fmap g (remove_dups l)).
  apply Permutation_length, NoDup_Permutation.
  - apply NoDup_remove_dups.
  - apply NoDup_fmap_2; [done | apply NoDup_remove_dups].
  - intros y. rewrite elem_of_remove_dups, !list_elem_of_fmap.
    by setoid_rewrite elem_of_remove_dups.
Qed.

(** The features of one type that a dictionary holds are counted without
    repetition. *)
Lemma count_type_keys t (m : gmap Feature FeatureAssessment)
    (feats : list Feature) :
  (forall f, is_Some (m !! f) <-> f ∈ feats) ->
  count_type t m
  = Z.of_nat (length (remove_dups (filter (fun f => type f = t) feats))).
Proof.
  intros Hkeys. unfold count_type. f_equal.
  rewrite <- (length_fmap fst).
  apply Permutation_length, NoDup_Permutation.
  - eapply sublist_NoDup; [apply (NoDup_fst_map_to_list m)|].
    apply fmap_sublist, sublist_filter.
  - apply NoDup_remove_dups.
  - intros f. rewrite elem_of_remove_dups, list_elem_of_filter,
      list_elem_of_fmap, <- Hkeys. split.
    + intros ([f' a] & -> & Hin). apply list_elem_of_filter in Hin as [Ht Hin].
      apply elem_of_map_to_list in Hin. split; [done | by eexists].
    + intros [Ht [a Ha]]. exists (f, a). split; [done|].
      apply list_elem_of_filter. split; [done | by apply elem_of_map_to_list].
Qed.

Lemma filter_type_fmap t t' (l : list string) :
  filter (fun f => type f = t) (mkFeature t' <$> l)
  = if decide (t' = t) then mkFeature t' <$> l else [].
Proof.
  induction l as [|d l IH]; [by destruct (decide _)|].
  rewrite fmap_cons, filter_cons, IH. simpl.
  by destruct (decide (t' = t)).
Qed.

Lemma mkFeature_inj t : Inj (=) (=) (mkFeature t).
Proof. by intros d1 d2 [=]. Qed.

Lemma distinct_features_of_type a :
  length (remove_dups (filter (fun f => type f = CORE)
                              (checklist_features (Some a))))
  = length (remove_dups (core a))
  /\ length (remove_dups (filter (fun f => type f = DETAILS_IMPORTANT)
                                 (checklist_features (Some a))))
     = length (remove_dups (details_important a)).
Proof.
  rewrite checklist_features_Some, !filter_app.
  change (map (mkFeature CORE) (core a)) with (mkFeature CORE <$> core a).
  change (map (mkFeature DETAILS_IMPORTANT) (details_important a))
    with (mkFeature DETAILS_IMPORTANT <$> details_important a).
  rewrite !filter_type_fmap. simpl. rewrite app_nil_r.
  split; apply length_remove_dups_fmap, mkFeature_inj.
Qed.

(** The totals of the statistics are the counts of the dictionary. *)
Lemma calculate_score_totals (m : gmap Feature FeatureAssessment) max_score :
  m <> ∅ ->
  exists c i s,
    (calculate_score F m max_score).2 = FullStats c i s
    /\ gs_total c = count_type CORE m
    /\ gs_total i = count_type DETAILS_IMPORTANT m.
Proof.
  intros Hne. unfold calculate_score.
  rewrite bool_decide_eq_false_2 by exact Hne.
  destruct (totals_cases m Hne) as [[H1 H2]|[[H1 H2]|[H1 H2]]].
  - apply Z.ltb_lt in H1 as H1', H2 as H2'. rewrite H1', H2'. simpl.
    by eexists _, _, _.
  - apply Z.ltb_lt in H1 as H1'. rewrite H1', H2. simpl. by eexists _, _, _.
  - apply Z.ltb_lt in H2 as H2'. rewrite H1, H2'. simpl. by eexists _, _, _.
Qed.

(** X7.  In an assessed answer the list of feature assessments has one
    entry per checklist item, repeated or not, while the score counts every
    distinct item once: the totals of the statistics are the numbers of
    distinct core and of distinct important items; a checklist without
    items gives empty statistics. *)
Theorem repeated_items_are_scored_once a student_response max_score log :
  a_status (assess_single_answer F judge question (Some a) student_response
                                 max_score log).1 = assessed ->
  (exists entries,
     a_feature_assessments
       (assess_single_answer F judge question (Some a) student_response
                             max_score log).1 = Some entries
     /\ length entries
        = (length (core a) + length (details_important a))%nat)
  /\ match a_statistics
             (assess_single_answer F judge question (Some a) student_response
                                   max_score log).1 with
     | Some (FullStats c i _) =>
         gs_total c = Z.of_nat (length (remove_dups (core a)))
         /\ gs_total i
            = Z.of_nat (length (remove_dups (details_important a)))
     | Some EmptyStats => core a = [] /\ details_important a = []
     | None => False
     end.
Proof.
  unfold assess_single_answer.
  destruct (unanswered student_response); [discriminate|].
  destruct (judge_features_prefix judge question (default "" student_response)
              (enumerate_features (Some a)) [] ∅ log)
    as (k & Hk & Hlog & Hres).
  change ((enumerate_features (Some a)).*2)
    with (checklist_features (Some a)) in *.
  destruct (judge_features _ _ _ _ _ _ _) as [[e|[lst dct]] log'];
    [discriminate|].
  simpl in Hres. destruct Hres as (_ & Hf & _ & Hd).
  assert (Hkeys : forall f, is_Some (dct !! f)
                            <-> f ∈ checklist_features (Some a)).
  { intros f. rewrite Hd, lookup_empty. split; [|by right].
    intros [[? ?]|?]; done. }
  destruct (distinct_features_of_type a) as [Dc Di].
  intros _. split.
  - destruct (calculate_score F dct max_score) as [[score breakdown] stats].
    simpl. exists lst. split; [done|].
    rewrite <- (length_fmap fa_feature lst). simpl in Hf.
    change (map fa_feature lst) with (fa_feature <$> lst) in Hf.
    rewrite Hf, length_map, checklist_features_Some, length_app, !length_map.
    done.
  - destruct (decide (dct = ∅)) as [->|Hne].
    + simpl.
      assert (Hnil : checklist_features (Some a) = []).
      { destruct (checklist_features (Some a)) as [|f l] eqn:E; [done|].
        assert (Hin : is_Some ((∅ : gmap Feature FeatureAssessment) !! f))
          by (apply Hkeys; left).
        rewrite lookup_empty in Hin. by destruct Hin. }
      rewrite checklist_features_Some in Hnil.
      apply app_eq_nil in Hnil as [H1 H2].
      by apply map_eq_nil in H1, H2.
    + destruct (calculate_score_totals dct max_score Hne)
        as (c & i & s & E & Hc & Hi).
      destruct (calculate_score F dct max_score) as [[score breakdown] stats].
      simpl in *. subst stats.
      rewrite Hc, Hi, !(count_type_keys _ dct _ Hkeys), Dc, Di. done.
Qed.

End Duplicates.

(** Four items are judged, three of them core, and two distinct core items
    are scored. *)
Lemma repeated_items_are_scored_once_witness :
  (exists entries,
     a_feature_assessments
       (assess_single_answer plain_format always_yes ci_question
          (Some repeated_checklist) (Some "Merging often") 3 []).1
     = Some entries
     /\ length entries = 4%nat)
  /\ match a_statistics
             (assess_single_answer plain_format always_yes ci_question
                (Some repeated_checklist) (Some "Merging often") 3 []).1 with
     | Some (FullStats c i _) => gs_total c = 2 /\ gs_total i = 1
     | Some EmptyStats => core repeated_checklist = []
                          /\ details_important repeated_checklist = []
     | None => False
     end.
Proof.
  apply (repeated_items_are_scored_once plain_format always_yes ci_question
           repeated_checklist (Some "Merging often") 3 []).
  vm_compute. reflexivity.
Defined.

(** ** The exam of one student: totals and state *)

Lemma sum_from (x : Q) (l : list Q) :
  (foldl Qplus x l == x + PyNum.sum l)%Q.
Proof.
  unfold PyNum.sum. revert x. induction l as [|y l IH]; intros x; simpl.
  - ring.
  - rewrite (IH (x + y)%Q), (IH (0 + y)%Q). ring.
Qed.

Lemma sum_cons (x : Q) (l : list Q) :
  (PyNum.sum (x :: l) == x + PyNum.sum l)%Q.
Proof. unfold PyNum.sum at 1. simpl. rewrite sum_from. ring. Qed.

Lemma sum_app (l1 l2 : list Q) :
  (PyNum.sum (l1 ++ l2) == PyNum.sum l1 + PyNum.sum l2)%Q.
Proof.
  induction l1 as [|x l1 IH]; simpl.
  - unfold PyNum.sum at 2. simpl. ring.
  - rewrite !sum_cons, IH. ring.
Qed.

Section ExamState.
Variable env : Env.

Lemma world_grows_refl w : world_grows env w w.
Proof.
  split; [done|]. split; [by left|].
  split; [exists []; by rewrite app_nil_r|]. split; [done|].
  intros id H1 H2. by destruct H2.
Qed.

Lemma world_grows_trans w1 w2 w3 :
  world_grows env w1 w2 -> world_grows env w2 w3 -> world_grows env w1 w3.
Proof.
  intros (K1 & N1 & [s1 L1] & B1 & D1) (K2 & N2 & [s2 L2] & B2 & D2).
  split; [|split; [|split; [|split]]].
  - intros id c H. by apply K2, K1.
  - intros id c H. destruct (N2 id c H) as [H2|H2]; [by apply N1 | by right].
  - exists (s1 ++ s2). by rewrite L2, L1, app_assoc.
  - by etrans.
  - intros id H1 H3. destruct (decide (id ∈ broken_solutions w2)) as [H2|H2].
    + by apply D2.
    + by apply D1.
Qed.

(** The score of any dictionary lies between 0 and the rounded maximum. *)
Lemma calculate_score_bounds (m : gmap Feature FeatureAssessment) max_score :
  (0 <= max_score)%Q ->
  (0 <= (calculate_score (num_format env) m max_score).1.1
   <= PyNum.round max_score 2)%Q.
Proof.
  intros Hmax. destruct (decide (m = ∅)) as [->|Hne].
  - rewrite calculate_score_empty. simpl.
    split; [apply Qle_refl | by apply round_nonneg].
  - destruct (calculate_score_share (num_format env) m max_score Hne)
      as (p & Hp & ->).
    by apply weighted_score_bounds.
Qed.

(** What one call of [assess_single_answer] leaves. *)
Lemma assess_single_answer_facts q checklist response max_score log :
  (exists sent,
     (assess_single_answer (num_format env) (judge env) q checklist response
                           max_score log).2 = log ++ sent)
  /\ ((0 <= max_score)%Q ->
      (0 <= a_score (assess_single_answer (num_format env) (judge env) q
                       checklist response max_score log).1
       <= PyNum.round max_score 2)%Q).
Proof.
  unfold assess_single_answer. destruct (unanswered response).
  { simpl. split; [exists []; by rewrite app_nil_r|].
    intros H. split; [apply Qle_refl | by apply round_nonneg]. }
  destruct (judge_features_log (judge env) q (default "" response)
              (enumerate_features checklist) [] ∅ log) as (sent & Hs & _).
  destruct (judge_features _ _ _ _ _ _ _) as [[e|[lst dct]] log'];
    simpl in Hs.
  - simpl. split; [by exists sent|].
    intros H. split; [apply Qle_refl | by apply round_nonneg].
  - pose proof (calculate_score_bounds dct max_score) as Hb.
    destruct (calculate_score _ dct max_score) as [[score breakdown] stats].
    simpl in *. split; [by exists sent | done].
Qed.

Lemma resolve_checklist_grows id q w :
  question (questions_store env) id = inr q ->
  world_grows env w (resolve_checklist env id q w).2
  /\ files (resolve_checklist env id q w).2 = files w.
Proof.
  intros Hq. unfold resolve_checklist, load_cache.
  destruct (loaded_checklists w !! id) as [c0|] eqn:E0;
    [split; [apply world_grows_refl | done]|].
  destruct (solutions env !! q_id q) as [c|] eqn:Es; simpl.
  - split; [|done]. split; [|split; [|split; [|split]]].
    + intros id' c' H. simpl. destruct (decide (id = id')) as [<-|Hne];
        [congruence | by rewrite lookup_insert_ne].
    + intros id' c'. simpl. destruct (decide (id = id')) as [<-|Hne].
      * rewrite lookup_insert_eq. intros [= <-]. right. by exists q.
      * rewrite lookup_insert_ne by done. by left.
    + exists []. simpl. by rewrite app_nil_r.
    + done.
    + intros id' H1 H2. by destruct H2.
  - split; [|done]. split; [done|]. split; [by left|].
    split; [exists []; simpl; by rewrite app_nil_r|].
    simpl. split; [by apply subseteq_difference_l|].
    intros id' H1 H2.
    apply not_elem_of_difference in H2 as [H2|H2]; [done|].
    apply elem_of_singleton in H2 as ->.
    split; [done|]. by exists id, q.
Qed.

Section OneStudent.
Variable student_responses : gmap Z string.

(** One round of the loop: the world grows, no file is touched, and a
    returned round adds one entry, its score and the question's maximum
    score. *)
Lemma assess_question_facts qi t w :
  world_grows env w (assess_question env student_responses qi t w).2
  /\ files (assess_question env student_responses qi t w).2 = files w
  /\ match (assess_question env student_responses qi t w).1 with
     | inl _ => True
     | inr t' =>
         exists a,
           assessments t' = assessments t ++ [a]
           /\ (total_score t' == total_score t + a_score a)%Q
           /\ total_max_score t' = (total_max_score t + qi_score qi)%Q
           /\ ((0 <= qi_score qi)%Q ->
               (0 <= a_score a <= PyNum.round (qi_score qi) 2)%Q)
     end.
Proof.
  assert (Hzero : (0 <= qi_score qi)%Q ->
                  (0 <= 0 <= PyNum.round (qi_score qi) 2)%Q).
  { intros H. split; [apply Qle_refl | by apply round_nonneg]. }
  unfold assess_question.
  destruct (PyInt.int _) as [n|];
    [|split; [apply world_grows_refl | done]].
  destruct (student_responses !! n) as [txt|].
  2:{ simpl. split; [apply world_grows_refl|]. split; [done|].
      eexists. split; [reflexivity|]. simpl. split; [ring | done]. }
  unfold try_assess_question.
  destruct (question (questions_store env) (qi_id qi)) as [e|q] eqn:Hq.
  { simpl. split; [apply world_grows_refl|]. split; [done|].
    eexists. split; [reflexivity|]. simpl. split; [ring | done]. }
  destruct (resolve_checklist_grows (qi_id qi) q w Hq) as [Hg Hfiles].
  destruct (resolve_checklist env (qi_id qi) q w) as [[checklist|] w1];
    simpl in Hg, Hfiles.
  2:{ simpl. split; [done|]. split; [done|].
      eexists. split; [reflexivity|]. simpl. split; [ring | done]. }
  destruct (assess_single_answer_facts q (Some checklist) (Some txt)
              (qi_score qi) (llm_calls w1)) as [[sent Hsent] Hb].
  destruct (assess_single_answer _ _ _ _ _ _ _) as [a log].
  simpl in *. split; [|split; [done|]].
  - eapply world_grows_trans; [exact Hg|].
    split; [done|]. split; [by left|]. split; [by exists sent|].
    split; [done|]. intros id H1 H2. by destruct H2.
  - eexists. split; [reflexivity|]. simpl. split; [reflexivity | done].
Qed.

(** The whole loop. *)
Lemma assess_questions_facts qs t w :
  world_grows env w (assess_questions env student_responses qs t w).2
  /\ files (assess_questions env student_responses qs t w).2 = files w
  /\ match (assess_questions env student_responses qs t w).1 with
     | inl _ => True
     | inr t' =>
         exists entries,
           assessments t' = assessments t ++ entries
           /\ (total_score t'
               == total_score t + PyNum.sum (map a_score entries))%Q
           /\ (total_max_score t'
               == total_max_score t + PyNum.sum (map qi_score qs))%Q
           /\ (Forall (fun qi => (0 <= qi_score qi)%Q) qs ->
               Forall2 (fun qi a =>
                          (0 <= a_score a <= PyNum.round (qi_score qi) 2)%Q)
                       qs entries)
     end.
Proof.
  revert t w. induction qs as [|qi qs IH]; intros t w; simpl.
  - split; [apply world_grows_refl|]. split; [done|].
    exists []. rewrite app_nil_r. simpl.
    split; [done|]. split; [unfold PyNum.sum; simpl; ring|].
    split; [unfold PyNum.sum; simpl; ring | by constructor].
  - destruct (assess_question_facts qi t w) as (Hg & Hf & Hres).
    destruct (assess_question env student_responses qi t w)
      as [[e|t1] w1]; simpl in *; [done|].
    destruct Hres as (a & Ha & Hs & Hm & Hb).
    destruct (IH t1 w1) as (Hg' & Hf' & Hres').
    split; [by eapply world_grows_trans|]. split; [congruence|].
    destruct (assess_questions env student_responses qs t1 w1).1
      as [e|t']; [done|].
    destruct Hres' as (entries & He & Hs' & Hm' & Hb').
    exists (a :: entries). split; [by rewrite He, Ha, <- app_assoc|].
    split; [rewrite Hs', Hs; simpl; rewrite sum_cons; ring|].
    split; [rewrite Hm', Hm; simpl; rewrite sum_cons; ring|].
    intros Hall. inversion Hall; subst. constructor; auto.
Qed.

End OneStudent.
End ExamState.

Lemma sum_le (l1 l2 : list Q) :
  Forall2 Qle l1 l2 -> (PyNum.sum l1 <= PyNum.sum l2)%Q.
Proof.
  induction 1 as [|x y l1 l2 Hxy _ IH].
  - apply Qle_refl.
  - rewrite !sum_cons. by apply Qplus_le_compat.
Qed.

Lemma sum_nonneg (l : list Q) :
  Forall (Qle 0) l -> (0 <= PyNum.sum l)%Q.
Proof.
  induction 1 as [|x l Hx _ IH].
  - apply Qle_refl.
  - rewrite sum_cons. lra.
Qed.

Lemma sum_proper (l1 l2 : list Q) :
  Forall2 Qeq l1 l2 -> (PyNum.sum l1 == PyNum.sum l2)%Q.
Proof.
  induction 1 as [|x y l1 l2 Hxy _ IH]; [done|].
  by rewrite !sum_cons, Hxy, IH.
Qed.

Section ExamResults.
Variables (env : Env) (student_responses : gmap Z string).

(** The result of a returned assessment, by the loop it ran. *)
Lemma assess_student_exam_result student_email qs save_results og w r w' :
  assess_student_exam env student_email qs student_responses
                      save_results og w = (inr r, w') ->
  exists t w1,
    assess_questions env student_responses qs (mkTotals [] 0%Q 0%Q) w
    = (inr t, w1)
    /\ r_student_email r = student_email
    /\ r_calculated_score r = total_score t
    /\ r_max_score r = total_max_score t
    /\ r_assessments r = assessments t
    /\ r_original_grades r = og
    /\ r_moodle_grade r = None
    /\ r_percentage r
       = PyNum.round (if Qlt_le_dec 0 (total_max_score t)
                      then total_score t / total_max_score t * 100
                      else 0)%Q 1
    /\ (save_results = false -> w' = w1 /\ r_saved_files r = None)
    /\ (save_results = true ->
        save_assessment_results env student_email
          (mkExamResult student_email (total_score t) (total_max_score t)
             (r_percentage r) (r_scoring_system r) (assessments t) og
             None None) w1
        = (inr (default (mkSavedFiles "" "") (r_saved_files r)), w')
        /\ is_Some (r_saved_files r)).
Proof.
  unfold assess_student_exam.
  destruct (assess_questions _ _ _ _ _) as [[e|t] w1]; [discriminate|].
  destruct save_results.
  - destruct (save_assessment_results _ _ _ _) as [[e|sf] w2] eqn:Es;
      [discriminate|].
    intros [= <- <-]. exists t, w1. simpl.
    repeat split; try done; by eexists.
  - intros [= <- <-]. exists t, w1. simpl. repeat split; done.
Qed.

(** X8.  In the result of a student's exam the calculated score is the sum
    of the scores of the question entries and the maximum score is the sum
    of the maximum scores of the exam questions; the identity and the
    reference grades are the ones passed in. *)
Theorem exam_totals_are_sums student_email qs save_results og w r w' :
  assess_student_exam env student_email qs student_responses
                      save_results og w = (inr r, w') ->
  (r_calculated_score r == PyNum.sum (map a_score (r_assessments r)))%Q
  /\ (r_max_score r == PyNum.sum (map qi_score qs))%Q
  /\ r_student_email r = student_email
  /\ r_original_grades r = og.
Proof.
  intros H.
  destruct (assess_student_exam_result _ _ _ _ _ _ _ H)
    as (t & w1 & E & He & Hs & Hm & Ha & Hog & _).
  pose proof (assess_questions_facts env student_responses qs
                (mkTotals [] 0%Q 0%Q) w) as (_ & _ & Hres).
  rewrite E in Hres. simpl in Hres.
  destruct Hres as (entries & Hentries & Hsum & Hmax & _).
  rewrite Hs, Hm, Ha, Hentries, Hsum, Hmax.
  repeat split; try done; ring.
Qed.

(** X9.  When every exam question has a non-negative maximum score with at
    most two decimals, the calculated score lies between 0 and the maximum
    score and the percentage between 0 and 100; in any case a maximum score
    of 0 gives the percentage 0 instead of a division by zero. *)
Theorem exam_percentage_is_bounded student_email qs save_results og w r w' :
  assess_student_exam env student_email qs student_responses
                      save_results og w = (inr r, w') ->
  (Forall (fun qi => (0 <= qi_score qi)%Q
                     /\ (PyNum.round (qi_score qi) 2 == qi_score qi)%Q) qs ->
   (0 <= r_calculated_score r <= r_max_score r)%Q
   /\ (0 <= r_percentage r <= 100)%Q)
  /\ ((r_max_score r <= 0)%Q -> (r_percentage r == 0)%Q).
Proof.
  intros H.
  destruct (assess_student_exam_result _ _ _ _ _ _ _ H)
    as (t & w1 & E & _ & Hs & Hm & _ & _ & _ & Hp & _).
  pose proof (assess_questions_facts env student_responses qs
                (mkTotals [] 0%Q 0%Q) w) as (_ & _ & Hres).
  rewrite E in Hres. simpl in Hres.
  destruct Hres as (entries & _ & Hsum & Hmax & Hb).
  rewrite Hs, Hm, Hp. clear Hs Hm Hp H E.
  assert (H100 : (PyNum.round 100 1 == 100)%Q) by reflexivity.
  split.
  - intros Hqs.
    assert (Hscores : Forall2 (fun a qi => (0 <= a_score a <= qi_score qi)%Q)
                              entries qs).
    { apply Forall2_flip.
      assert (Hnn : Forall (fun qi => (0 <= qi_score qi)%Q) qs)
        by (eapply Forall_impl; [exact Hqs | by intros ? [? ?]]).
      specialize (Hb Hnn). clear Hnn Hsum Hmax.
      induction Hb as [|qi a qs' entries' [H0 H1] _ IH]; [constructor|].
      inversion Hqs as [|? ? [_ Hr] Hqs']; subst.
      constructor; [|by apply IH].
      split; [done|]. eapply Qle_trans; [exact H1|].
      apply Qle_lteq. by right. }
    assert (Hlow : (0 <= PyNum.sum (map a_score entries))%Q).
    { apply sum_nonneg. clear -Hscores.
      induction Hscores as [|? ? ? ? [? ?]]; constructor; auto. }
    assert (Hup : (PyNum.sum (map a_score entries)
                   <= PyNum.sum (map qi_score qs))%Q).
    { apply sum_le. clear -Hscores.
      induction Hscores as [|? ? ? ? [? ?]]; constructor; auto. }
    assert (Hts : (0 <= total_score t <= total_max_score t)%Q).
    { rewrite Hsum, Hmax. split; lra. }
    split; [exact Hts|].
    destruct (Qlt_le_dec 0 (total_max_score t)) as [Hpos|Hle].
    + assert (Hq : (0 <= total_score t / total_max_score t * 100 <= 100)%Q).
      { split.
        - apply Qmult_le_0_compat; [|lra].
          apply Qle_shift_div_l; [done | lra].
        - assert (total_score t / total_max_score t <= 1)%Q; [|lra].
          apply Qle_shift_div_r; [done | lra]. }
      split; [apply round_nonneg; lra|].
      eapply Qle_trans; [apply (round_mono _ 100); lra|].
      apply Qle_lteq. by right.
    + split; [apply round_nonneg; lra|].
      eapply Qle_trans; [apply (round_mono _ 100); lra|].
      apply Qle_lteq. by right.
  - intros Hle.
    destruct (Qlt_le_dec 0 (total_max_score t)) as [Hpos|_]; [lra|].
    apply round_0.
Qed.

End ExamResults.

Lemma exam_totals_are_sums_witness :
  exists r w',
    assess_student_exam sample_env "ada@unibo.it" sample_questions
                        sample_responses true None empty_world = (inr r, w')
    /\ (r_calculated_score r == PyNum.sum (map a_score (r_assessments r)))%Q
    /\ (r_max_score r == PyNum.sum (map qi_score sample_questions))%Q
    /\ r_student_email r = "ada@unibo.it"
    /\ r_original_grades r = None.
Proof.
  eexists. eexists.
  assert (H : assess_student_exam sample_env "ada@unibo.it" sample_questions
                sample_responses true None empty_world = (inr ?[r], ?[w']))
    by (vm_compute; reflexivity).
  split; [exact H|].
  exact (exam_totals_are_sums sample_env sample_responses "ada@unibo.it"
           sample_questions true None empty_world _ _ H).
Defined.

Lemma exam_percentage_is_bounded_witness :
  exists r w',
    assess_student_exam sample_env "ada@unibo.it" sample_questions
                        sample_responses true None empty_world = (inr r, w')
    /\ (0 <= r_calculated_score r <= r_max_score r)%Q
    /\ (0 <= r_percentage r <= 100)%Q.
Proof.
  eexists. eexists.
  assert (H : assess_student_exam sample_env "ada@unibo.it" sample_questions
                sample_responses true None empty_world = (inr ?[r], ?[w']))
    by (vm_compute; reflexivity).
  split; [exact H|].
  apply (exam_percentage_is_bounded sample_env sample_responses "ada@unibo.it"
           sample_questions true None empty_world _ _ H).
  repeat constructor; vm_compute; congruence.
Defined.
(** ** One question's failure and the other questions *)

Lemma judging_raises_judge judge q txt feats log e :
  judging_raises judge q txt feats log e ->
  exists l p, judge l p = inl e.
Proof.
  induction 1 as [index feature rest log e J
                 |index feature rest log result e J _ IH]; [|exact IH].
  by eexists _, _.
Qed.

Lemma enumerate_features_names (c : Answer) :
  map description (enumerate_features (Some c)).*2
  = core c ++ details_important c.
Proof.
  change ((enumerate_features (Some c)).*2) with (checklist_features (Some c)).
  rewrite checklist_features_Some, map_app, !map_map. simpl.
  by rewrite !map_id.
Qed.

Section Isolation.
Variable env : Env.

(** The checklist found for a question stays the same while the state
    grows. *)
Lemma checklist_for_grows w w' id q :
  world_grows env w w' ->
  question (questions_store env) id = inr q ->
  checklist_for env id q w' = checklist_for env id q w.
Proof.
  intros (K & N & _) Hq. unfold checklist_for.
  destruct (loaded_checklists w !! id) as [c|] eqn:E.
  - by rewrite (K id c E).
  - destruct (loaded_checklists w' !! id) as [c'|] eqn:E'; [|done].
    destruct (N id c' E') as [H|(q' & Hq' & Hs)]; [congruence|].
    rewrite Hq in Hq'. by injection Hq' as <-.
Qed.

Lemma exam_entry_grows student_responses w w' qi a :
  world_grows env w w' ->
  exam_entry env student_responses w' qi a ->
  exam_entry env student_responses w qi a.
Proof.
  intros Hg [He H]. split; [done|]. intros n Hn. specialize (H n Hn).
  destruct (student_responses !! n) as [txt|]; [|done].
  destruct (question (questions_store env) (qi_id qi)) as [e|q] eqn:Hq;
    [done|].
  by rewrite (checklist_for_grows w w' (qi_id qi) q Hg Hq) in H.
Qed.

(** What the [try] of a round gives, by the catalog, the checklist and the
    answer. *)
Lemma try_assess_question_outcome qi n txt w :
  match question (questions_store env) (qi_id qi) with
  | inl e => (try_assess_question env qi n txt w).1 = inl e
  | inr q =>
      match checklist_for env (qi_id qi) q w with
      | None =>
          (try_assess_question env qi n txt w).1
          = inl (NoChecklistFound (qi_id qi))
      | Some c =>
          exists a,
            (try_assess_question env qi n txt w).1 = inr a
            /\ if unanswered (Some txt) then a_status a = no_response
               else assessed_entry (num_format env) q c txt (qi_score qi) a
                    \/ (a_status a = error
                        /\ exists e,
                             a_error a = Some e
                             /\ judging_raises (judge env) q txt
                                  (enumerate_features (Some c))
                                  (llm_calls w) e)
      end
  end.
Proof.
  unfold try_assess_question.
  destruct (question (questions_store env) (qi_id qi)) as [e|q]; [done|].
  rewrite <- resolve_checklist_found.
  pose proof (resolve_checklist_log env (qi_id qi) q w) as Hlog.
  destruct (resolve_checklist env (qi_id qi) q w) as [[c|] w1]; [|done].
  cbn [fst snd] in *. rewrite Hlog.
  unfold assess_single_answer.
  destruct (unanswered (Some txt)) eqn:Hu;
    [eexists; split; [reflexivity | by simpl]|]. simpl default.
  pose proof (judge_features_prefix (judge env) q txt
                (enumerate_features (Some c)) [] ∅ (llm_calls w))
    as (k & _ & _ & Hres).
  destruct (judge_features _ _ _ _ _ _ _) as [[e|[lst dct]] log'] eqn:E;
    cbn [fst snd] in Hres.
  - eexists. split; [reflexivity|]. right. simpl. split; [done|].
    exists e. split; [done|]. by eapply judge_features_inl.
  - destruct Hres as (_ & Hf & _ & Hd).
    destruct (calculate_score (num_format env) dct (qi_score qi))
      as [[score breakdown] stats] eqn:Ec.
    eexists. split; [reflexivity|]. left.
    unfold assessed_entry. simpl.
    rewrite Hf, enumerate_features_names.
    do 5 (split; [done|]).
    exists dct, breakdown, stats. split; [|by rewrite Ec].
    intros f. rewrite Hd, lookup_empty. split; [|by right].
    intros [H|H]; [by destruct H | done].
Qed.

Section OneStudent.
Variable student_responses : gmap Z string.

(** One round appends one entry, which is what [exam_entry] says. *)
Lemma assess_question_round qi n t w :
  question_number qi = Some n ->
  exists a s w',
    assess_question env student_responses qi t w
    = (inr (mkTotals (assessments t ++ [a]) s
                     (total_max_score t + qi_score qi)%Q), w')
    /\ (s == total_score t + a_score a)%Q
    /\ exam_entry env student_responses w qi a.
Proof.
  intros Hn. unfold assess_question. fold (question_number qi). rewrite Hn.
  destruct (student_responses !! n) as [txt|] eqn:Hr.
  - destruct (try_assess_question_entry env qi n txt w Hn)
      as (r & w' & E & Hentry).
    pose proof (try_assess_question_outcome qi n txt w) as Hout.
    rewrite E in *. cbn [fst] in Hout. destruct r as [e|a].
    + eexists _, _, _. split; [reflexivity|]. simpl.
      split; [ring|]. split.
      * unfold entry_of; simpl. by rewrite Hn; intuition eauto.
      * intros n' Hn'. rewrite Hn in Hn'. injection Hn' as <-. rewrite Hr.
        simpl.
        destruct (question (questions_store env) (qi_id qi)) as [e'|q].
        { by injection Hout as ->. }
        destruct (checklist_for env (qi_id qi) q w) as [c|].
        { by destruct Hout as (a & ? & _). }
        by injection Hout as ->.
    + eexists _, _, _. split; [reflexivity|].
      split; [reflexivity|]. split; [done|].
      intros n' Hn'. rewrite Hn in Hn'. injection Hn' as <-. rewrite Hr.
      destruct (question (questions_store env) (qi_id qi)) as [e'|q];
        [done|].
      destruct (checklist_for env (qi_id qi) q w) as [c|]; [|done].
      destruct Hout as (a' & [= <-] & Hout).
      destruct (unanswered (Some txt)); [done|].
      destruct Hout as [Ha|(He & e & Herr & Hraise)]; [by left|].
      right. split; [done|].
      destruct (judging_raises_judge _ _ _ _ _ _ Hraise) as (l & p & J).
      by exists l, p, e.
  - eexists _, _, _. split; [reflexivity|]. simpl.
    split; [ring|]. split.
    + unfold entry_of; simpl. by rewrite Hn; intuition.
    + intros n' Hn'. rewrite Hn in Hn'. injection Hn' as <-. by rewrite Hr.
Qed.

(** The loop returns one entry per question, in the order of the
    questions, each one what [exam_entry] says for the state the exam
    started in. *)
Lemma assess_questions_entries qs t w0 w :
  world_grows env w0 w ->
  match (assess_questions env student_responses qs t w).1 with
  | inr t' =>
      exists entries,
        assessments t' = assessments t ++ entries
        /\ Forall2 (exam_entry env student_responses w0) qs entries
  | inl e =>
      exists qi, qi ∈ qs /\ question_number qi = None
                 /\ e = InvalidLiteral
                          (PyInt.remove_sub "Question " 0 (qi_number qi))
  end.
Proof.
  revert t w. induction qs as [|qi qs IH]; intros t w Hg; simpl.
  - exists []. by rewrite app_nil_r.
  - destruct (question_number qi) as [n|] eqn:Hn.
    + destruct (assess_question_round qi n t w Hn)
        as (a & s & w' & E & _ & Ha).
      pose proof (assess_question_facts env student_responses qi t w)
        as (Hg' & _).
      rewrite E in *. simpl in Hg'.
      assert (Hg0 : world_grows env w0 w') by (by eapply world_grows_trans).
      specialize (IH (mkTotals (assessments t ++ [a]) s
                               (total_max_score t + qi_score qi)%Q) w' Hg0).
      destruct (assess_questions _ _ _ _ _) as [[e|t'] w'']; simpl in *.
      * destruct IH as (qi' & Hin & Hnone & ->).
        exists qi'. split; [by right | done].
      * destruct IH as (entries & -> & Hentries).
        exists (a :: entries). split; [by rewrite <- app_assoc|].
        constructor; [|done]. by apply (exam_entry_grows _ w0 w).
    + unfold assess_question. fold (question_number qi). rewrite Hn. simpl.
      exists qi. split; [by left | done].
Qed.

End OneStudent.
End Isolation.

(** C7.  A question whose assessment fails (it is not in the catalog, it
    has no checklist, or a judgment call raises) gets an entry with the
    status error, the score 0.0, its maximum score and the error; the round
    still returns, and the questions after it are assessed as they would be
    without it: an answered question that is in the catalog and has a
    checklist is assessed against that checklist unless one of its own
    judgment calls raises.  The assessment list of an exam holds one entry
    per exam question, in the order of the questions.  No failure of a
    question leaves [assess_student_exam]: it raises only for a question
    label that is not a number or when the result cannot be saved. *)
Theorem question_failures_are_isolated (env : Env)
    (student_responses : gmap Z string) :
  (forall qi n t w,
     question_number qi = Some n ->
     exists a s w',
       assess_question env student_responses qi t w
       = (inr (mkTotals (assessments t ++ [a]) s
                        (total_max_score t + qi_score qi)%Q), w')
       /\ (s == total_score t + a_score a)%Q
       /\ exam_entry env student_responses w qi a
       /\ (forall txt, student_responses !! n = Some txt ->
                       question_fails env qi txt w ->
                       a_status a = error /\ a_score a = 0%Q
                       /\ a_max_score a = qi_score qi
                       /\ is_Some (a_error a))
       /\ (forall txt, student_responses !! n = Some txt ->
                       unanswered (Some txt) = false ->
                       ~ question_fails env qi txt w ->
                       exists q checklist,
                         question (questions_store env) (qi_id qi) = inr q
                         /\ checklist_for env (qi_id qi) q w = Some checklist
                         /\ assessed_entry (num_format env) q checklist txt
                                           (qi_score qi) a))
  /\ (forall student_email qs save_results og w,
        Forall (fun qi => is_Some (question_number qi)) qs ->
        (save_results = true -> can_save env student_email) ->
        exists r w',
          assess_student_exam env student_email qs student_responses
                              save_results og w = (inr r, w')
          /\ Forall2 (exam_entry env student_responses w) qs
                     (r_assessments r))
  /\ (forall student_email qs save_results og w,
        match (assess_student_exam env student_email qs student_responses
                                   save_results og w).1 with
        | inr r =>
            Forall2 (exam_entry env student_responses w) qs (r_assessments r)
        | inl e =>
            (exists qi, qi ∈ qs /\ question_number qi = None
                        /\ e = InvalidLiteral
                                 (PyInt.remove_sub "Question " 0
                                                   (qi_number qi)))
            \/ (save_results = true /\ ~ can_save env student_email
                /\ exists path,
                     e = WriteError path /\ writable env path = false
                     /\ (path = student_dir env student_email
                         \/ path = assessment_path env student_email
                         \/ path = summary_path env student_email))
        end).
Proof.
  assert (Hexam : forall student_email qs save_results og w,
            match (assess_student_exam env student_email qs student_responses
                                       save_results og w).1 with
            | inr r =>
                Forall2 (exam_entry env student_responses w) qs
                        (r_assessments r)
            | inl e =>
                (exists qi, qi ∈ qs /\ question_number qi = None
                            /\ e = InvalidLiteral
                                     (PyInt.remove_sub "Question " 0
                                                       (qi_number qi)))
                \/ (save_results = true /\ ~ can_save env student_email
                    /\ exists path,
                         e = WriteError path /\ writable env path = false
                         /\ (path = student_dir env student_email
                             \/ path = assessment_path env student_email
                             \/ path = summary_path env student_email))
            end).
  { intros student_email qs save_results og w.
    pose proof (assess_student_exam_outcome env student_responses
                  student_email qs save_results og w) as Hout.
    pose proof (assess_questions_entries env student_responses qs
                  (mkTotals [] 0%Q 0%Q) w w (world_grows_refl env w)) as Hent.
    destruct (assess_student_exam env student_email qs student_responses
                save_results og w) as [[e|r] w'] eqn:E; simpl in *.
    - destruct Hout as [H|(Hs & Hc & path & -> & Hw & Hp)]; [by left|].
      right. split; [done|]. split; [done|]. by exists path.
    - destruct (assess_student_exam_result _ _ _ _ _ _ _ _ _ E)
        as (t & w1 & Et & _ & _ & _ & Ha & _).
      rewrite Et in Hent. simpl in Hent.
      destruct Hent as (entries & Hentries & HF). rewrite Ha, Hentries.
      done. }
  split; [|split; [|exact Hexam]].
  - intros qi n t w Hn.
    destruct (assess_question_round env student_responses qi n t w Hn)
      as (a & s & w' & E & Hs & Ha).
    exists a, s, w'. split; [exact E|]. split; [exact Hs|].
    split; [exact Ha|]. destruct Ha as [Hentry Ha]. specialize (Ha n Hn).
    split.
    + intros txt Hr Hf. rewrite Hr in Ha.
      destruct Hentry as (_ & _ & Hmax & Herr & _).
      assert (Hst : a_status a = error).
      { destruct Hf as [[e He]|[(q & Hq & Hc)
                               |(q & c & e & Hq & Hc & Hu & Hraise)]].
        - rewrite He in Ha. by destruct Ha.
        - rewrite Hq, Hc in Ha. by destruct Ha.
        - destruct (assess_question_step env student_responses qi n t w Hn)
            as (a' & s' & w'' & E' & _ & _ & Hfail).
          rewrite E in E'. injection E' as Ea _ _.
          apply app_inj_tail in Ea as [_ <-].
          apply (Hfail txt Hr). right. right. by exists q, c, e. }
      destruct (Herr Hst). done.
    + intros txt Hr Hu Hnf. rewrite Hr in Ha.
      destruct (question (questions_store env) (qi_id qi)) as [e|q] eqn:Hq.
      { destruct Hnf. left. by exists e. }
      destruct (checklist_for env (qi_id qi) q w) as [c|] eqn:Hc.
      2:{ destruct Hnf. right. left. by exists q. }
      exists q, c. split; [done|]. split; [done|].
      rewrite Hu in Ha.
      pose proof (try_assess_question_outcome env qi n txt w) as Hout.
      rewrite Hq, Hc, Hu in Hout.
      destruct Hout as (a' & Ea' & [Hass|(_ & e & _ & Hraise)]).
      2:{ destruct Hnf. right. right. by exists q, c, e. }
      unfold assess_question in E. fold (question_number qi) in E.
      rewrite Hn, Hr in E.
      destruct (try_assess_question env qi n txt w) as [[ex|a''] w''];
        simpl in Ea'; [discriminate|].
      injection Ea' as ->. injection E as Ea _ _.
      apply app_inj_tail in Ea as [_ <-]. done.
  - intros student_email qs save_results og w Hqs Hsave.
    destruct (assess_student_exam_returns env student_responses student_email
                qs save_results og w Hqs Hsave) as (r & w' & E & _).
    exists r, w'. split; [exact E|].
    specialize (Hexam student_email qs save_results og w).
    by rewrite E in Hexam.
Qed.

Lemma question_failures_are_isolated_witness :
  exists r w',
    assess_student_exam sample_env "ada@unibo.it" sample_questions
                        sample_responses true None empty_world = (inr r, w')
    /\ Forall2 (exam_entry sample_env sample_responses empty_world)
               sample_questions (r_assessments r).
Proof.
  apply (proj1 (proj2 (question_failures_are_isolated sample_env
                                                     sample_responses))).
  - repeat constructor; eexists; reflexivity.
  - intros _. repeat split; reflexivity.
Defined.

(** In the sample exam the second question has no checklist and the third
    no answer; all three questions have their entry, and the first is
    assessed. *)
Example sample_exam_statuses :
  match (assess_student_exam sample_env "ada@unibo.it" sample_questions
                             sample_responses true None empty_world).1 with
  | inr r => map a_status (r_assessments r) = [assessed; error; no_response]
  | inl _ => False
  end.
Proof. vm_compute. reflexivity. Qed.

(** ** The state left by an assessment, and the tool *)

Section StateOfAssessment.
Variable env : Env.

Lemma save_assessment_results_grows student_email result w :
  world_grows env w (save_assessment_results env student_email result w).2.
Proof.
  unfold save_assessment_results.
  destruct (writable env _); simpl; [|apply world_grows_refl].
  destruct (writable env _); simpl; [|apply world_grows_refl].
  destruct (writable env _); simpl;
    (split; [done|]; split; [by left|];
     split; [exists []; by rewrite app_nil_r|];
     split; [done|]; intros id H1 H2; by destruct H2).
Qed.

(** X10.  Assessing a student's exam only adds to the state: checklists
    already in the cache stay as they are, a new cache entry is the
    checklist read from the solutions for that question, the judge's log is
    extended at its end, and of the solutions files only files that cannot
    be loaded are deleted.  Under the evaluations directory no file is
    touched other than the student's own two, and those only when the
    results are saved; when the summary cannot be written after the
    directory was made and [assessment.json] written, the call raises for
    the summary and [assessment.json] stays on disk. *)
Theorem assessment_only_adds_to_the_state student_email qs student_responses
    save_results og w :
  let out := assess_student_exam env student_email qs student_responses
                                 save_results og w in
  world_grows env w out.2
  /\ (forall path,
        files out.2 !! path <> files w !! path ->
        save_results = true
        /\ (path = assessment_path env student_email
            \/ path = summary_path env student_email))
  /\ (save_results = true ->
      writable env (student_dir env student_email) = true ->
      writable env (assessment_path env student_email) = true ->
      writable env (summary_path env student_email) = false ->
      match out.1 with
      | inr _ => False
      | inl e =>
          (exists s, e = InvalidLiteral s)
          \/ (e = WriteError (summary_path env student_email)
              /\ is_Some (files out.2
                          !! assessment_path env student_email))
      end).
Proof.
  cbv zeta. unfold assess_student_exam.
  destruct (assess_questions_facts env student_responses qs
              (mkTotals [] 0%Q 0%Q) w) as (Hg & Hf & _).
  pose proof (assess_questions_outcome env student_responses qs
                (mkTotals [] 0%Q 0%Q) w) as Hout.
  destruct (assess_questions _ _ _ _ _) as [[e|t] w1]; simpl in *.
  { split; [done|]. split; [intros path; by rewrite Hf|].
    intros _ _ _ _. left. destruct Hout as (qi & _ & _ & ->). by eexists. }
  destruct save_results; simpl.
  2:{ split; [done|]. split; [intros path; by rewrite Hf | done]. }
  match goal with
  | |- context [save_assessment_results env student_email ?r w1] =>
      pose proof (save_assessment_results_grows student_email r w1) as Hs;
      set (result := r) in *
  end.
  unfold save_assessment_results in *.
  fold (student_dir env student_email) in *.
  fold (assessment_path env student_email) in *.
  fold (summary_path env student_email) in *.
  destruct (writable env (student_dir env student_email)); simpl in *.
  2:{ split; [done|]. split; [intros path; by rewrite Hf | done]. }
  destruct (writable env (assessment_path env student_email)); simpl in *.
  2:{ split; [done|]. split; [intros path; by rewrite Hf | done]. }
  destruct (writable env (summary_path env student_email)); simpl in *.
  - split; [by eapply world_grows_trans|]. split; [|done].
    intros path Hpath. split; [done|].
    destruct (decide (path = summary_path env student_email)) as [|N1];
      [by right|].
    destruct (decide (path = assessment_path env student_email)) as [|N2];
      [by left|].
    exfalso. apply Hpath.
    by rewrite !lookup_insert_ne, Hf by done.
  - split; [by eapply world_grows_trans|]. split.
    + intros path Hpath. split; [done|].
      destruct (decide (path = assessment_path env student_email)) as [|N2];
        [by left|].
      exfalso. apply Hpath.
      by rewrite !lookup_insert_ne, Hf by done.
    + intros _ _ _ _. right. split; [done|].
      rewrite lookup_insert_eq. by eexists.
Qed.

End StateOfAssessment.

Lemma find_none_iff {A} (f : A -> bool) (l : list A) :
  List.find f l = None <-> forall x, x ∈ l -> f x = false.
Proof.
  split.
  - intros H x Hin. apply (find_none f l H). by apply list_elem_of_In.
  - intros H. destruct (List.find f l) as [x|] eqn:E; [|done].
    apply find_some in E as [Hin Hf]. apply list_elem_of_In in Hin.
    rewrite (H x Hin) in Hf. discriminate.
Qed.

Lemma find_student_None query loaded_exams :
  find_student query loaded_exams = None
  <-> forall s, s ∈ roster_of loaded_exams -> student_matches query s = false.
Proof.
  rewrite <- find_none_iff, <- find_student_find.
  by destruct (find_student query loaded_exams).
Qed.

Lemma sample_length (loaded_exams : list ExamData) :
  (length (concat (map (fun e => map email (take 5 (students e)))
                       loaded_exams))
   <= 5 * length loaded_exams)%nat.
Proof.
  induction loaded_exams as [|e l IH]; simpl; [lia|].
  rewrite length_app, length_map, length_take. lia.
Qed.

Lemma sample_subset (loaded_exams : list ExamData) x :
  x ∈ concat (map (fun e => map email (take 5 (students e))) loaded_exams) ->
  exists s, s ∈ roster_of loaded_exams /\ email s = x.
Proof.
  unfold roster_of. induction loaded_exams as [|e l IH]; simpl.
  - intros H. by apply elem_of_nil in H.
  - rewrite elem_of_app. intros [H|H].
    + apply list_elem_of_fmap in H as (s & -> & Hs).
      exists s. split; [|done]. apply elem_of_app. left.
      eapply elem_of_sublist; [exact Hs|]. apply sublist_take.
    + destruct (IH H) as (s & Hs & <-). exists s.
      split; [|done]. apply elem_of_app. by right.
Qed.

Lemma loaded_count (loaded_exams : list ExamData) (z : Z) :
  foldl Z.add z (map (fun e => Z.of_nat (length (students e))) loaded_exams)
  = z + Z.of_nat (length (roster_of loaded_exams)).
Proof.
  unfold roster_of. revert z.
  induction loaded_exams as [|e l IH]; intros z; simpl; [lia|].
  rewrite IH, length_app. lia.
Qed.

Section Tool.
Variables (env : Env) (loaded_exams : list ExamData).

(** X11.  The tool answers "student not found" exactly when no identity of
    the loaded rosters matches the cleaned query; it then leaves the state
    as it was (no judge call, no file), reports the cleaned query and the
    number of loaded students, and lists at most five identities per loaded
    exam, all taken from the rosters. *)
Theorem unknown_student_changes_nothing (student_email : string) (w : World) :
  ((forall s, s ∈ roster_of loaded_exams ->
              student_matches (clean_query student_email) s = false)
   <-> exists sample n,
         (ExamMCPServer.assess_student_exam env loaded_exams student_email w).1
         = StudentNotFound (clean_query student_email) sample n)
  /\ (forall searched sample n,
        (ExamMCPServer.assess_student_exam env loaded_exams student_email w).1
        = StudentNotFound searched sample n ->
        (ExamMCPServer.assess_student_exam env loaded_exams student_email w).2
        = w
        /\ searched = clean_query student_email
        /\ n = Z.of_nat (length (roster_of loaded_exams))
        /\ (length sample <= 5 * length loaded_exams)%nat
        /\ forall x, x ∈ sample ->
                     exists s, s ∈ roster_of loaded_exams /\ email s = x).
Proof.
  rewrite <- find_student_None.
  unfold ExamMCPServer.assess_student_exam. fold (clean_query student_email).
  destruct (find_student (clean_query student_email) loaded_exams)
    as [[[s qs] e]|].
  - destruct (assess_student_exam _ _ _ _ _ _ _) as [[ex|r] w'];
      (split; [split; [discriminate | by intros (? & ? & ?)]
              | by intros ? ? ? ?]).
  - simpl. split; [split; [by eexists _, _ | done]|].
    intros searched sample n [= <- <- <-].
    split; [done|]. split; [done|]. split; [by rewrite loaded_count|].
    split; [apply sample_length | apply sample_subset].
Qed.

(** X12.  A result returned by the tool is keyed by the canonical identity
    of the matched roster entry, whatever form the query had: the result's
    [student_email], the entry's answers, reference grades and Moodle grade
    are those of the first matching roster entry, the assessment list has
    one entry per question of that entry's exam, and the two files are
    written under the directory of the canonical identity. *)
Theorem tool_result_is_keyed_by_roster_identity (student_email : string)
    (w : World) (r : ExamResult) :
  (ExamMCPServer.assess_student_exam env loaded_exams student_email w).1
  = ToolResult r ->
  exists s exam_data,
    List.find (student_matches (clean_query student_email))
              (roster_of loaded_exams) = Some s
    /\ exam_data ∈ loaded_exams /\ s ∈ students exam_data
    /\ r_student_email r = email s
    /\ r_original_grades r = original_grades s
    /\ r_moodle_grade r = moodle_grade s
    /\ Forall2 entry_of (questions exam_data) (r_assessments r)
    /\ r_saved_files r
       = Some (mkSavedFiles (assessment_path env (email s))
                            (summary_path env (email s)))
    /\ is_Some (files (ExamMCPServer.assess_student_exam env loaded_exams
                         student_email w).2
                !! assessment_path env (email s)).
Proof.
  unfold ExamMCPServer.assess_student_exam. fold (clean_query student_email).
  pose proof (find_student_find (clean_query student_email) loaded_exams)
    as Hfind.
  destruct (find_student (clean_query student_email) loaded_exams)
    as [[[s qs] e]|] eqn:E; [|discriminate].
  simpl in Hfind.
  destruct (find_student_email _ _ _ _ _ E) as (-> & exam_data & Hin & Hs & ->).
  pose proof (assess_student_exam_outcome env (responses s) (email s)
                (questions exam_data) true (original_grades s) w) as Hout.
  destruct (assess_student_exam env (email s) (questions exam_data)
              (responses s) true (original_grades s) w)
    as [[ex|r0] w'] eqn:Er; [discriminate|].
  intros [= <-]. simpl in *.
  destruct (assess_student_exam_result _ _ _ _ _ _ _ _ _ Er)
    as (t & w1 & _ & He & _ & _ & _ & Hog & _ & _ & _ & Hsave).
  destruct (Hsave eq_refl) as [Hs' [sf Hsome]]. clear Hsave.
  rewrite Hsome in Hs'. simpl in Hs'.
  unfold save_assessment_results in Hs'.
  fold (student_dir env (email s)) in Hs'.
  fold (assessment_path env (email s)) in Hs'.
  fold (summary_path env (email s)) in Hs'.
  destruct (writable env (student_dir env (email s))); [|discriminate].
  destruct (writable env (assessment_path env (email s))); [|discriminate].
  destruct (writable env (summary_path env (email s))); [|discriminate].
  simpl in Hs'. injection Hs' as Hsf Hw'.
  exists s, exam_data. repeat split; try done.
  - by rewrite Hsome, Hsf.
  - rewrite <- Hw'. simpl.
    destruct (decide (summary_path env (email s)
                      = assessment_path env (email s))) as [Heq|Hne].
    + rewrite Heq, lookup_insert_eq. by eexists.
    + rewrite lookup_insert_ne, lookup_insert_eq by done. by eexists.
Qed.

End Tool.

Lemma rstrip_dot_dots n : PyStr.rstrip_dot (dots n) = EmptyString.
Proof.
  unfold PyStr.rstrip_dot. induction n as [|n IH]; [done|].
  simpl. by rewrite IH.
Qed.

Lemma rstrip_dot_app_dots s n :
  PyStr.rstrip_dot (s +:+ dots n) = PyStr.rstrip_dot s.
Proof.
  induction s as [|c s IH].
  - simpl. apply rstrip_dot_dots.
  - unfold PyStr.rstrip_dot in *. simpl. by rewrite IH.
Qed.

(** X13.  Dots at the end of the query are ignored: the tool gives the
    same output and leaves the same state for a query and for that query
    followed by any number of dots. *)
Theorem trailing_dots_are_ignored (env : Env) (loaded_exams : list ExamData)
    (student_email : string) (n : nat) (w : World) :
  ExamMCPServer.assess_student_exam env loaded_exams
                                    (student_email +:+ dots n) w
  = ExamMCPServer.assess_student_exam env loaded_exams student_email w.
Proof.
  unfold ExamMCPServer.assess_student_exam.
  by rewrite rstrip_dot_app_dots.
Qed.

Lemma student_matches_own_email s : student_matches (email s) s = true.
Proof. unfold student_matches. by rewrite String.eqb_refl. Qed.

(** X14.  A query that, once cleaned (the dots at its end and then the
    white space around it removed), is the identity of a roster entry is
    always resolved by the tool: it never answers "student not found", it
    takes the first roster entry that matches the identity, which is the
    entry itself when no other entry matches it, and a result it returns
    carries the identity of the entry taken. *)
Theorem roster_identity_is_resolved (env : Env) (loaded_exams : list ExamData)
    (s : Student) (student_email : string) (w : World) :
  s ∈ roster_of loaded_exams ->
  clean_query student_email = email s ->
  exists s',
    List.find (student_matches (email s)) (roster_of loaded_exams) = Some s'
    /\ student_matches (email s) s' = true
    /\ ((forall s'', s'' ∈ roster_of loaded_exams ->
                     student_matches (email s) s'' = true -> s'' = s) ->
        s' = s)
    /\ match (ExamMCPServer.assess_student_exam env loaded_exams
                                                student_email w).1 with
       | StudentNotFound _ _ _ => False
       | ToolException _ => True
       | ToolResult r => r_student_email r = email s'
       end.
Proof.
  intros Hin Hclean.
  unfold ExamMCPServer.assess_student_exam. fold (clean_query student_email).
  rewrite Hclean.
  pose proof (find_student_find (email s) loaded_exams) as Hfind.
  destruct (find_student (email s) loaded_exams) as [[[s' qs] e]|] eqn:E.
  - destruct (find_student_email _ _ _ _ _ E) as (-> & _).
    simpl in Hfind. symmetry in Hfind. exists s'. split; [done|].
    apply find_some in Hfind as [Hin' Hm]. apply list_elem_of_In in Hin'.
    split; [done|]. split; [intros Huniq; by apply Huniq|].
    destruct (assess_student_exam env (email s') qs (responses s') true
                (original_grades s') w) as [[ex|r] w'] eqn:Er; [done|].
    simpl.
    by destruct (assess_student_exam_result _ _ _ _ _ _ _ _ _ Er)
      as (_ & _ & _ & He & _).
  - pose proof (proj1 (find_student_None _ _) E s Hin) as Hm.
    by rewrite student_matches_own_email in Hm.
Qed.

Lemma roster_identity_is_resolved_witness :
  exists s',
    List.find (student_matches "luca.verdi@studio.unibo.it")
              (roster_of [exam_of roster_with_prefix]) = Some s'
    /\ student_matches "luca.verdi@studio.unibo.it" s' = true
    /\ ((forall s'', s'' ∈ roster_of [exam_of roster_with_prefix] ->
                     student_matches "luca.verdi@studio.unibo.it" s'' = true ->
                     s'' = student "luca.verdi@studio.unibo.it") ->
        s' = student "luca.verdi@studio.unibo.it")
    /\ match (ExamMCPServer.assess_student_exam sample_env
               [exam_of roster_with_prefix]
               "  luca.verdi@studio.unibo.it.." empty_world).1 with
       | StudentNotFound _ _ _ => False
       | ToolException _ => True
       | ToolResult r => r_student_email r = email s'
       end.
Proof.
  apply (roster_identity_is_resolved sample_env [exam_of roster_with_prefix]
           (student "luca.verdi@studio.unibo.it")
           "  luca.verdi@studio.unibo.it.." empty_world).
  - unfold roster_of. simpl. right. left.
  - vm_compute. reflexivity.
Defined.

Lemma tool_result_is_keyed_by_roster_identity_witness :
  exists r s exam_data,
    (ExamMCPServer.assess_student_exam sample_env [exam_of three_students]
                                       "ADA@unibo.it..." empty_world).1
    = ToolResult r
    /\ List.find (student_matches (clean_query "ADA@unibo.it..."))
                 (roster_of [exam_of three_students]) = Some s
    /\ exam_data ∈ [exam_of three_students] /\ s ∈ students exam_data
    /\ r_student_email r = email s
    /\ r_student_email r = "ada@unibo.it".
Proof.
  eexists. 
  assert (H : (ExamMCPServer.assess_student_exam sample_env
                 [exam_of three_students] "ADA@unibo.it..." empty_world).1
              = ToolResult ?[r]) by (vm_compute; reflexivity).
  destruct (tool_result_is_keyed_by_roster_identity sample_env
              [exam_of three_students] "ADA@unibo.it..." empty_world _ H)
    as (s & exam_data & Hf & Hin & Hs & He & _).
  exists s, exam_data. split; [exact H|].
  repeat split; try done.
Defined.
(** * The scheduler at its edges *)

Lemma chunks_of_one {A} (l : list A) :
  map (chunk 1 l) (seq 0 (length l)) = map (fun x => [x]) l.
Proof.
  induction l as [|x l IH]; [done|].
  cbn [length]. rewrite chunks_succ. simpl. f_equal.
  rewrite drop_0. exact IH.
Qed.

(** X15.  A worker count of zero or less assesses nobody: the run stops
    with a division by zero for a count of 0, with the error of a range
    step of zero when the roster is not empty and has at most as many
    students as the count is below zero, and otherwise ends after the
    distribution, with no batch, no worker, no report (the result keeps
    its initial empty text) and the state as it was. *)
Theorem nonpositive_worker_count_assesses_nobody (tool : Tool)
    (exam_students : list Student) (num_workers : Z) (w : World) :
  num_workers <= 0 ->
  let R := Z.of_nat (length exam_students) in
  run_batches tool exam_students num_workers w
  = if num_workers =? 0 then inl ZeroDivisionError
    else if (0 <? R) && (R <=? - num_workers) then inl RangeStepZero
         else inr (None, w).
Proof.
  intros HW R.
  unfold run_batches, distribute_node, PyList.floordiv, PyList.range.
  rewrite length_map. fold R.
  destruct (Z.eqb_spec num_workers 0) as [|HW0]; [done|].
  assert (HR : 0 <= R) by (unfold R; lia).
  pose proof (Z.div_mod R num_workers HW0) as Hdm.
  pose proof (Z.mod_neg_bound R num_workers ltac:(lia)) as Hb.
  destruct (Z.ltb_spec 0 R) as [Hpos|Hzero]; simpl.
  - destruct (Z.leb_spec R (- num_workers)) as [Hle|Hgt].
    + assert (Hq : R / num_workers = -1) by nia.
      rewrite Hq. reflexivity.
    + assert (Hq : R / num_workers + 1 < 0) by nia.
      destruct (Z.eqb_spec (R / num_workers + 1) 0); [lia|].
      unfold PyList.range_len.
      destruct (Z.ltb_spec 0 (R / num_workers + 1)); [lia|].
      destruct (Z.ltb_spec R 0); [lia|]. reflexivity.
  - assert (R = 0) as -> by lia. rewrite Z.div_0_l by done. reflexivity.
Qed.

Lemma nonpositive_worker_count_assesses_nobody_witness :
  run_batches (mcp_tool sample_env [exam_of six_students]) six_students (-2)
              empty_world
  = inr (None, empty_world).
Proof.
  apply (nonpositive_worker_count_assesses_nobody
           (mcp_tool sample_env [exam_of six_students]) six_students (-2)
           empty_world).
  lia.
Defined.

(** X16.  With more workers than students every student is a batch of
    their own, in roster order, and the number of workers becomes the
    number of students. *)
Theorem more_workers_than_students_gives_single_batches
    (exam_students : list Student) (num_workers : Z) :
  Z.of_nat (length exam_students) < num_workers ->
  distribute_node exam_students num_workers
  = inr (map (fun s => [email s]) exam_students,
         Z.of_nat (length exam_students)).
Proof.
  intros HW.
  rewrite distribute_node_chunks by lia. cbv zeta.
  rewrite length_map.
  set (R := Z.of_nat (length exam_students)) in *.
  assert (Hq : R / num_workers = 0) by (apply Z.div_small; unfold R; lia).
  rewrite Hq. change (0 + 1) with 1.
  assert (Hcnt : Z.to_nat (PyList.range_len 0 R 1) = length exam_students).
  { unfold PyList.range_len. change (0 <? 1) with true. cbv iota.
    destruct (Z.ltb_spec 0 R).
    - rewrite Z.div_1_r. unfold R. lia.
    - unfold R in *. lia. }
  rewrite Hcnt. change (Z.to_nat 1) with 1%nat. do 2 f_equal.
  rewrite <- (length_map email exam_students) at 1.
  rewrite chunks_of_one, map_map. reflexivity.
Qed.

Lemma more_workers_than_students_gives_single_batches_witness :
  distribute_node three_students 5
  = inr ([["cleo@unibo.it"]; ["bob@unibo.it"]; ["ada@unibo.it"]], 3).
Proof.
  apply (more_workers_than_students_gives_single_batches three_students 5).
  simpl. lia.
Defined.

(** X17.  An empty roster gives a run without batches: whatever the tool
    and the worker count, the run stops with a division by zero for a count
    of 0 and otherwise ends after the distribution, with no worker sent, no
    report made (the result keeps its initial empty text) and the state
    untouched. *)
Theorem empty_roster_gives_no_report (tool : Tool) (num_workers : Z)
    (w : World) :
  run_batches tool [] num_workers w
  = if num_workers =? 0 then inl ZeroDivisionError
    else inr (None, w).
Proof.
  unfold run_batches, distribute_node, PyList.floordiv, PyList.range. simpl.
  destruct (Z.eqb_spec num_workers 0); [done|].
  rewrite Z.div_0_l by done. reflexivity.
Qed.

Section WorkerNumbers.
Variable tool : Tool.

Lemma worker_loop_records wid batch results w :
  exists added,
    (worker_loop tool wid batch results w).1 = results ++ added
    /\ sublist (map wr_student added) batch
    /\ Forall (records tool wid) added.
Proof.
  revert results w. induction batch as [|e batch IH]; intros results w; simpl.
  - exists []. rewrite app_nil_r. repeat split; constructor.
  - destruct (tool e w) as [[ex|[| |a]] w1] eqn:E;
      try (destruct (IH results w1) as (added & H1 & H2 & H3);
           exists added; repeat split; [done | by apply sublist_cons | done]).
    destruct (IH (results ++ [mkWorkerResult wid e (r_calculated_score a)
                                 (r_max_score a) (r_percentage a)]) w1)
      as (added & H1 & H2 & H3).
    eexists (_ :: added). rewrite H1, <- app_assoc. split; [reflexivity|].
    split; [simpl; by apply sublist_skip|].
    constructor; [|done]. split; [done|]. simpl. by eexists w, a, w1.
Qed.

Lemma run_workers_records sends w :
  exists per_worker,
    (run_workers tool sends w).1 = concat per_worker
    /\ Forall2 (fun state results =>
                  sublist (map wr_student results) (batch state)
                  /\ Forall (records tool (worker_id state + 1)) results)
               sends per_worker.
Proof.
  revert w. induction sends as [|state sends IH]; intros w; simpl.
  - exists []. split; [done | constructor].
  - unfold worker_node.
    destruct (worker_loop_records (worker_id state + 1) (batch state) [] w)
      as (added & H1 & H2 & H3).
    destruct (worker_loop tool (worker_id state + 1) (batch state) [] w)
      as [results w1] eqn:E1.
    destruct (IH w1) as (per & H4 & H5).
    destruct (run_workers tool sends w1) as [others w2] eqn:E2.
    simpl in *. subst. exists (added :: per). split; [done|].
    constructor; done.
Qed.

Lemma create_worker_sends_lookup student_batches k state :
  create_worker_sends student_batches !! k = Some state ->
  student_batches !! k = Some (batch state) /\ worker_id state = Z.of_nat k.
Proof.
  unfold create_worker_sends. rewrite list_lookup_fmap.
  destruct (zip (seq 0 (length student_batches)) student_batches !! k)
    as [[i b]|] eqn:E; [|discriminate].
  intros [= <-]. simpl.
  apply lookup_zip_with_Some in E as (i' & b' & [= <- <-] & Hi & Hb).
  apply lookup_seq in Hi as [-> _]. done.
Qed.

Lemma run_workers_ids (student_batches : list (list string)) (w : World)
    (a : WorkerResult) :
  a ∈ (run_workers tool (create_worker_sends student_batches) w).1 ->
  1 <= wr_worker_id a <= Z.of_nat (length student_batches).
Proof.
  destruct (run_workers_records (create_worker_sends student_batches) w)
    as (per & -> & H2).
  intros Ha.
  apply list_elem_of_In, in_concat in Ha as (results & Hres & Ha).
  apply list_elem_of_In in Hres, Ha.
  apply list_elem_of_lookup in Hres as [k Hres].
  destruct (Forall2_lookup_r _ _ _ _ _ H2 Hres) as (state & Hst & _ & Hrec).
  destruct (create_worker_sends_lookup _ _ _ Hst) as [Hb Hid].
  apply lookup_lt_Some in Hb.
  rewrite Forall_forall in Hrec. destruct (Hrec a Ha) as [Hwid _]. lia.
Qed.

(** X18.  The assessments of a run are the workers' results put end to end
    in batch order; the results of the batch at position k name students of
    that batch in batch order, each one a student for whom the tool
    returned an assessment, with the scores of that assessment and the
    worker number k + 1. *)
Theorem results_carry_the_batch_number (student_batches : list (list string))
    (w : World) :
  exists per_worker,
    (run_workers tool (create_worker_sends student_batches) w).1
    = concat per_worker
    /\ length per_worker = length student_batches
    /\ forall k b results,
         student_batches !! k = Some b -> per_worker !! k = Some results ->
         sublist (map wr_student results) b
         /\ Forall (records tool (Z.of_nat k + 1)) results.
Proof.
  destruct (run_workers_records (create_worker_sends student_batches) w)
    as (per & H1 & H2).
  exists per. split; [done|].
  assert (Hlen : length (create_worker_sends student_batches)
                 = length student_batches).
  { rewrite <- (create_worker_sends_batches student_batches) at 2.
    by rewrite length_map. }
  split; [by rewrite <- (Forall2_length _ _ _ H2)|].
  intros k b results Hb Hr.
  destruct (create_worker_sends student_batches !! k) as [state|] eqn:E.
  - destruct (create_worker_sends_lookup _ _ _ E) as [Hb' Hid].
    rewrite Hb in Hb'. injection Hb' as ->.
    destruct (Forall2_lookup_lr _ _ _ _ _ _ H2 E Hr) as [Hs Hf].
    by rewrite Hid in Hf.
  - apply lookup_ge_None in E. apply lookup_lt_Some in Hb. lia.
Qed.

End WorkerNumbers.
(** * The report: order, numbering and statistics *)

Lemma string_compare_refl s : String.compare s s = Eq.
Proof.
  induction s as [|c s IH]; [done|]. simpl.
  unfold Ascii.compare. by rewrite N.compare_refl.
Qed.

Lemma string_compare_lt_trans s1 s2 s3 :
  String.compare s1 s2 = Lt -> String.compare s2 s3 = Lt ->
  String.compare s1 s3 = Lt.
Proof.
  revert s2 s3. induction s1 as [|a s1 IH]; intros [|b s2] [|c s3];
    simpl; try done.
  unfold Ascii.compare.
  destruct (N.compare_spec (N_of_ascii a) (N_of_ascii b)) as [E1|L1|G1];
    destruct (N.compare_spec (N_of_ascii b) (N_of_ascii c)) as [E2|L2|G2];
    try done; intros H1 H2.
  - rewrite E1, E2, N.compare_refl. by apply (IH s2).
  - rewrite E1. by apply N.compare_lt_iff in L2 as ->.
  - rewrite <- E2. by apply N.compare_lt_iff in L1 as ->.
  - assert (L : (N_of_ascii a < N_of_ascii c)%N) by lia.
    by apply N.compare_lt_iff in L as ->.
Qed.

Lemma string_leb_refl s : String.leb s s = true.
Proof. unfold String.leb. by rewrite string_compare_refl. Qed.

Lemma string_leb_trans s1 s2 s3 :
  String.leb s1 s2 = true -> String.leb s2 s3 = true ->
  String.leb s1 s3 = true.
Proof.
  unfold String.leb.
  destruct (String.compare s1 s2) eqn:E1; [| |done];
    destruct (String.compare s2 s3) eqn:E2; try done; intros _ _.
  - apply String.compare_eq_iff in E1 as ->. by rewrite E2.
  - apply String.compare_eq_iff in E1 as ->. by rewrite E2.
  - apply String.compare_eq_iff in E2 as <-. by rewrite E1.
  - by rewrite (string_compare_lt_trans _ _ _ E1 E2).
Qed.

Section SortingOrder.
Context {A : Type} (leb : A -> A -> bool).
Hypothesis leb_total : forall x y, leb x y = true \/ leb y x = true.
Hypothesis leb_trans :
  forall x y z, leb x y = true -> leb y z = true -> leb x z = true.

Lemma insert_ordered x l :
  ordered_by leb l -> ordered_by leb (PyList.insert leb x l).
Proof.
  induction l as [|y l IH]; simpl; [by split|].
  intros [Hy Hl]. destruct (leb x y) eqn:E; simpl.
  - split; [|done]. constructor; [done|].
    eapply Forall_impl; [exact Hy|]. intros z Hz. by apply (leb_trans x y z).
  - split; [|by apply IH].
    rewrite insert_Permutation. constructor; [|done].
    destruct (leb_total x y) as [H|H]; [congruence | done].
Qed.

Lemma sorted_ordered l : ordered_by leb (PyList.sorted leb l).
Proof.
  induction l as [|x l IH]; [done|].
  unfold PyList.sorted in *. simpl. by apply insert_ordered.
Qed.

End SortingOrder.

Section SortingStable.
Context {A : Type} (leb : A -> A -> bool) (P : A -> Prop)
        `{!forall x, Decision (P x)}.
Hypothesis leb_same : forall x y, P x -> P y -> leb x y = true.

Lemma insert_filter x l :
  filter P (PyList.insert leb x l) = filter P (x :: l).
Proof.
  induction l as [|y l IH]; [done|]. simpl.
  destruct (leb x y) eqn:E; [done|].
  rewrite filter_cons, IH, !filter_cons.
  destruct (decide (P y)) as [Hy|Hy]; [|done].
  destruct (decide (P x)) as [Hx|Hx]; [|done].
  rewrite (leb_same x y Hx Hy) in E. discriminate.
Qed.

Lemma sorted_filter l : filter P (PyList.sorted leb l) = filter P l.
Proof.
  induction l as [|x l IH]; [done|].
  unfold PyList.sorted in *. simpl.
  by rewrite insert_filter, !filter_cons, IH.
Qed.

End SortingStable.

Lemma by_student_total a b : by_student a b = true \/ by_student b a = true.
Proof. apply String.leb_total. Qed.

Lemma by_student_trans a b c :
  by_student a b = true -> by_student b c = true -> by_student a c = true.
Proof. apply string_leb_trans. Qed.

Lemma map_zip_seq {A B} (f : nat * A -> B) (l : list A) (s : nat) :
  map f (zip (seq s (length l)) l) = imap (fun i a => f ((s + i)%nat, a)) l.
Proof.
  revert s f. induction l as [|x l IH]; intros s f; [done|].
  simpl. rewrite Nat.add_0_r. f_equal. rewrite IH.
  apply imap_ext. intros i a _. simpl. do 2 f_equal. lia.
Qed.

(** The values of a report over at least one assessment. *)
Lemma report_node_values (assessments : list WorkerResult) (num_workers : Z) :
  assessments <> [] ->
  exists r ordered,
    report_node assessments num_workers = FullReport r
    /\ ordered = PyList.sorted by_student assessments
    /\ ordered ≡ₚ assessments
    /\ rp_num_workers r = num_workers
    /\ rp_total_students r = Z.of_nat (length ordered)
    /\ rp_average r = mean (map wr_score ordered)
    /\ rp_maximum r = default 0%Q (PyNum.max (map wr_score ordered))
    /\ rp_minimum r = default 0%Q (PyNum.min (map wr_score ordered))
    /\ rp_worker_stats r
       = map (fun wid =>
                let wscores :=
                  default [] (collect_worker_stats ordered !! wid) in
                mkWorkerStat wid (Z.of_nat (length wscores)) (mean wscores))
             (PyList.sorted Z.leb
                (map fst (map_to_list (collect_worker_stats ordered))))
    /\ rp_details r = imap (fun i a => detail_line (S i) a) ordered.
Proof.
  intros Hne.
  destruct assessments as [|a0 rest]; [done|].
  unfold report_node. cbv beta iota zeta.
  change (fun a b => String.leb (wr_student a) (wr_student b))
    with by_student.
  set (l := a0 :: rest) in *.
  eexists _, (PyList.sorted by_student l).
  split; [reflexivity|].
  cbn [rp_num_workers rp_total_students rp_average rp_maximum rp_minimum
       rp_worker_stats rp_details].
  split; [done|]. split; [apply sorted_Permutation|].
  repeat split.
  rewrite map_zip_seq. apply imap_ext. intros i a _. reflexivity.
Qed.

(** X19.  A report over at least one assessment lists the assessments in
    non-decreasing order of the student identity (compared character by
    character), assessments of the same identity keeping the order they
    came in, one detail line per assessment, numbered from 1; the number of
    students it states is the number of assessments and the number of
    workers the one it was given. *)
Theorem report_details_are_sorted_and_numbered
    (assessments : list WorkerResult) (num_workers : Z) :
  assessments <> [] ->
  exists r ordered,
    report_node assessments num_workers = FullReport r
    /\ ordered ≡ₚ assessments
    /\ ordered_by by_student ordered
    /\ (forall s, entries_of s ordered = entries_of s assessments)
    /\ rp_details r = imap (fun i a => detail_line (S i) a) ordered
    /\ rp_total_students r = Z.of_nat (length assessments)
    /\ rp_num_workers r = num_workers.
Proof.
  intros Hne.
  destruct (report_node_values assessments num_workers Hne)
    as (r & ordered & Hr & Hord & Hperm & Hnum & Htot & _ & _ & _ & _ & Hdet).
  exists r, ordered. split; [done|]. split; [done|].
  split.
  { rewrite Hord. apply sorted_ordered;
      [apply by_student_total | apply by_student_trans]. }
  split.
  { intros s. rewrite Hord. unfold entries_of. apply sorted_filter.
    intros x y Hx Hy. unfold by_student. rewrite Hx, Hy.
    apply string_leb_refl. }
  split; [done|]. split; [|done].
  by rewrite Htot, (Permutation_length Hperm).
Qed.

Lemma report_details_are_sorted_and_numbered_witness :
  exists r ordered,
    report_node sample_results 2 = FullReport r
    /\ ordered ≡ₚ sample_results
    /\ ordered_by by_student ordered
    /\ (forall s, entries_of s ordered = entries_of s sample_results)
    /\ rp_details r = imap (fun i a => detail_line (S i) a) ordered
    /\ rp_total_students r = Z.of_nat (length sample_results)
    /\ rp_num_workers r = 2.
Proof.
  apply (report_details_are_sorted_and_numbered sample_results 2).
  discriminate.
Defined.

(** ** The global statistics *)

Lemma sum_Permutation (l1 l2 : list Q) :
  l1 ≡ₚ l2 -> (PyNum.sum l1 == PyNum.sum l2)%Q.
Proof.
  induction 1 as [|x l1 l2 _ IH|x y l|l1 l2 l3 _ IH1 _ IH2].
  - reflexivity.
  - by rewrite !sum_cons, IH.
  - rewrite !sum_cons. ring.
  - by rewrite IH1.
Qed.

Lemma inject_length_cons {A} (x : A) (l : list A) :
  (inject_Z (Z.of_nat (length (x :: l)))
   == inject_Z (Z.of_nat (length l)) + 1)%Q.
Proof.
  cbn [length]. rewrite Nat2Z.inj_succ, <- Z.add_1_r, inject_Z_plus.
  reflexivity.
Qed.

Lemma sum_bounds (lo hi : Q) (l : list Q) :
  Forall (fun x => (lo <= x <= hi)%Q) l ->
  (inject_Z (Z.of_nat (length l)) * lo <= PyNum.sum l
   <= inject_Z (Z.of_nat (length l)) * hi)%Q.
Proof.
  induction 1 as [|x l [H1 H2] _ [IH1 IH2]].
  - unfold PyNum.sum. simpl. split; apply Qle_lteq; right; ring.
  - rewrite sum_cons, inject_length_cons. split; lra.
Qed.

Lemma length_pos {A} (l : list A) :
  l <> [] -> (0 < inject_Z (Z.of_nat (length l)))%Q.
Proof.
  intros Hne. destruct l as [|x l]; [done|].
  change 0%Q with (inject_Z 0). rewrite <- Zlt_Qlt. simpl. lia.
Qed.

Lemma mean_bounds (lo hi : Q) (l : list Q) :
  l <> [] -> Forall (fun x => (lo <= x <= hi)%Q) l ->
  (lo <= mean l <= hi)%Q.
Proof.
  intros Hne Hl. pose proof (length_pos l Hne) as Hn.
  destruct (sum_bounds lo hi l Hl) as [H1 H2]. unfold mean. split.
  - apply Qle_shift_div_l; [done|]. lra.
  - apply Qle_shift_div_r; [done|]. lra.
Qed.

Lemma mean_Permutation (l1 l2 : list Q) :
  l1 ≡ₚ l2 -> (mean l1 == mean l2)%Q.
Proof.
  intros H. unfold mean.
  by rewrite (sum_Permutation _ _ H), (Permutation_length H).
Qed.

Lemma foldl_max_spec (xs : list Q) (x : Q) :
  let m := foldl (fun m y => if Qlt_le_dec m y then y else m) x xs in
  m ∈ x :: xs /\ Forall (fun y => (y <= m)%Q) (x :: xs).
Proof.
  revert x. induction xs as [|y xs IH]; intros x; cbn zeta.
  - simpl. split; [left | repeat constructor; apply Qle_refl].
  - simpl. destruct (IH (if Qlt_le_dec x y then y else x)) as [Hin Hall].
    cbn zeta in Hin, Hall.
    set (m := foldl _ _ xs) in *.
    inversion Hall as [|? ? Hx' Hrest]; subst.
    split.
    + apply elem_of_cons in Hin as [Hin|Hin].
      * rewrite Hin. destruct (Qlt_le_dec x y);
          [right; left | left].
      * by do 2 right.
    + destruct (Qlt_le_dec x y) as [Hlt|Hle].
      * repeat constructor; [lra | done | done].
      * repeat constructor; [done | lra | done].
Qed.

Lemma foldl_min_spec (xs : list Q) (x : Q) :
  let m := foldl (fun m y => if Qlt_le_dec y m then y else m) x xs in
  m ∈ x :: xs /\ Forall (fun y => (m <= y)%Q) (x :: xs).
Proof.
  revert x. induction xs as [|y xs IH]; intros x; cbn zeta.
  - simpl. split; [left | repeat constructor; apply Qle_refl].
  - simpl. destruct (IH (if Qlt_le_dec y x then y else x)) as [Hin Hall].
    cbn zeta in Hin, Hall.
    set (m := foldl _ _ xs) in *.
    inversion Hall as [|? ? Hx' Hrest]; subst.
    split.
    + apply elem_of_cons in Hin as [Hin|Hin].
      * rewrite Hin. destruct (Qlt_le_dec y x);
          [right; left | left].
      * by do 2 right.
    + destruct (Qlt_le_dec y x) as [Hlt|Hle].
      * repeat constructor; [lra | done | done].
      * repeat constructor; [done | lra | done].
Qed.

Lemma max_spec (xs : list Q) :
  xs <> [] ->
  exists m, PyNum.max xs = Some m /\ m ∈ xs
            /\ Forall (fun y => (y <= m)%Q) xs.
Proof.
  destruct xs as [|x xs]; [done|]. intros _.
  eexists. split; [reflexivity|]. apply foldl_max_spec.
Qed.

Lemma min_spec (xs : list Q) :
  xs <> [] ->
  exists m, PyNum.min xs = Some m /\ m ∈ xs
            /\ Forall (fun y => (m <= y)%Q) xs.
Proof.
  destruct xs as [|x xs]; [done|]. intros _.
  eexists. split; [reflexivity|]. apply foldl_min_spec.
Qed.

(** X20.  In a report over at least one assessment the minimum and the
    maximum are each the score of one of the assessments, and every score
    lies between them; the average is the sum of the scores, added up from
    0 in the order of the report, divided by their number. *)
Theorem report_minimum_and_maximum_are_scores
    (assessments : list WorkerResult) (num_workers : Z) :
  assessments <> [] ->
  exists r,
    report_node assessments num_workers = FullReport r
    /\ rp_average r
       = mean (map wr_score (PyList.sorted by_student assessments))
    /\ Forall (fun a => (rp_minimum r <= wr_score a <= rp_maximum r)%Q)
              assessments
    /\ (exists a, a ∈ assessments /\ rp_maximum r = wr_score a)
    /\ (exists a, a ∈ assessments /\ rp_minimum r = wr_score a).
Proof.
  intros Hne.
  destruct (report_node_values assessments num_workers Hne)
    as (r & ordered & Hr & Hord & Hperm & _ & _ & Havg & Hmax & Hmin & _).
  exists r. split; [done|].
  assert (Hne' : map wr_score ordered <> []).
  { intros E. apply fmap_nil_inv in E. subst ordered.
    rewrite E in Hperm. by apply Permutation_nil_l in Hperm. }
  destruct (max_spec _ Hne') as (mx & Emx & Hmx_in & Hmx).
  destruct (min_spec _ Hne') as (mn & Emn & Hmn_in & Hmn).
  rewrite Hmax, Hmin, Havg, Emx, Emn. simpl.
  assert (Hall : Forall (fun x => (mn <= x <= mx)%Q) (map wr_score ordered)).
  { apply Forall_forall. intros x Hx.
    rewrite Forall_forall in Hmx, Hmn. split; auto. }
  split; [by rewrite Hord|].
  split.
  { rewrite <- Hperm. by apply Forall_fmap in Hall. }
  split.
  - apply list_elem_of_fmap in Hmx_in as (a & -> & Ha).
    exists a. by rewrite <- Hperm.
  - apply list_elem_of_fmap in Hmn_in as (a & -> & Ha).
    exists a. by rewrite <- Hperm.
Qed.

Lemma report_minimum_and_maximum_are_scores_witness :
  exists r,
    report_node sample_results 2 = FullReport r
    /\ rp_average r
       = mean (map wr_score (PyList.sorted by_student sample_results))
    /\ Forall (fun a => (rp_minimum r <= wr_score a <= rp_maximum r)%Q)
              sample_results
    /\ (exists a, a ∈ sample_results /\ rp_maximum r = wr_score a)
    /\ (exists a, a ∈ sample_results /\ rp_minimum r = wr_score a).
Proof.
  apply (report_minimum_and_maximum_are_scores sample_results 2).
  discriminate.
Defined.

(** ** The statistics per worker *)

Lemma scores_of_cons (wid : Z) (a : WorkerResult) (l : list WorkerResult) :
  scores_of wid (a :: l)
  = if decide (wr_worker_id a = wid) then wr_score a :: scores_of wid l
    else scores_of wid l.
Proof.
  unfold scores_of. rewrite filter_cons.
  by destruct (decide (wr_worker_id a = wid)).
Qed.

Lemma collect_from (m : gmap Z (list Q)) (l : list WorkerResult) (wid : Z) :
  foldl (fun worker_stats a =>
           <[wr_worker_id a :=
               default [] (worker_stats !! wr_worker_id a) ++ [wr_score a]]>
             worker_stats) m l !! wid
  = match scores_of wid l with
    | [] => m !! wid
    | sc => Some (default [] (m !! wid) ++ sc)
    end.
Proof.
  revert m. induction l as [|a l IH]; intros m; [done|].
  cbn [foldl]. rewrite IH, scores_of_cons.
  destruct (decide (wr_worker_id a = wid)) as [->|Hne].
  - rewrite lookup_insert_eq.
    destruct (scores_of wid l) as [|s sc]; simpl; [done|].
    by rewrite <- app_assoc.
  - rewrite lookup_insert_ne by done. done.
Qed.

Lemma collect_worker_stats_lookup (l : list WorkerResult) (wid : Z) :
  collect_worker_stats l !! wid
  = match scores_of wid l with [] => None | sc => Some sc end.
Proof.
  unfold collect_worker_stats. rewrite collect_from, lookup_empty.
  by destruct (scores_of wid l).
Qed.

Lemma scores_of_nil_iff (l : list WorkerResult) (wid : Z) :
  scores_of wid l <> [] <-> exists a, a ∈ l /\ wr_worker_id a = wid.
Proof.
  unfold scores_of. split.
  - intros H. destruct (filter _ l) as [|a f] eqn:E; [done|].
    assert (Ha : a ∈ filter (fun a => wr_worker_id a = wid) l)
      by (rewrite E; left).
    apply list_elem_of_filter in Ha as [? ?]. by exists a.
  - intros (a & Ha & Hid) E. apply fmap_nil_inv in E.
    assert (Hin : a ∈ filter (fun a => wr_worker_id a = wid) l)
      by (by apply list_elem_of_filter).
    rewrite E in Hin. by apply elem_of_nil in Hin.
Qed.

Lemma scores_of_Permutation (l1 l2 : list WorkerResult) (wid : Z) :
  l1 ≡ₚ l2 -> scores_of wid l1 ≡ₚ scores_of wid l2.
Proof. intros H. unfold scores_of. by rewrite H. Qed.

Lemma Z_leb_total (x y : Z) : (x <=? y) = true \/ (y <=? x) = true.
Proof. destruct (Z.leb_spec x y), (Z.leb_spec y x); auto; lia. Qed.

Lemma Z_leb_trans (x y z : Z) :
  (x <=? y) = true -> (y <=? z) = true -> (x <=? z) = true.
Proof. rewrite !Z.leb_le. lia. Qed.

Lemma collect_worker_stats_default (l : list WorkerResult) (wid : Z) :
  default [] (collect_worker_stats l !! wid) = scores_of wid l.
Proof.
  rewrite collect_worker_stats_lookup. by destruct (scores_of wid l).
Qed.

Lemma collect_worker_stats_keys (l : list WorkerResult) (wid : Z) :
  wid ∈ map fst (map_to_list (collect_worker_stats l))
  <-> exists a, a ∈ l /\ wr_worker_id a = wid.
Proof.
  rewrite <- scores_of_nil_iff.
  change (map fst (map_to_list (collect_worker_stats l)))
    with ((map_to_list (collect_worker_stats l)).*1).
  rewrite list_elem_of_fmap. split.
  - intros ([k sc] & -> & Hin). apply elem_of_map_to_list in Hin.
    rewrite collect_worker_stats_lookup in Hin.
    simpl. by destruct (scores_of k l).
  - intros Hsc. exists (wid, scores_of wid l). split; [done|].
    apply elem_of_map_to_list. rewrite collect_worker_stats_lookup.
    by destruct (scores_of wid l).
Qed.

(** The lines of the statistics per worker. *)
Lemma report_node_worker_lines (assessments : list WorkerResult)
    (num_workers : Z) :
  assessments <> [] ->
  exists r ordered,
    report_node assessments num_workers = FullReport r
    /\ ordered ≡ₚ assessments
    /\ map ws_worker_id (rp_worker_stats r)
       = PyList.sorted Z.leb
           (map fst (map_to_list (collect_worker_stats ordered)))
    /\ Forall (fun line =>
                 ws_students line
                 = Z.of_nat (length (scores_of (ws_worker_id line) ordered))
                 /\ ws_average line
                    = mean (scores_of (ws_worker_id line) ordered))
              (rp_worker_stats r).
Proof.
  intros Hne.
  destruct (report_node_values assessments num_workers Hne)
    as (r & ordered & Hr & _ & Hperm & _ & _ & _ & _ & _ & Hws & _).
  exists r, ordered. split; [done|]. split; [done|].
  rewrite Hws. split.
  - rewrite map_map. apply map_id.
  - apply Forall_fmap, Forall_forall. intros wid _. simpl.
    by rewrite collect_worker_stats_default.
Qed.

(** X21.  In a report over at least one assessment the lines of the
    statistics per worker come in increasing order of the worker number,
    one line for each worker number that some assessment carries and for
    no other; a line states how many assessments carry its number and the
    mean of their scores. *)
Theorem worker_statistics_group_by_worker (assessments : list WorkerResult)
    (num_workers : Z) :
  assessments <> [] ->
  exists r,
    report_node assessments num_workers = FullReport r
    /\ ordered_by Z.leb (map ws_worker_id (rp_worker_stats r))
    /\ NoDup (map ws_worker_id (rp_worker_stats r))
    /\ (forall wid, wid ∈ map ws_worker_id (rp_worker_stats r)
                    <-> exists a, a ∈ assessments /\ wr_worker_id a = wid)
    /\ Forall (fun line =>
                 ws_students line
                 = Z.of_nat (length (scores_of (ws_worker_id line)
                                               assessments))
                 /\ (ws_average line
                     == mean (scores_of (ws_worker_id line) assessments))%Q)
              (rp_worker_stats r).
Proof.
  intros Hne.
  destruct (report_node_worker_lines assessments num_workers Hne)
    as (r & ordered & Hr & Hperm & Hids & Hlines).
  exists r. split; [done|]. rewrite Hids.
  split; [apply sorted_ordered; [apply Z_leb_total | apply Z_leb_trans]|].
  split.
  { rewrite sorted_Permutation. apply NoDup_fst_map_to_list. }
  split.
  { intros wid. rewrite sorted_Permutation, collect_worker_stats_keys.
    split; intros (a & Ha & Hid); exists a; split; try done.
    - by rewrite <- Hperm.
    - by rewrite Hperm. }
  eapply Forall_impl; [exact Hlines|]. intros line [Hn Hm].
  pose proof (scores_of_Permutation _ _ (ws_worker_id line) Hperm) as Hsc.
  rewrite Hn, Hm.
  split; [by rewrite (Permutation_length Hsc) | by apply mean_Permutation].
Qed.


Lemma worker_statistics_group_by_worker_witness :
  exists r,
    report_node sample_results 2 = FullReport r
    /\ ordered_by Z.leb (map ws_worker_id (rp_worker_stats r))
    /\ NoDup (map ws_worker_id (rp_worker_stats r))
    /\ (forall wid, wid ∈ map ws_worker_id (rp_worker_stats r)
                    <-> exists a, a ∈ sample_results /\ wr_worker_id a = wid)
    /\ Forall (fun line =>
                 ws_students line
                 = Z.of_nat (length (scores_of (ws_worker_id line)
                                               sample_results))
                 /\ (ws_average line
                     == mean (scores_of (ws_worker_id line) sample_results))%Q)
              (rp_worker_stats r).
Proof.
  apply (worker_statistics_group_by_worker sample_results 2).
  discriminate.
Defined.
(** * A whole run: the worker numbers of the report *)

(** X22.  In the report of a run with at least one worker, the number of
    workers it states is the number of batches the distribution made, which
    is at least 1 and at most the worker count asked for, and the worker
    number of every detail line and of every line of the statistics per
    worker lies between 1 and that number. *)
Theorem reported_worker_numbers_are_batch_numbers (tool : Tool)
    (exam_students : list Student) (num_workers : Z) (w w' : World)
    (r : ReportData) :
  0 < num_workers ->
  run_batches tool exam_students num_workers w
  = inr (Some (FullReport r), w') ->
  (exists student_batches,
     distribute_node exam_students num_workers
     = inr (student_batches, Z.of_nat (length student_batches))
     /\ rp_num_workers r = Z.of_nat (length student_batches))
  /\ 1 <= rp_num_workers r <= num_workers
  /\ Forall (fun d => 1 <= dl_worker_id d <= rp_num_workers r) (rp_details r)
  /\ Forall (fun line => 1 <= ws_worker_id line <= rp_num_workers r)
            (rp_worker_stats r).
Proof.
  intros HW Hrun. unfold run_batches in Hrun.
  pose proof (distribute_node_chunks exam_students num_workers HW) as Hdist.
  cbv zeta in Hdist. rewrite Hdist in Hrun.
  set (students := map email exam_students) in *.
  set (n := Z.of_nat (length students)) in *.
  destruct (partition_arith n num_workers ltac:(unfold n; lia) HW)
    as (_ & Hcnt & _).
  set (cnt := Z.to_nat (PyList.range_len 0 n (n / num_workers + 1))) in *.
  set (batches := map (chunk _ students) (seq 0 cnt)) in *.
  assert (Hlen : length batches = cnt)
    by (unfold batches; by rewrite length_map, length_seq).
  destruct (create_worker_sends batches) as [|state sends] eqn:Hsends;
    [discriminate|].
  rewrite <- Hsends in Hrun. clear Hsends state sends.
  pose proof (run_workers_ids tool batches w) as Hids.
  destruct (run_workers tool (create_worker_sends batches) w)
    as [assessments w1] eqn:E.
  simpl in Hids. rewrite Hlen in Hids. injection Hrun as Hrep <-.
  assert (Hne : assessments <> []).
  { intros ->. by rewrite report_node_nil in Hrep. }
  destruct (report_node_values assessments (Z.of_nat cnt) Hne)
    as (r' & ordered & Hr' & _ & Hperm & Hnum & _ & _ & _ & _ & _ & Hdet).
  destruct (report_node_worker_lines assessments (Z.of_nat cnt) Hne)
    as (r'' & ordered' & Hr'' & Hperm' & Hwids & _).
  rewrite Hrep in Hr', Hr''. injection Hr' as <-. injection Hr'' as <-.
  rewrite Hnum.
  assert (Hcnt1 : 1 <= Z.of_nat cnt).
  { destruct assessments as [|a ?]; [done|].
    specialize (Hids a ltac:(left)). lia. }
  split.
  { exists batches. by rewrite Hlen. }
  split; [unfold cnt in *; lia|]. split.
  - rewrite Hdet. apply Forall_forall. intros d Hd.
    apply elem_of_lookup_imap in Hd as (i & a & -> & Ha). simpl.
    apply Hids. rewrite <- Hperm. by eapply list_elem_of_lookup_2.
  - apply Forall_forall. intros line Hline.
    assert (Hin : ws_worker_id line ∈ map ws_worker_id (rp_worker_stats r))
      by (apply list_elem_of_fmap; by exists line).
    rewrite Hwids, sorted_Permutation in Hin.
    apply collect_worker_stats_keys in Hin as (a & Ha & <-).
    apply Hids. by rewrite <- Hperm'.
Qed.

Lemma reported_worker_numbers_are_batch_numbers_witness :
  exists r w',
    run_batches (mcp_tool env_without_bob [exam_of three_students])
                three_students 2 empty_world = inr (Some (FullReport r), w')
    /\ (exists student_batches,
          distribute_node three_students 2
          = inr (student_batches, Z.of_nat (length student_batches))
          /\ rp_num_workers r = Z.of_nat (length student_batches))
    /\ 1 <= rp_num_workers r <= 2
    /\ Forall (fun d => 1 <= dl_worker_id d <= rp_num_workers r)
              (rp_details r)
    /\ Forall (fun line => 1 <= ws_worker_id line <= rp_num_workers r)
              (rp_worker_stats r).
Proof.
  eexists. eexists.
  assert (H : run_batches (mcp_tool env_without_bob [exam_of three_students])
                three_students 2 empty_world
              = inr (Some (FullReport ?[r]), ?[w']))
    by (vm_compute; reflexivity).
  split; [exact H|].
  apply (reported_worker_numbers_are_batch_numbers
           (mcp_tool env_without_bob [exam_of three_students])
           three_students 2 empty_world _ _ ltac:(lia) H).
Defined.
(** * The shared context and the checklist cache *)

Lemma string_app_assoc (s1 s2 s3 : string) :
  (s1 +:+ s2) +:+ s3 = s1 +:+ (s2 +:+ s3).
Proof.
  induction s1 as [|c s1 IH]; [done|].
  change (String c ((s1 +:+ s2) +:+ s3) = String c (s1 +:+ s2 +:+ s3)).
  by rewrite IH.
Qed.

(** X23.  The context keys answers and assessment lists by the question id
    and the student code joined with an underscore: what is stored for a
    pair is read back for it and for every pair with the same joined key,
    which need not be the same pair (the underscore may belong to either
    part); pairs with another key are left as they were, and storing an
    answer touches neither the checklists nor the assessment lists. *)
Theorem context_is_keyed_by_the_joined_session_id {A}
    (ctx : AssessmentContext.t A)
    (question_id student_code middle answer : string)
    (assessments : list A) :
  let stored :=
    (AssessmentContext.store_answer ctx question_id student_code answer).2 in
  let assessed :=
    AssessmentContext.store_assessments ctx question_id student_code
                                        assessments in
  AssessmentContext.get_answer stored question_id student_code = Some answer
  /\ AssessmentContext.get_assessments assessed question_id student_code
     = Some assessments
  /\ AssessmentContext.get_answer
       (AssessmentContext.store_answer ctx (question_id +:+ "_" +:+ middle)
                                       student_code answer).2
       question_id (middle +:+ "_" +:+ student_code) = Some answer
  /\ AssessmentContext.get_assessments
       (AssessmentContext.store_assessments ctx
          (question_id +:+ "_" +:+ middle) student_code assessments)
       question_id (middle +:+ "_" +:+ student_code) = Some assessments
  /\ (forall q s,
        AssessmentContext.get_session_id q s
        <> AssessmentContext.get_session_id question_id student_code ->
        AssessmentContext.get_answer stored q s
        = AssessmentContext.get_answer ctx q s
        /\ AssessmentContext.get_assessments assessed q s
           = AssessmentContext.get_assessments ctx q s)
  /\ (forall q s, AssessmentContext.get_assessments stored q s
                  = AssessmentContext.get_assessments ctx q s)
  /\ (forall q, AssessmentContext.get_checklist stored q
                = AssessmentContext.get_checklist ctx q).
Proof.
  cbv zeta.
  unfold AssessmentContext.get_answer, AssessmentContext.get_assessments,
    AssessmentContext.store_answer, AssessmentContext.store_assessments,
    AssessmentContext.get_checklist, AssessmentContext.get_session_id.
  simpl.
  assert (Hkey : (question_id +:+ "_" +:+ middle) +:+ "_" +:+ student_code
                 = question_id +:+ "_" +:+ middle +:+ "_" +:+ student_code).
  { by rewrite string_app_assoc. }
  repeat split.
  - apply lookup_insert_eq.
  - apply lookup_insert_eq.
  - rewrite Hkey. apply lookup_insert_eq.
  - rewrite Hkey. apply lookup_insert_eq.
  - by rewrite lookup_insert_ne.
  - by rewrite lookup_insert_ne.
Qed.

(** ** The [load_checklist] tool *)

Section Checklists.
Variable env : Env.

Lemma load_checklist_cache id w id' :
  loaded_checklists (load_checklist env id w).2 !! id'
  = match loaded_checklists w !! id' with
    | Some c => Some c
    | None => if decide (id' = id) then checklist_on_disk env id else None
    end.
Proof.
  unfold load_checklist, load_cache, checklist_on_disk.
  destruct (loaded_checklists w !! id) as [c|] eqn:E; simpl.
  - destruct (loaded_checklists w !! id') as [c'|] eqn:E'; [done|].
    destruct (decide (id' = id)) as [->|]; [congruence | done].
  - destruct (question (questions_store env) id) as [e|q]; simpl.
    + destruct (loaded_checklists w !! id'); [done|]. by destruct (decide _).
    + destruct (solutions env !! q_id q) as [c|] eqn:Es; simpl.
      * destruct (decide (id' = id)) as [->|Hne].
        -- by rewrite lookup_insert_eq, E.
        -- rewrite lookup_insert_ne by done.
           by destruct (loaded_checklists w !! id').
      * destruct (loaded_checklists w !! id'); [done|]. by destruct (decide _).
Qed.

Lemma load_checklist_rest id w :
  llm_calls (load_checklist env id w).2 = llm_calls w
  /\ files (load_checklist env id w).2 = files w.
Proof.
  unfold load_checklist, load_cache.
  destruct (loaded_checklists w !! id); [done|].
  destruct (question (questions_store env) id) as [e|q]; [done|].
  by destruct (solutions env !! q_id q).
Qed.

(** Of the solutions files a call deletes at most the file of the question
    asked for, and only one that cannot be loaded. *)
Lemma load_checklist_broken id w :
  broken_solutions (load_checklist env id w).2 ⊆ broken_solutions w
  /\ (forall id', id' ∈ broken_solutions w ->
                  id' ∉ broken_solutions (load_checklist env id w).2 ->
                  (load_checklist env id w).1
                  = ChecklistError (NoChecklistFound id)
                  /\ solutions env !! id' = None
                  /\ exists q, question (questions_store env) id = inr q
                               /\ q_id q = id').
Proof.
  unfold load_checklist, load_cache.
  destruct (loaded_checklists w !! id); [by split|].
  destruct (question (questions_store env) id) as [e|q]; [by split|].
  destruct (solutions env !! q_id q) as [c|] eqn:Es; simpl; [by split|].
  split; [apply subseteq_difference_l; done|].
  intros id' H1 H2.
  apply not_elem_of_difference in H2 as [H2|H2]; [done|].
  apply elem_of_singleton in H2 as ->.
  split; [done|]. split; [done|]. by exists q.
Qed.

(** X24.  Loading a checklist is idempotent: a second call for the same id
    leaves the state as the first call left it; it answers "already loaded"
    with the numbers of core and of important items of the checklist when
    the first call loaded it or found it loaded, and repeats the error of
    the first call otherwise.  Neither call asks the judge or touches a
    file under the evaluations directory; of the solutions files the first
    call deletes at most the file of the question asked for, and only one
    that cannot be loaded, answering then that no checklist was found. *)
Theorem loading_a_checklist_twice_changes_nothing (question_id : string)
    (w : World) :
  let first := load_checklist env question_id w in
  let second := load_checklist env question_id first.2 in
  second.2 = first.2
  /\ llm_calls first.2 = llm_calls w /\ files first.2 = files w
  /\ broken_solutions first.2 ⊆ broken_solutions w
  /\ (forall id, id ∈ broken_solutions w -> id ∉ broken_solutions first.2 ->
                 first.1 = ChecklistError (NoChecklistFound question_id)
                 /\ solutions env !! id = None
                 /\ exists q,
                      question (questions_store env) question_id = inr q
                      /\ q_id q = id)
  /\ match first.1 with
     | ChecklistLoaded id _ core_count important_count core_items
                       important_items =>
         id = question_id
         /\ core_count = Z.of_nat (length core_items)
         /\ important_count = Z.of_nat (length important_items)
         /\ checklist_on_disk env question_id
            = Some (mkAnswer core_items important_items)
         /\ second.1 = AlreadyLoaded question_id core_count important_count
     | AlreadyLoaded id core_count important_count =>
         second.1 = first.1
     | ChecklistError e => second.1 = first.1
     end.
Proof.
  cbv zeta.
  destruct (load_checklist_rest question_id w) as [Hl Hf].
  destruct (load_checklist_broken question_id w) as [Hb Hd].
  split; [|split; [done|split; [done|split; [done|split; [done|]]]]];
    clear Hl Hf Hb Hd; unfold load_checklist, load_cache, checklist_on_disk.
  - destruct (loaded_checklists w !! question_id) as [c|] eqn:E; simpl.
    + by rewrite E.
    + destruct (question (questions_store env) question_id) as [e|q] eqn:Eq;
        simpl.
      * by rewrite ?E, ?Eq.
      * destruct (solutions env !! q_id q) as [c|] eqn:Es; simpl.
        -- by rewrite lookup_insert_eq.
        -- rewrite ?E, ?Eq, ?Es. simpl. by rewrite difference_twice_L.
  - destruct (loaded_checklists w !! question_id) as [c|] eqn:E; simpl.
    + by rewrite E.
    + destruct (question (questions_store env) question_id) as [e|q] eqn:Eq;
        simpl.
      * by rewrite ?E, ?Eq.
      * destruct (solutions env !! q_id q) as [c|] eqn:Es; simpl.
        -- rewrite lookup_insert_eq. by destruct c.
        -- by rewrite ?E, ?Eq, ?Es.
Qed.

End Checklists.
(** * The checklist cache is an optimisation *)

Section Transparency.
Variable env : Env.

Lemma world_grows_coherent w w' :
  world_grows env w w' -> cache_coherent env w -> cache_coherent env w'.
Proof.
  intros (_ & N & _) Hc id c H.
  destruct (N id c H) as [H0|(q & Hq & Hs)]; [by apply Hc|].
  unfold checklist_on_disk. by rewrite Hq.
Qed.

Lemma cache_coherent_empty : cache_coherent env empty_world.
Proof. intros id c H. simpl in H. by rewrite lookup_empty in H. Qed.

Lemma resolve_checklist_view id q w :
  question (questions_store env) id = inr q -> cache_coherent env w ->
  (resolve_checklist env id q w).1 = solutions env !! q_id q
  /\ llm_calls (resolve_checklist env id q w).2 = llm_calls w.
Proof.
  intros Hq Hc. unfold resolve_checklist, load_cache.
  destruct (loaded_checklists w !! id) as [c|] eqn:E.
  - apply Hc in E. unfold checklist_on_disk in E. rewrite Hq in E.
    simpl. by split.
  - by destruct (solutions env !! q_id q).
Qed.

Lemma try_assess_question_view qi n txt w1 w2 :
  same_view env w1 w2 ->
  (try_assess_question env qi n txt w1).1
  = (try_assess_question env qi n txt w2).1
  /\ llm_calls (try_assess_question env qi n txt w1).2
     = llm_calls (try_assess_question env qi n txt w2).2.
Proof.
  intros (Hc1 & Hc2 & Hl). unfold try_assess_question.
  destruct (question (questions_store env) (qi_id qi)) as [e|q] eqn:Hq;
    [done|].
  destruct (resolve_checklist_view _ _ _ Hq Hc1) as [Hr1 Hl1].
  destruct (resolve_checklist_view _ _ _ Hq Hc2) as [Hr2 Hl2].
  destruct (resolve_checklist env (qi_id qi) q w1) as [o1 w1'].
  destruct (resolve_checklist env (qi_id qi) q w2) as [o2 w2'].
  simpl in *. subst o1 o2. rewrite Hl1, Hl2, Hl.
  destruct (solutions env !! q_id q) as [c|]; [|simpl; split; congruence].
  by destruct (assess_single_answer _ _ _ _ _ _ _).
Qed.

Section OneStudentView.
Variable student_responses : gmap Z string.

Lemma assess_question_view qi t w1 w2 :
  same_view env w1 w2 ->
  (assess_question env student_responses qi t w1).1
  = (assess_question env student_responses qi t w2).1
  /\ same_view env (assess_question env student_responses qi t w1).2
                   (assess_question env student_responses qi t w2).2.
Proof.
  intros Hv.
  destruct (assess_question_facts env student_responses qi t w1)
    as (Hg1 & _ & _).
  destruct (assess_question_facts env student_responses qi t w2)
    as (Hg2 & _ & _).
  pose proof Hv as (Hc1 & Hc2 & Hl).
  assert (Hllm : (assess_question env student_responses qi t w1).1
                 = (assess_question env student_responses qi t w2).1
                 /\ llm_calls (assess_question env student_responses qi t w1).2
                    = llm_calls
                        (assess_question env student_responses qi t w2).2).
  { unfold assess_question.
    destruct (PyInt.int _) as [n|]; [|done].
    destruct (student_responses !! n) as [txt|]; [|done].
    destruct (try_assess_question_view qi n txt w1 w2 Hv) as [H1 H2].
    destruct (try_assess_question env qi n txt w1) as [[e1|a1] w1'];
      destruct (try_assess_question env qi n txt w2) as [[e2|a2] w2'];
      simpl in *; try done; by inversion H1. }
  destruct Hllm as [Hres Hllm]. split; [done|].
  split; [by eapply world_grows_coherent|].
  split; [by eapply world_grows_coherent | done].
Qed.

Lemma assess_questions_view qs t w1 w2 :
  same_view env w1 w2 ->
  (assess_questions env student_responses qs t w1).1
  = (assess_questions env student_responses qs t w2).1
  /\ same_view env (assess_questions env student_responses qs t w1).2
                   (assess_questions env student_responses qs t w2).2.
Proof.
  revert t w1 w2. induction qs as [|qi qs IH]; intros t w1 w2 Hv; simpl;
    [done|].
  destruct (assess_question_view qi t w1 w2 Hv) as [Hres Hv'].
  destruct (assess_question env student_responses qi t w1) as [[e1|t1] w1'];
    destruct (assess_question env student_responses qi t w2)
      as [[e2|t2] w2'];
    simpl in *; try done.
  injection Hres as ->. by apply IH.
Qed.

Lemma assess_student_exam_view student_email qs save_results og w1 w2 :
  same_view env w1 w2 ->
  (assess_student_exam env student_email qs student_responses save_results
                       og w1).1
  = (assess_student_exam env student_email qs student_responses save_results
                         og w2).1
  /\ same_view env
       (assess_student_exam env student_email qs student_responses
                            save_results og w1).2
       (assess_student_exam env student_email qs student_responses
                            save_results og w2).2.
Proof.
  intros Hv. unfold assess_student_exam.
  destruct (assess_questions_view qs (mkTotals [] 0%Q 0%Q) w1 w2 Hv)
    as [Hres Hv'].
  destruct (assess_questions env student_responses qs _ w1)
    as [[e1|t1] w1'];
    destruct (assess_questions env student_responses qs _ w2)
      as [[e2|t2] w2'];
    simpl in *; try done.
  { by injection Hres as ->. }
  injection Hres as ->.
  destruct save_results; [|done].
  unfold save_assessment_results.
  destruct Hv' as (Hc1 & Hc2 & Hl).
  destruct (writable env (evaluations_dir env +:+ "/" +:+ student_email));
    simpl; [|by repeat split].
  destruct (writable env _); simpl; [|by repeat split].
  destruct (writable env _); simpl; by repeat split.
Qed.

End OneStudentView.

(** X25.  The checklist cache does not change what the tool returns:
    called for the same query in two states whose caches hold only
    checklists as they are on disk, and in which the judge has been sent
    the same prompts, the tool [assess_student_exam] gives the same output
    (the same result, the same error or the same "student not found"), and
    leaves two states that again cannot be told apart. *)
Theorem checklist_cache_is_transparent (loaded_exams : list ExamData)
    (student_email : string) (w1 w2 : World) :
  same_view env w1 w2 ->
  (ExamMCPServer.assess_student_exam env loaded_exams student_email w1).1
  = (ExamMCPServer.assess_student_exam env loaded_exams student_email w2).1
  /\ same_view env
       (ExamMCPServer.assess_student_exam env loaded_exams student_email w1).2
       (ExamMCPServer.assess_student_exam env loaded_exams student_email w2).2.
Proof.
  intros Hv. unfold ExamMCPServer.assess_student_exam.
  destruct (find_student _ loaded_exams) as [[[s qs] e]|]; [|done].
  destruct (assess_student_exam_view (responses s) e qs true
              (original_grades s) w1 w2 Hv) as [Hres Hv'].
  destruct (assess_student_exam env e qs (responses s) true _ w1)
    as [[e1|r1] w1'];
    destruct (assess_student_exam env e qs (responses s) true _ w2)
      as [[e2|r2] w2'];
    simpl in *; try done.
  - by injection Hres as ->.
  - by injection Hres as ->.
Qed.

(** ** The set-up *)

Lemma load_checklists_cache ids w id' :
  loaded_checklists (load_checklists env ids w).2 !! id'
  = match loaded_checklists w !! id' with
    | Some c => Some c
    | None => if decide (id' ∈ ids) then checklist_on_disk env id' else None
    end.
Proof.
  revert w. induction ids as [|id ids IH]; intros w; simpl.
  - destruct (loaded_checklists w !! id'); [done|].
    destruct (decide (id' ∈ [])) as [H|]; [|done]. by apply elem_of_nil in H.
  - pose proof (load_checklist_cache env id w id') as H1.
    destruct (load_checklist env id w) as [o w1]. simpl in H1.
    specialize (IH w1).
    destruct (load_checklists env ids w1) as [os w2]. simpl in *.
    rewrite IH, H1. clear IH H1.
    destruct (loaded_checklists w !! id') as [c|]; [done|].
    destruct (decide (id' = id)) as [->|Hne].
    + destruct (decide (id ∈ id :: ids)) as [_|N]; [|by destruct N; left].
      destruct (checklist_on_disk env id) as [c|] eqn:E; [done|].
      by destruct (decide (id ∈ ids)).
    + destruct (decide (id' ∈ ids)) as [Hin|Hnin].
      * destruct (decide (id' ∈ id :: ids)) as [_|N]; [done|].
        by destruct N; right.
      * destruct (decide (id' ∈ id :: ids)) as [Hin|_]; [|done].
        by apply elem_of_cons in Hin as [?|?].
Qed.

Lemma load_checklists_rest ids w :
  llm_calls (load_checklists env ids w).2 = llm_calls w
  /\ files (load_checklists env ids w).2 = files w.
Proof.
  revert w. induction ids as [|id ids IH]; intros w; simpl; [done|].
  destruct (load_checklist_rest env id w) as [H1 H2].
  destruct (load_checklist env id w) as [o w1]. simpl in *.
  destruct (IH w1) as [H3 H4].
  destruct (load_checklists env ids w1) as [os w2]. simpl in *.
  split; congruence.
Qed.

Lemma flags_lookup (qs : list QuestionInfo) (d : gmap string bool) id :
  foldl (fun d q => <[qi_id q := true]> d) d qs !! id
  = if decide (id ∈ map qi_id qs) then Some true else d !! id.
Proof.
  revert d. induction qs as [|q qs IH]; intros d; simpl.
  - destruct (decide (id ∈ [])) as [H|]; [|done]. by apply elem_of_nil in H.
  - rewrite IH.
    destruct (decide (id ∈ map qi_id qs)) as [Hin|Hnin].
    + destruct (decide (id ∈ qi_id q :: map qi_id qs)) as [_|N]; [done|].
      by destruct N; right.
    + destruct (decide (id = qi_id q)) as [->|Hne].
      * rewrite lookup_insert_eq.
        destruct (decide (_ ∈ _ :: _)) as [_|N]; [done|]. by destruct N; left.
      * rewrite lookup_insert_ne by done.
        destruct (decide (id ∈ qi_id q :: map qi_id qs)) as [Hin|_]; [|done].
        by apply elem_of_cons in Hin as [?|?].
Qed.

Lemma load_checklists_broken ids w :
  broken_solutions (load_checklists env ids w).2 ⊆ broken_solutions w
  /\ (forall id', id' ∈ broken_solutions w ->
                  id' ∉ broken_solutions (load_checklists env ids w).2 ->
                  solutions env !! id' = None
                  /\ exists id q, id ∈ ids
                                  /\ question (questions_store env) id = inr q
                                  /\ q_id q = id').
Proof.
  revert w. induction ids as [|id ids IH]; intros w; simpl.
  - split; [done|]. intros id' H1 H2. by destruct H2.
  - destruct (load_checklist_broken env id w) as [Hb Hd].
    destruct (load_checklist env id w) as [o w1]. simpl in *.
    destruct (IH w1) as [Hb' Hd'].
    destruct (load_checklists env ids w1) as [os w2]. simpl in *.
    split; [by etrans|].
    intros id' H1 H2.
    destruct (decide (id' ∈ broken_solutions w1)) as [Hin|Hnin].
    + destruct (Hd' id' Hin H2) as (Hs & id0 & q & Hid0 & Hq & Hqid).
      split; [done|]. exists id0, q. split; [by right | done].
    + destruct (Hd id' H1 Hnin) as (_ & Hs & q & Hq & Hqid).
      split; [done|]. exists id, q. split; [by left | done].
Qed.

(** X26.  The set-up of a loaded exam passes on the questions and the
    students of the exam and marks the checklist of every exam question,
    and of no other id, as loaded, whether it could be loaded or not: after
    it the cache holds what it held before and, for the exam questions it
    did not hold, the checklist on disk when there is one.  The judge is
    not asked and no file under the evaluations directory is touched; of
    the solutions files only files that cannot be loaded are deleted, each
    the file of an exam question. *)
Theorem setup_marks_every_checklist_as_loaded (exam_data : ExamData)
    (w : World) :
  exists flags w',
    setup_node env (Some exam_data) w
    = (SetupDone (questions exam_data) (students exam_data) flags, w')
    /\ (forall id, flags !! id
                   = if decide (id ∈ map qi_id (questions exam_data))
                     then Some true else None)
    /\ (forall id, loaded_checklists w' !! id
                   = match loaded_checklists w !! id with
                     | Some c => Some c
                     | None =>
                         if decide (id ∈ map qi_id (questions exam_data))
                         then checklist_on_disk env id else None
                     end)
    /\ llm_calls w' = llm_calls w /\ files w' = files w
    /\ broken_solutions w' ⊆ broken_solutions w
    /\ (forall id', id' ∈ broken_solutions w -> id' ∉ broken_solutions w' ->
                    solutions env !! id' = None
                    /\ exists qi q,
                         qi ∈ questions exam_data
                         /\ question (questions_store env) (qi_id qi) = inr q
                         /\ q_id q = id').
Proof.
  unfold setup_node.
  pose proof (load_checklists_cache (map qi_id (questions exam_data)) w)
    as Hcache.
  destruct (load_checklists_rest (map qi_id (questions exam_data)) w)
    as [Hl Hf].
  destruct (load_checklists_broken (map qi_id (questions exam_data)) w)
    as [Hb Hd].
  destruct (load_checklists env _ w) as [os w']. simpl in *.
  eexists _, w'. split; [reflexivity|].
  split; [intros id; by rewrite flags_lookup, lookup_empty|].
  split; [done|]. split; [done|]. split; [done|]. split; [done|].
  intros id' H1 H2. destruct (Hd id' H1 H2) as (Hs & id & q & Hin & Hq & Hqid).
  split; [done|].
  apply list_elem_of_fmap in Hin as (qi & -> & Hqi). by exists qi, q.
Qed.

Lemma load_checklist_view id w :
  cache_coherent env w -> same_view env w (load_checklist env id w).2.
Proof.
  intros Hc. split; [done|]. split.
  - intros id' c H. rewrite load_checklist_cache in H.
    destruct (loaded_checklists w !! id') as [c'|] eqn:E.
    + injection H as <-. by apply Hc.
    + by destruct (decide (id' = id)) as [->|].
  - symmetry. apply load_checklist_rest.
Qed.

Lemma load_checklists_view ids w :
  cache_coherent env w -> same_view env w (load_checklists env ids w).2.
Proof.
  intros Hc. split; [done|]. split.
  - intros id c H. rewrite load_checklists_cache in H.
    destruct (loaded_checklists w !! id) as [c'|] eqn:E.
    + injection H as <-. by apply Hc.
    + by destruct (decide (id ∈ ids)).
  - symmetry. apply load_checklists_rest.
Qed.

Lemma setup_node_view loaded w :
  cache_coherent env w -> same_view env w (setup_node env loaded w).2.
Proof.
  intros Hc. destruct loaded as [exam_data|]; simpl.
  - pose proof (load_checklists_view (map qi_id (questions exam_data)) w Hc)
      as Hv.
    by destruct (load_checklists env _ w).
  - split; [done|]. by split.
Qed.

(** ** A run after the set-up *)

Section Run.
Variable loaded_exams : list ExamData.

Lemma mcp_tool_view student_email w1 w2 :
  same_view env w1 w2 ->
  (mcp_tool env loaded_exams student_email w1).1
  = (mcp_tool env loaded_exams student_email w2).1
  /\ same_view env (mcp_tool env loaded_exams student_email w1).2
                   (mcp_tool env loaded_exams student_email w2).2.
Proof.
  intros Hv. unfold mcp_tool, ExamMCPServer.assess_student_exam.
  destruct (find_student _ loaded_exams) as [[[s qs] e]|]; [|done].
  destruct (assess_student_exam_view (responses s) e qs true
              (original_grades s) w1 w2 Hv) as [Hres Hv'].
  destruct (assess_student_exam env e qs (responses s) true _ w1)
    as [[e1|r1] w1'];
    destruct (assess_student_exam env e qs (responses s) true _ w2)
      as [[e2|r2] w2'];
    simpl in *; try done; by inversion Hres.
Qed.

Lemma worker_loop_view wid batch results w1 w2 :
  same_view env w1 w2 ->
  (worker_loop (mcp_tool env loaded_exams) wid batch results w1).1
  = (worker_loop (mcp_tool env loaded_exams) wid batch results w2).1
  /\ same_view env
       (worker_loop (mcp_tool env loaded_exams) wid batch results w1).2
       (worker_loop (mcp_tool env loaded_exams) wid batch results w2).2.
Proof.
  revert results w1 w2.
  induction batch as [|e batch IH]; intros results w1 w2 Hv; simpl; [done|].
  destruct (mcp_tool_view e w1 w2 Hv) as [Hres Hv'].
  destruct (mcp_tool env loaded_exams e w1) as [o1 w1'].
  destruct (mcp_tool env loaded_exams e w2) as [o2 w2'].
  simpl in *. subst o2.
  destruct o1 as [ex|[| |a]]; by apply IH.
Qed.

Lemma run_workers_view sends w1 w2 :
  same_view env w1 w2 ->
  (run_workers (mcp_tool env loaded_exams) sends w1).1
  = (run_workers (mcp_tool env loaded_exams) sends w2).1
  /\ same_view env (run_workers (mcp_tool env loaded_exams) sends w1).2
                   (run_workers (mcp_tool env loaded_exams) sends w2).2.
Proof.
  revert w1 w2. induction sends as [|state sends IH]; intros w1 w2 Hv;
    simpl; [done|].
  unfold worker_node.
  destruct (worker_loop_view (worker_id state + 1) (batch state) [] w1 w2 Hv)
    as [Hres Hv'].
  destruct (worker_loop _ _ _ _ w1) as [r1 w1'].
  destruct (worker_loop _ _ _ _ w2) as [r2 w2'].
  simpl in *. subst r2.
  destruct (IH w1' w2' Hv') as [Hres' Hv''].
  destruct (run_workers _ sends w1') as [o1 w1''].
  destruct (run_workers _ sends w2') as [o2 w2''].
  simpl in *. by subst o2.
Qed.

(** X27.  Loading the checklists in the set-up changes no report: from a
    state whose cache holds only checklists as they are on disk, a run of
    the batches gives the same report, or stops with the same error,
    whether it starts in that state or in the state the set-up leaves. *)
Theorem setup_changes_no_report (loaded : option ExamData)
    (exam_students : list Student) (num_workers : Z) (w : World) :
  cache_coherent env w ->
  report_of (run_batches (mcp_tool env loaded_exams) exam_students
                         num_workers (setup_node env loaded w).2)
  = report_of (run_batches (mcp_tool env loaded_exams) exam_students
                           num_workers w).
Proof.
  intros Hc. unfold run_batches.
  destruct (distribute_node exam_students num_workers)
    as [e|[batches n]]; [done|].
  destruct (run_workers_view (create_worker_sends batches) w
              (setup_node env loaded w).2 (setup_node_view loaded w Hc))
    as [Hres _].
  destruct (create_worker_sends batches) as [|state sends]; [done|].
  destruct (run_workers _ _ w) as [a1 w1].
  destruct (run_workers _ _ (setup_node env loaded w).2) as [a2 w2].
  simpl in *. by subst a2.
Qed.

End Run.
End Transparency.

Lemma checklist_cache_is_transparent_witness :
  (ExamMCPServer.assess_student_exam sample_env [exam_of three_students]
                                     "ada@unibo.it" empty_world).1
  = (ExamMCPServer.assess_student_exam sample_env [exam_of three_students]
       "ada@unibo.it" (load_checklist sample_env "CI-1" empty_world).2).1.
Proof.
  apply (checklist_cache_is_transparent sample_env [exam_of three_students]
           "ada@unibo.it" empty_world
           (load_checklist sample_env "CI-1" empty_world).2).
  apply load_checklist_view, cache_coherent_empty.
Defined.

Lemma setup_changes_no_report_witness :
  report_of (run_batches (mcp_tool sample_env [exam_of three_students])
                         three_students 2
                         (setup_node sample_env
                                     (Some (exam_of three_students))
                                     empty_world).2)
  = report_of (run_batches (mcp_tool sample_env [exam_of three_students])
                           three_students 2 empty_world).
Proof.
  apply (setup_changes_no_report sample_env [exam_of three_students]
           (Some (exam_of three_students)) three_students 2 empty_world).
  apply cache_coherent_empty.
Defined.
